(** * Axiom backend: risk aggregation and verification orchestration

    A shallow embedding of [services/risk_engine.py] and
    [services/orchestrator.py] together with the part of [models/__init__.py],
    [config.py] and [agents/] they use.

    Modelling conventions.
    - Python [float] values are modelled by exact rationals ([Q]); equality of
      scores is therefore [Qeq] ([==]).  Binary64 rounding error is outside
      the model.
    - Pydantic models are records; each lives in a module of its own so that
      the fields keep the names of the source ([Claim.id], [Finding.text]...).
      The [Field(ge=0.0, le=1.0)] constraints are the predicates
      [wf_finding] and [wf_assessment]: values that break them cannot be
      constructed in the source.
    - The [created_at] / [timestamp] fields (wall-clock time) are omitted.
    - Python [str] is modelled by [string].
    - The collaborators of the orchestrator (claim extraction, the agents,
      the settlement oracle) are parameters; an agent's [verify] either
      returns an assessment or raises.  The orchestrator runs in a small
      monad that records every call to a collaborator and every event
      yielded, and that may stop with an exception. *)

From Stdlib Require Import QArith Qround Qabs Qminmax Lqa Lia ZArith String List Permutation.
From stdpp Require Import gmap strings list pretty.

Open Scope Q_scope.

(** ** models/__init__.py *)

Inductive ClaimType := NUMERIC | ENTITY | EVENT | CASE_LAW | LEGAL | QUOTE | CAUSAL.

Inductive Severity := CRITICAL | HIGH | MED | LOW.

Inductive Verdict := TRUE | FALSE | UNCERTAIN.

Inductive RiskAction := ALLOW | REWRITE | BLOCK.

Inductive AgentSide :=
  | LONG   (* believes claim is true *)
  | SHORT. (* believes claim is false *)

Inductive FindingType :=
  | CONFIRMED | CONTRADICTION | SUPPORTS | FLAG
  | INCONSISTENCY | CONSISTENT | PATTERN | NOT_FOUND.

#[export] Instance Severity_eq_dec : EqDecision Severity.
Proof. solve_decision. Defined.

#[export] Instance Verdict_eq_dec : EqDecision Verdict.
Proof. solve_decision. Defined.

#[export] Instance RiskAction_eq_dec : EqDecision RiskAction.
Proof. solve_decision. Defined.

#[export] Instance AgentSide_eq_dec : EqDecision AgentSide.
Proof. solve_decision. Defined.

(** The [.value] of a [str]-valued enum member. *)
Definition Severity_value (s : Severity) : string :=
  match s with
  | CRITICAL => "CRITICAL" | HIGH => "HIGH" | MED => "MED" | LOW => "LOW"
  end.

Definition Verdict_value (v : Verdict) : string :=
  match v with TRUE => "TRUE" | FALSE => "FALSE" | UNCERTAIN => "UNCERTAIN" end.

Definition RiskAction_value (a : RiskAction) : string :=
  match a with ALLOW => "ALLOW" | REWRITE => "REWRITE" | BLOCK => "BLOCK" end.

Definition AgentSide_value (p : AgentSide) : string :=
  match p with LONG => "LONG" | SHORT => "SHORT" end.

Definition ClaimType_value (t : ClaimType) : string :=
  match t with
  | NUMERIC => "NUMERIC" | ENTITY => "ENTITY" | EVENT => "EVENT"
  | CASE_LAW => "CASE_LAW" | LEGAL => "LEGAL" | QUOTE => "QUOTE"
  | CAUSAL => "CAUSAL"
  end.

Module Claim.
Record t := mk {
  id : string;
  text : string;
  type : ClaimType;
  severity : Severity;
  source_text : string;
}.
End Claim.
Abbreviation Claim := Claim.t.

Module Finding.
Record t := mk {
  type : FindingType;
  text : string;
  source : string;
  relevance : Q;
}.
End Finding.
Abbreviation Finding := Finding.t.

Module AgentAssessment.
Record t := mk {
  agent_name : string;
  claim_id : string;
  position : AgentSide;
  confidence : Q;
  summary : string;
  findings : list Finding;
  latency_ms : Q;
}.
End AgentAssessment.
Abbreviation AgentAssessment := AgentAssessment.t.

Module ClaimVerification.
Record t := mk {
  claim : Claim;
  risk_score : Q;  (* 1.0 = definitely true, 0.0 = definitely false *)
  verdict : Verdict;
  action : RiskAction;
  rationale : string;
  assessments : list AgentAssessment;
}.
End ClaimVerification.
Abbreviation ClaimVerification := ClaimVerification.t.

Module Settlement.
Record t := mk {
  session_id : string;
  oracle : string;
  confidence : Q;
  summary : string;
  evidence_supporting : Z;
  evidence_contradicting : Z;
  evidence_neutral : Z;
  recommendation : string;
}.
End Settlement.
Abbreviation Settlement := Settlement.t.

Module VerificationSession.
Record t := mk {
  id : string;
  prompt : string;
  llm_response : string;
  claims : list Claim;
  verifications : list ClaimVerification;
  settlement : option Settlement;
  overall_action : option RiskAction;
}.

(** Assignments to the fields of a session. *)
Definition set_claims (s : t) (cs : list Claim) : t :=
  mk (id s) (prompt s) (llm_response s) cs (verifications s) (settlement s)
    (overall_action s).

Definition set_verifications (s : t) (vs : list ClaimVerification) : t :=
  mk (id s) (prompt s) (llm_response s) (claims s) vs (settlement s)
    (overall_action s).

Definition set_settlement (s : t) (st : Settlement) : t :=
  mk (id s) (prompt s) (llm_response s) (claims s) (verifications s) (Some st)
    (overall_action s).

Definition set_overall_action (s : t) (a : RiskAction) : t :=
  mk (id s) (prompt s) (llm_response s) (claims s) (verifications s)
    (settlement s) (Some a).
End VerificationSession.
Abbreviation VerificationSession := VerificationSession.t.

(** [relevance: float = Field(ge=0.0, le=1.0)] *)
Definition wf_finding (f : Finding) : Prop :=
  0 <= Finding.relevance f /\ Finding.relevance f <= 1.

(** [confidence: float = Field(ge=0.0, le=1.0)], and every finding valid. *)
Definition wf_assessment (a : AgentAssessment) : Prop :=
  (0 <= AgentAssessment.confidence a /\ AgentAssessment.confidence a <= 1)
  /\ Forall wf_finding (AgentAssessment.findings a).

(** ** config.py *)

Record Config := {
  RISK_THRESHOLD_ALLOW : Q;
  RISK_THRESHOLD_REWRITE : Q;
}.

(** The values used when the environment sets neither variable. *)
Definition default_config : Config :=
  {| RISK_THRESHOLD_ALLOW := 0.80; RISK_THRESHOLD_REWRITE := 0.40 |}.

(** ** Python built-ins used by the engine *)

(** [a >= b] on numbers. *)
Definition ge_ (a b : Q) : bool := Qle_bool b a.

(** [a > b] on numbers. *)
Definition gt_ (a b : Q) : bool := negb (Qle_bool a b).

(** [min(a, b)]: the first of the smallest arguments. *)
Definition min_ (a b : Q) : Q := if gt_ a b then b else a.

(** [sum(xs)]: left-to-right, starting from [0]. *)
Definition sum_ (xs : list Q) : Q := fold_left Qplus xs 0.

(** [len(xs)] as a number. *)
Definition len_ {A} (xs : list A) : Q := inject_Z (Z.of_nat (length xs)).

(** Rounding to the nearest integer, ties to the even one. *)
Definition round_half_even (x : Q) : Z :=
  let f := Qfloor x in
  match Qcompare (x - inject_Z f) (1 # 2) with
  | Lt => f
  | Gt => (f + 1)%Z
  | Eq => if Z.even f then f else (f + 1)%Z
  end.

(** [round(x, ndigits)] for [ndigits >= 0]. *)
Definition round_ (x : Q) (ndigits : nat) : Q :=
  let p := (10 ^ Z.of_nat ndigits)%Z in
  inject_Z (round_half_even (x * inject_Z p)) / inject_Z p.

(** The format [{x:.0%}]: [x * 100] with no decimals, then a percent sign. *)
Definition format_percent0 (x : Q) : string :=
  (pretty (round_half_even (x * 100)) +:+ "%")%string.

(** [sep.join(parts)] *)
Definition join (sep : string) (parts : list string) : string :=
  String.concat sep parts.

(** [s[:n]] (characters are counted as bytes here) *)
Definition prefix_ (n : nat) (s : string) : string := String.substring 0 n s.

(** ** services/risk_engine.py *)

(** Agent reliability weights. *)
Definition AGENT_WEIGHTS : gmap string Q :=
  <["NumericVerifier"%string := 1.0]>
  (<["RetrieverAgent"%string := 0.9]>
  (<["ConsistencyBot"%string := 0.8]> ∅)).

(** Severity multipliers: higher severity, stricter thresholds.  The
    dictionary has an entry for every member of the enum, so the default of
    [SEVERITY_MULTIPLIERS.get(claim.severity, 1.0)] is never taken. *)
Definition SEVERITY_MULTIPLIERS (s : Severity) : Q :=
  match s with
  | CRITICAL => 1.20
  | HIGH => 1.10
  | MED => 1.00
  | LOW => 0.85
  end.

(** [max(all_findings, key=lambda f: f.relevance)] on a non-empty list whose
    head is [best]: the first finding of largest relevance. *)
Fixpoint max_relevance (best : Finding) (rest : list Finding) : Finding :=
  match rest with
  | [] => best
  | f :: rest' =>
      if gt_ (Finding.relevance f) (Finding.relevance best)
      then max_relevance f rest'
      else max_relevance best rest'
  end.

Definition is_short (a : AgentAssessment) : bool :=
  bool_decide (AgentAssessment.position a = SHORT).

Definition is_long (a : AgentAssessment) : bool :=
  bool_decide (AgentAssessment.position a = LONG).

Definition _generate_rationale
    (claim : Claim) (assessments : list AgentAssessment)
    (risk_score : Q) (verdict : Verdict) (action : RiskAction) : string :=
  let short_agents := List.filter is_short assessments in
  let long_agents := List.filter is_long assessments in
  let parts :=
    match verdict with
    | FALSE =>
        ("Claim scored " +:+ format_percent0 risk_score +:+ " factuality.") ::
        match short_agents with
        | [] => []
        | _ =>
            let agent_names :=
              join ", " (map AgentAssessment.agent_name short_agents) in
            (pretty (length short_agents) +:+ "/3 verifiers flagged issues ("
               +:+ agent_names +:+ ").") ::
            let all_findings :=
              flat_map AgentAssessment.findings short_agents in
            match all_findings with
            | [] => []
            | f :: fs =>
                let top := max_relevance f fs in
                ["Key finding: " +:+ prefix_ 120 (Finding.text top)]
            end
        end
    | TRUE =>
        ("Claim verified with " +:+ format_percent0 risk_score
           +:+ " confidence.") ::
        match long_agents with
        | [] => []
        | _ =>
            let total_evidence :=
              fold_left Nat.add
                (map (fun a => length (AgentAssessment.findings a)) long_agents)
                0%nat in
            [pretty (length long_agents) +:+ "/3 verifiers confirmed.";
             pretty total_evidence +:+ " supporting evidence items found."]
        end
    | UNCERTAIN =>
        ["Claim scored " +:+ format_percent0 risk_score
           +:+ " — insufficient confidence to allow or block.";
         "Routed for human review with suggested rewrites."]
    end%string in
  join " " parts.

Section risk_engine.

(** The module-level [config] object. *)
Variable config : Config.

(** *** The body of the loop over the assessments *)

(** [w = AGENT_WEIGHTS.get(a.agent_name, 0.8)] *)
Definition agent_weight (a : AgentAssessment) : Q :=
  default 0.8 (AGENT_WEIGHTS !! AgentAssessment.agent_name a).

(** Weight by evidence quality (number and relevance of findings). *)
Definition evidence_weight (a : AgentAssessment) : Q :=
  match AgentAssessment.findings a with
  | [] => 0.5
  | fs =>
      let avg_relevance := sum_ (map Finding.relevance fs) / len_ fs in
      0.7 + 0.3 * avg_relevance  (* 0.7 to 1.0 *)
  end.

Definition effective_weight (a : AgentAssessment) : Q :=
  agent_weight a * evidence_weight a.

(** LONG position: [truth_prob = confidence];
    SHORT position: [truth_prob = 1 - confidence]. *)
Definition truth_prob (a : AgentAssessment) : Q :=
  match AgentAssessment.position a with
  | LONG => AgentAssessment.confidence a
  | SHORT => 1.0 - AgentAssessment.confidence a
  end.

(** One iteration: the pair is [(weighted_sum, weight_total)]. *)
Definition accumulate (acc : Q * Q) (a : AgentAssessment) : Q * Q :=
  let '(weighted_sum, weight_total) := acc in
  (weighted_sum + truth_prob a * effective_weight a,
   weight_total + effective_weight a).

(** Step 1: weighted truth probability. *)
Definition weighted_risk_score (assessments : list AgentAssessment) : Q :=
  let '(weighted_sum, weight_total) :=
    fold_left accumulate assessments (0, 0) in
  if gt_ weight_total 0 then weighted_sum / weight_total else 0.5.

(** [positions.count(side)] *)
Definition count_ (side : AgentSide) (positions : list AgentSide) : nat :=
  count_occ AgentSide_eq_dec positions side.

(** Step 2: disagreement penalty, applied to the score of step 1.  The
    share is computed only under the test of [apply_disagreement], where the
    list is not empty. *)
Definition minority_share (assessments : list AgentAssessment) : Q :=
  let positions := map AgentAssessment.position assessments in
  let long_count := count_ LONG positions in
  let short_count := count_ SHORT positions in
  inject_Z (Z.of_nat (Nat.min long_count short_count)) / len_ positions.

Definition disagreement_penalty (assessments : list AgentAssessment) : Q :=
  minority_share assessments * 0.15.  (* max 0.075 for 50/50 split *)

Definition apply_disagreement
    (assessments : list AgentAssessment) (risk_score : Q) : Q :=
  let positions := map AgentAssessment.position assessments in
  let long_count := count_ LONG positions in
  let short_count := count_ SHORT positions in
  if (0 <? long_count)%nat && (0 <? short_count)%nat then
    (* Push risk_score toward 0.5 *)
    risk_score * (1 - disagreement_penalty assessments)
    + 0.5 * disagreement_penalty assessments
  else risk_score.

(** The value of the variable [risk_score] when the thresholds are
    compared with it (after step 2, before the result is stored). *)
Definition final_risk_score (assessments : list AgentAssessment) : Q :=
  apply_disagreement assessments (weighted_risk_score assessments).

(** Step 3: severity adjustment, thresholds clamped. *)
Definition adjusted_allow (severity : Severity) : Q :=
  let severity_mult := SEVERITY_MULTIPLIERS severity in
  min_ (RISK_THRESHOLD_ALLOW config * severity_mult) 0.95.

Definition adjusted_rewrite (severity : Severity) : Q :=
  let severity_mult := SEVERITY_MULTIPLIERS severity in
  min_ (RISK_THRESHOLD_REWRITE config * severity_mult)
       (adjusted_allow severity - 0.05).

(** Step 4: verdict and action. *)
Definition decide_action (severity : Severity) (risk_score : Q)
    : Verdict * RiskAction :=
  if ge_ risk_score (adjusted_allow severity) then (TRUE, ALLOW)
  else if ge_ risk_score (adjusted_rewrite severity) then (UNCERTAIN, REWRITE)
  else (FALSE, BLOCK).

Definition aggregate_risk
    (claim : Claim) (assessments : list AgentAssessment)
    : ClaimVerification :=
  match assessments with
  | [] =>
      ClaimVerification.mk claim 0.50 UNCERTAIN BLOCK
        "No agent assessments available." assessments
  | _ =>
      let risk_score := final_risk_score assessments in
      let '(verdict, action) :=
        decide_action (Claim.severity claim) risk_score in
      let rationale :=
        _generate_rationale claim assessments risk_score verdict action in
      ClaimVerification.mk claim (round_ risk_score 4) verdict action
        rationale assessments
  end.

(** [x in xs] for actions and severities. *)
Definition in_ {A} `{EqDecision A} (x : A) (xs : list A) : bool :=
  existsb (fun y => bool_decide (y = x)) xs.

(** The test of the loop of [determine_overall_action]:
    [v.action == BLOCK and v.claim.severity in (CRITICAL, HIGH)]. *)
Definition is_severe_block (v : ClaimVerification) : bool :=
  bool_decide (ClaimVerification.action v = BLOCK)
  && in_ (Claim.severity (ClaimVerification.claim v)) [CRITICAL; HIGH].

(** The loop itself: is some blocked claim of critical or high severity?
    It returns at the first one. *)
Fixpoint severe_block (verifications : list ClaimVerification) : bool :=
  match verifications with
  | [] => false
  | v :: rest =>
      if is_severe_block v then true else severe_block rest
  end.

Definition determine_overall_action
    (verifications : list ClaimVerification) : RiskAction :=
  match verifications with
  | [] => BLOCK
  | _ =>
      let actions := map ClaimVerification.action verifications in
      (* If ANY critical/high severity claim is blocked, block the whole response *)
      if severe_block verifications then BLOCK
      (* If any claim needs rewriting, the response needs rewriting *)
      else if in_ REWRITE actions then REWRITE
      (* If any claim is blocked (even low severity), at least rewrite *)
      else if in_ BLOCK actions then REWRITE
      else ALLOW
  end.

End risk_engine.

(** ** agents/base.py and agents/__init__.py *)

(** The [context] dictionary handed to [verify]. *)
Module Context.
Record t := mk {
  other_claims : list Claim;
  other_assessments : gmap string (list AgentAssessment);
  domain : string;
}.
End Context.
Abbreviation Context := Context.t.

(** A call either returns a value or raises; the exception is kept as its
    message. *)
Inductive Outcome (A : Type) :=
  | Returned (a : A)
  | Raised (e : string).
Arguments Returned {A} a.
Arguments Raised {A} e.

(** The abstract base class: every agent has a name, a specialty and a
    [verify] method.  The three registered agents look up external services;
    here an agent is any implementation of the interface, and [verify] is a
    function of what it is given. *)
Module BaseAgent.
Record t := mk {
  name : string;
  specialty : string;
  verify : Claim -> Context -> Outcome AgentAssessment;
}.
End BaseAgent.
Abbreviation BaseAgent := BaseAgent.t.

(** ** WebSocket events (models/__init__.py) *)

Inductive WSEventType :=
  | SESSION_CREATED | CLAIMS_EXTRACTED | AGENT_QUOTE | RISK_UPDATE
  | SETTLEMENT | ACTION | ERROR.

(** The [data] dictionary of an event, one shape per place that builds it. *)
Inductive WSData :=
  | SessionCreatedData (session_id prompt : string)
  | ClaimsExtractedData (claims : list (string * string * string * string))
      (* id, text, type, severity *)
  | ActionData (action reason : string)
  | AgentQuoteData (claim_id agent_name position : string) (confidence : Q)
      (summary : string) (findings_count : nat)
  | RiskUpdateData (claim_id : string) (risk_score : Q)
      (verdict action rationale : string)
  | SettlementData (session_id oracle : string) (confidence : Q)
      (summary : string)
      (evidence_supporting evidence_contradicting evidence_neutral : Z)
      (recommendation overall_action : string).

Module WSEvent.
Record t := mk {
  type : WSEventType;
  data : WSData;
}.
End WSEvent.
Abbreviation WSEvent := WSEvent.t.

(** ** The effects of the orchestrator

    The orchestrator awaits three collaborators (claim extraction, the
    agents, the settlement oracle) and, in streaming mode, yields events.
    A computation threads a [World] that records, oldest first, every call
    made to a collaborator and every event yielded, and it may stop with an
    exception.  The pauses ([asyncio.sleep]) have no effect on the result
    and are left out. *)

Inductive Call :=
  | CallExtract (response domain : string)
  | CallVerify (agent : string) (claim : Claim) (context : Context)
  | CallSettle (session_id : string) (verifications : list ClaimVerification)
      (overall_action : RiskAction).

Record World := {
  calls : list Call;
  events : list WSEvent;
}.

Definition empty_world : World := {| calls := []; events := [] |}.

(** The world after further calls and events. *)
Definition extend (w : World) (new_calls : list Call)
    (new_events : list WSEvent) : World :=
  {| calls := calls w ++ new_calls; events := events w ++ new_events |}.

Definition M (A : Type) : Type := World -> Outcome A * World.

Definition ret {A} (a : A) : M A := fun w => (Returned a, w).

Definition bind {A B} (c : M A) (k : A -> M B) : M B :=
  fun w =>
    match c w with
    | (Returned a, w') => k a w'
    | (Raised e, w') => (Raised e, w')
    end.

Definition raise {A} (e : string) : M A := fun w => (Raised e, w).

(** The call [c] with its exception, if any, turned into a value. *)
Definition catch {A} (c : M A) : M (Outcome A) :=
  fun w => let '(r, w') := c w in (Returned r, w').

Definition record_call (c : Call) : M unit :=
  fun w => (Returned tt, {| calls := calls w ++ [c]; events := events w |}).

(** [yield e] *)
Definition yield_ (e : WSEvent) : M unit :=
  fun w => (Returned tt, {| calls := calls w; events := events w ++ [e] |}).

Declare Scope orch_scope.
Delimit Scope orch_scope with orch.
Notation "'let*' x := c 'in' k" := (bind c (fun x => k))
  (at level 10, x name, c at level 100, k at level 200) : orch_scope.
Notation "'do' c 'in' k" := (bind c (fun _ => k))
  (at level 10, c at level 100, k at level 200) : orch_scope.

(** ** services/orchestrator.py *)

Section orchestrator.

Variable config : Config.

(** [services.claim_extractor.extract_claims] *)
Variable extract_claims : string -> string -> list Claim.

(** [agents.ALL_AGENTS] *)
Variable ALL_AGENTS : list BaseAgent.

(** [services.sphinx_oracle.settle] *)
Variable settle :
  string -> list ClaimVerification -> RiskAction -> Settlement.

(** The identifier drawn for the new session. *)
Variable new_session_id : string.

Local Open Scope orch_scope.

(** [await extract_claims(response, domain)] *)
Definition await_extract_claims (response domain : string)
    : M (list Claim) :=
  do record_call (CallExtract response domain) in
  ret (extract_claims response domain).

(** [await agent.verify(claim, context)] *)
Definition await_verify
    (agent : BaseAgent) (claim : Claim) (context : Context)
    : M AgentAssessment :=
  do record_call (CallVerify (BaseAgent.name agent) claim context) in
  match BaseAgent.verify agent claim context with
  | Returned a => ret a
  | Raised e => raise e
  end.

(** [await settle(session_id, verifications, overall_action)] *)
Definition await_settle
    (session_id : string) (verifications : list ClaimVerification)
    (overall_action : RiskAction) : M Settlement :=
  do record_call (CallSettle session_id verifications overall_action) in
  ret (settle session_id verifications overall_action).

(** [await asyncio.gather] over the tasks with [return_exceptions=True]:
    every task runs and an exception becomes the task's entry in the result
    list.  The
    tasks of one claim share one context, which nothing changes while they
    run, so the order in which they are interleaved does not show. *)
Fixpoint gather_return_exceptions {A} (tasks : list (M A))
    : M (list (Outcome A)) :=
  match tasks with
  | [] => ret []
  | task :: rest =>
      let* r := catch task in
      let* rs := gather_return_exceptions rest in
      ret (r :: rs)
  end.

(** [[a for a in assessments if isinstance(a, AgentAssessment)]] *)
Fixpoint filter_valid (assessments : list (Outcome AgentAssessment))
    : list AgentAssessment :=
  match assessments with
  | [] => []
  | Returned a :: rest => a :: filter_valid rest
  | Raised _ :: rest => filter_valid rest
  end.

(** [[c for c in claims if c.id != claim.id]] *)
Definition other_claims_of (claims : list Claim) (claim : Claim)
    : list Claim :=
  List.filter (fun c => bool_decide (Claim.id c <> Claim.id claim)) claims.

(** *** run_verification *)

(** The loop [for claim in claims] of step 2; [todo] is what is left of
    [claims], and the two accumulators are the loop's variables. *)
Fixpoint verify_each
    (claims : list Claim) (domain : string) (todo : list Claim)
    (all_verifications : list ClaimVerification)
    (all_assessments : gmap string (list AgentAssessment))
    : M (list ClaimVerification * gmap string (list AgentAssessment)) :=
  match todo with
  | [] => ret (all_verifications, all_assessments)
  | claim :: todo' =>
      (* Run agents in parallel for this claim *)
      let context :=
        Context.mk (other_claims_of claims claim) all_assessments domain in
      let agent_tasks :=
        map (fun agent => await_verify agent claim context) ALL_AGENTS in
      let* assessments := gather_return_exceptions agent_tasks in
      (* Filter out any errors *)
      let valid_assessments := filter_valid assessments in
      (* Store for cross-claim dependency checking *)
      let all_assessments :=
        <[Claim.id claim := valid_assessments]> all_assessments in
      (* Aggregate into verification result *)
      let verification := aggregate_risk config claim valid_assessments in
      verify_each claims domain todo'
        (all_verifications ++ [verification]) all_assessments
  end.

Definition run_verification (prompt response domain : string)
    : M VerificationSession :=
  let session :=
    VerificationSession.mk new_session_id prompt response [] [] None None in
  (* Step 1: Extract claims *)
  let* claims := await_extract_claims response domain in
  let session := VerificationSession.set_claims session claims in
  match claims with
  | [] => ret (VerificationSession.set_overall_action session ALLOW)
  | _ =>
      (* Step 2: Verify each claim with all agents *)
      let* r := verify_each claims domain claims [] ∅ in
      let all_verifications := fst r in
      let session :=
        VerificationSession.set_verifications session all_verifications in
      (* Step 3: Determine overall action *)
      let overall_action := determine_overall_action all_verifications in
      let session :=
        VerificationSession.set_overall_action session overall_action in
      (* Step 4: Settlement *)
      let* settlement :=
        await_settle (VerificationSession.id session) all_verifications
          overall_action in
      ret (VerificationSession.set_settlement session settlement)
  end.

(** *** run_verification_streaming *)

Definition agent_quote (claim : Claim) (assessment : AgentAssessment)
    : WSEvent :=
  WSEvent.mk AGENT_QUOTE
    (AgentQuoteData (Claim.id claim)
       (AgentAssessment.agent_name assessment)
       (AgentSide_value (AgentAssessment.position assessment))
       (AgentAssessment.confidence assessment)
       (AgentAssessment.summary assessment)
       (length (AgentAssessment.findings assessment))).

(** [if claim.id not in all_assessments: all_assessments[claim.id] = []]
    then [all_assessments[claim.id].append(assessment)] *)
Definition append_assessment
    (all_assessments : gmap string (list AgentAssessment))
    (claim : Claim) (assessment : AgentAssessment)
    : gmap string (list AgentAssessment) :=
  match all_assessments !! Claim.id claim with
  | None => <[Claim.id claim := [assessment]]> all_assessments
  | Some l => <[Claim.id claim := l ++ [assessment]]> all_assessments
  end.

(** The loop [for agent in ALL_AGENTS].  The entry ["other_assessments"]
    of [context] is the dictionary [all_assessments] itself, not a copy:
    what an agent finds there is the dictionary as it is when the agent is
    called, so the context is rebuilt from the loop variable at each
    call. *)
Fixpoint stream_agents
    (agents : list BaseAgent) (claims : list Claim) (domain : string)
    (claim : Claim)
    (all_assessments : gmap string (list AgentAssessment))
    : M (gmap string (list AgentAssessment)) :=
  match agents with
  | [] => ret all_assessments
  | agent :: agents' =>
      let context :=
        Context.mk (other_claims_of claims claim) all_assessments domain in
      let* assessment := await_verify agent claim context in
      (* Emit agent quote event *)
      do yield_ (agent_quote claim assessment) in
      let all_assessments :=
        append_assessment all_assessments claim assessment in
      stream_agents agents' claims domain claim all_assessments
  end.

Definition risk_update (claim : Claim) (verification : ClaimVerification)
    : WSEvent :=
  WSEvent.mk RISK_UPDATE
    (RiskUpdateData (Claim.id claim)
       (ClaimVerification.risk_score verification)
       (Verdict_value (ClaimVerification.verdict verification))
       (RiskAction_value (ClaimVerification.action verification))
       (ClaimVerification.rationale verification)).

(** The loop [for claim_idx, claim in enumerate(claims)] of step 2. *)
Fixpoint stream_each
    (claims : list Claim) (domain : string) (todo : list Claim)
    (all_verifications : list ClaimVerification)
    (all_assessments : gmap string (list AgentAssessment))
    : M (list ClaimVerification * gmap string (list AgentAssessment)) :=
  match todo with
  | [] => ret (all_verifications, all_assessments)
  | claim :: todo' =>
      (* Run agents, stream each agent's result as it completes *)
      let* all_assessments :=
        stream_agents ALL_AGENTS claims domain claim all_assessments in
      (* Aggregate risk for this claim *)
      match all_assessments !! Claim.id claim with
      | None => raise "KeyError"
      | Some claim_assessments =>
          let verification :=
            aggregate_risk config claim claim_assessments in
          (* Emit risk update *)
          do yield_ (risk_update claim verification) in
          stream_each claims domain todo'
            (all_verifications ++ [verification]) all_assessments
      end
  end.

Definition claims_extracted (claims : list Claim) : WSEvent :=
  WSEvent.mk CLAIMS_EXTRACTED
    (ClaimsExtractedData
       (map (fun c => (Claim.id c, Claim.text c,
                       ClaimType_value (Claim.type c),
                       Severity_value (Claim.severity c))) claims)).

Definition settlement_event (session_id : string) (settlement : Settlement)
    (overall_action : RiskAction) : WSEvent :=
  WSEvent.mk SETTLEMENT
    (SettlementData session_id
       (Settlement.oracle settlement)
       (Settlement.confidence settlement)
       (Settlement.summary settlement)
       (Settlement.evidence_supporting settlement)
       (Settlement.evidence_contradicting settlement)
       (Settlement.evidence_neutral settlement)
       (Settlement.recommendation settlement)
       (RiskAction_value overall_action)).

(** The generator, driven to its end by a consumer that takes every event
    (as [async for] in [main.py] does): the events yielded are those of the
    final [World], and the outcome tells whether the generator returned or
    raised. *)
Definition run_verification_streaming (prompt response domain : string)
    : M unit :=
  let session_id := new_session_id in
  (* Emit session created *)
  do yield_ (WSEvent.mk SESSION_CREATED
               (SessionCreatedData session_id prompt)) in
  (* Step 1: Extract claims *)
  let* claims := await_extract_claims response domain in
  do yield_ (claims_extracted claims) in
  match claims with
  | [] =>
      do yield_ (WSEvent.mk ACTION
                   (ActionData "ALLOW" "No verifiable claims found.")) in
      ret tt
  | _ =>
      (* Step 2: Verify each claim *)
      let* r := stream_each claims domain claims [] ∅ in
      let all_verifications := fst r in
      (* Step 3: Overall action *)
      let overall_action := determine_overall_action all_verifications in
      (* Step 4: Settlement *)
      let* settlement :=
        await_settle session_id all_verifications overall_action in
      do yield_ (settlement_event session_id settlement overall_action) in
      ret tt
  end.

End orchestrator.

(** ** Concrete inputs used by the examples below *)

Module Demo.

Definition claim_of (id : string) (severity : Severity) : Claim :=
  Claim.mk id "Revenue grew 28% quarter-over-quarter" NUMERIC severity "".

Definition finding_of (relevance : Q) : Finding :=
  Finding.mk SUPPORTS "matches the filed report" "verified_claims" relevance.

Definition assessment_of (agent_name : string) (position : AgentSide)
    (confidence : Q) (findings : list Finding) : AgentAssessment :=
  AgentAssessment.mk agent_name "CLM-1" position confidence "summary"
    findings 0.

Definition verification_of (severity : Severity) (action : RiskAction)
    : ClaimVerification :=
  ClaimVerification.mk (claim_of "CLM-1" severity) 0.5 UNCERTAIN action ""
    [].

(** Three verifiers believe the claim true with confidence 0.9, each on
    one finding of relevance 0.9. *)
Definition unanimous_high_evidence : list AgentAssessment :=
  [assessment_of "NumericVerifier" LONG 0.9 [finding_of 0.9];
   assessment_of "RetrieverAgent" LONG 0.9 [finding_of 0.9];
   assessment_of "ConsistencyBot" LONG 0.9 [finding_of 0.9]].

(** One verifier believes the claim true, just below the allow floor of a
    claim of medium severity. *)
Definition just_below_allow : list AgentAssessment :=
  [assessment_of "NumericVerifier" LONG 0.79996 []].

(** Two verifiers agree that the claim is true, each half sure. *)
Definition unanimous_scenario : list AgentAssessment :=
  [assessment_of "NumericVerifier" LONG 0.5 [];
   assessment_of "RetrieverAgent" LONG 0.5 []].

(** One verifier is certain that the claim is true; the other believes it
    false with confidence 0.  The mean confidence is again one half. *)
Definition split_scenario : list AgentAssessment :=
  [assessment_of "NumericVerifier" LONG 1 [];
   assessment_of "RetrieverAgent" SHORT 0 []].

(** An agent that always answers with the same position and confidence. *)
Definition steady_agent (name : string) (position : AgentSide)
    (confidence : Q) : BaseAgent :=
  BaseAgent.mk name ""
    (fun claim _ =>
       Returned (AgentAssessment.mk name (Claim.id claim) position
                   confidence "summary" [] 0)).

(** An agent whose [verify] raises. *)
Definition failing_agent (name : string) : BaseAgent :=
  BaseAgent.mk name "" (fun _ _ => Raised "backend unreachable").

Definition settle_stub (session_id : string)
    (verifications : list ClaimVerification) (overall_action : RiskAction)
    : Settlement :=
  Settlement.mk session_id "Sphinx Reasoning Engine" 0.9 "summary" 0 0 0
    "Review required.".

(** Extraction that finds one claim per listed identifier. *)
Definition extract_ids (ids : list string) (response domain : string)
    : list Claim :=
  map (fun id => claim_of id HIGH) ids.

Definition agents_with_failure : list BaseAgent :=
  [steady_agent "NumericVerifier" LONG 0.9;
   failing_agent "RetrieverAgent";
   steady_agent "ConsistencyBot" LONG 0.9].

Definition agents_all_steady : list BaseAgent :=
  [steady_agent "NumericVerifier" LONG 0.9;
   steady_agent "RetrieverAgent" LONG 0.9;
   steady_agent "ConsistencyBot" LONG 0.9].

(** One claim, three agents, the second of which raises: the two modes. *)
Definition batch_with_failure : Outcome VerificationSession * World :=
  run_verification default_config (extract_ids ["CLM-1"])
    agents_with_failure settle_stub "SES-1" "prompt" "response" "finance"
    empty_world.

Definition streaming_with_failure : Outcome unit * World :=
  run_verification_streaming default_config (extract_ids ["CLM-1"])
    agents_with_failure settle_stub "SES-1" "prompt" "response" "finance"
    empty_world.

(** One claim, three agents that all answer: the two modes. *)
Definition batch_all_steady : Outcome VerificationSession * World :=
  run_verification default_config (extract_ids ["CLM-1"])
    agents_all_steady settle_stub "SES-1" "prompt" "response" "finance"
    empty_world.

Definition streaming_all_steady : Outcome unit * World :=
  run_verification_streaming default_config (extract_ids ["CLM-1"])
    agents_all_steady settle_stub "SES-1" "prompt" "response" "finance"
    empty_world.

End Demo.

(** ** The aggregation as the specification words it

    Used to compare the loop of [aggregate_risk] with the weighted mean the
    specification describes. *)

Module Spec.

(** The fixed reliability weight of a verifier. *)
Definition reliability (verifier : string) : Q :=
  if String.eqb verifier "NumericVerifier" then 1
  else if String.eqb verifier "RetrieverAgent" then 9 # 10
  else 8 # 10.

Fixpoint total (xs : list Q) : Q :=
  match xs with
  | [] => 0
  | x :: xs' => x + total xs'
  end.

Definition mean (xs : list Q) : Q :=
  total xs / inject_Z (Z.of_nat (length xs)).

(** 0.5 without findings, else between 0.7 and 1.0, linear in the mean
    relevance of the findings. *)
Definition evidence_quality (a : AgentAssessment) : Q :=
  if bool_decide (AgentAssessment.findings a = [])
  then 1 # 2
  else (7 # 10)
       + (3 # 10) * mean (map Finding.relevance (AgentAssessment.findings a)).

Definition weight (a : AgentAssessment) : Q :=
  reliability (AgentAssessment.agent_name a) * evidence_quality a.

(** The confidence if the verifier believes the claim true, one minus the
    confidence if it believes it false. *)
Definition truth_probability (a : AgentAssessment) : Q :=
  if bool_decide (AgentAssessment.position a = LONG)
  then AgentAssessment.confidence a
  else 1 - AgentAssessment.confidence a.

Definition weighted_mean (assessments : list AgentAssessment) : Q :=
  total (map (fun a => weight a * truth_probability a) assessments)
  / total (map weight assessments).

(** Severities from the most lenient to the strictest. *)
Definition severity_rank (s : Severity) : nat :=
  match s with LOW => 0 | MED => 1 | HIGH => 2 | CRITICAL => 3 end.

(** Actions from the most lenient to the strictest. *)
Definition action_rank (a : RiskAction) : nat :=
  match a with ALLOW => 0 | REWRITE => 1 | BLOCK => 2 end.

(** The mean of the confidences of a scenario. *)
Definition mean_confidence (assessments : list AgentAssessment) : Q :=
  mean (map AgentAssessment.confidence assessments).

(** How many assessments believe the claim true, and how many false. *)
Definition true_count (assessments : list AgentAssessment) : nat :=
  length (List.filter is_long assessments).

Definition false_count (assessments : list AgentAssessment) : nat :=
  length (List.filter is_short assessments).

(** How far a score is from 0.5. *)
Definition distance_to_half (score : Q) : Q := Qabs (score - (1 # 2)).

(** A blocked claim of critical or high severity. *)
Definition severe_blocked (v : ClaimVerification) : Prop :=
  ClaimVerification.action v = BLOCK
  /\ (Claim.severity (ClaimVerification.claim v) = CRITICAL
      \/ Claim.severity (ClaimVerification.claim v) = HIGH).

End Spec.

(** ** The sequencing contract as the specification words it *)

Module Sequencing.

(** The mapping [m] has entries only for the claims of [scored], and every
    assessment in it was returned by an agent for one of them. *)
Definition scored_only (agents : list BaseAgent) (scored : list Claim)
    (m : gmap string (list AgentAssessment)) : Prop :=
  forall (claim_id : string) (l : list AgentAssessment),
    m !! claim_id = Some l ->
    (exists c, In c scored /\ Claim.id c = claim_id)
    /\ forall a, In a l ->
         exists c agent context,
           In c scored /\ Claim.id c = claim_id
           /\ In agent agents
           /\ BaseAgent.verify agent c context = Returned a.

(** A call to an agent for the claim at some place of the sequence is in
    order when the context it is given holds assessments only of the
    claims before that place. *)
Definition call_in_order (agents : list BaseAgent) (claims : list Claim)
    (call : Call) : Prop :=
  match call with
  | CallVerify _ claim context =>
      exists before after,
        claims = before ++ claim :: after
        /\ scored_only agents before (Context.other_assessments context)
  | _ => True
  end.

(** The weaker contract: the context may also hold assessments of the claim
    being verified, but of no claim after it. *)
Definition call_not_ahead (agents : list BaseAgent) (claims : list Claim)
    (call : Call) : Prop :=
  match call with
  | CallVerify _ claim context =>
      exists before after,
        claims = before ++ claim :: after
        /\ scored_only agents (before ++ [claim])
             (Context.other_assessments context)
  | _ => True
  end.

(** The verification [v] of [claim] is built from exactly the assessments
    the agents returned, in the order of the agents; an agent that raised
    contributes nothing. *)
Definition built_from_returned (agents : list BaseAgent) (claim : Claim)
    (v : ClaimVerification) : Prop :=
  ClaimVerification.claim v = claim
  /\ exists context,
       ClaimVerification.assessments v
       = omap (fun agent =>
                 match BaseAgent.verify agent claim context with
                 | Returned a => Some a
                 | Raised _ => None
                 end) agents.

End Sequencing.

(** * The collaborators: settlement, agents, extraction *)

(** ** Python text primitives

    Substring tests and counting are modelled on [string].  Case folding,
    splitting on white space, the text of a float and the regular
    expressions depend on Unicode tables and on the [re] engine; they are
    parameters of the functions that use them, so that what is proved holds
    for whatever they compute. *)

(** [needle in haystack] on strings. *)
Fixpoint contains (needle haystack : string) : bool :=
  String.prefix needle haystack
  || match haystack with
     | EmptyString => false
     | String _ rest => contains needle rest
     end.

(** [any(word in text for word in words)] *)
Definition contains_any (words : list string) (text : string) : bool :=
  existsb (fun word => contains word text) words.

(** [max(a, b)] on numbers: the first of the largest arguments. *)
Definition max_ (a b : Q) : Q := if gt_ b a then b else a.

(** [abs(x)] *)
Definition abs_ (x : Q) : Q := Qabs x.

(** An integer used as a number. *)
Definition of_nat_ (n : nat) : Q := inject_Z (Z.of_nat n).

(** [xs[:n]] on lists. *)
Definition take_ {A} (n : nat) (xs : list A) : list A := firstn n xs.

(** The character of the digit zero. *)
Definition digit_zero : Ascii.ascii :=
  Ascii.Ascii false false false false true true false false.

(** The digits of [n], padded with zeros to at least [width] characters:
    the format [{n:0<width>d}] for [n >= 0]. *)
Fixpoint zeros (k : nat) : string :=
  match k with
  | O => ""
  | S k' => ("0" +:+ zeros k')%string
  end.

Definition format_0d (width : nat) (n : nat) : string :=
  let digits := pretty n in
  (zeros (width - String.length digits) +:+ digits)%string.

(** The format [{x:.2f}] for [x >= 0]. *)
Definition format_2f (x : Q) : string :=
  let n := round_half_even (x * 100) in
  (pretty (n / 100)%Z +:+ "." +:+ format_0d 2 (Z.to_nat (n mod 100)))%string.

(** The text primitives that stay parameters. *)
Record PyText := {
  str_lower : string -> string;        (* s.lower() *)
  str_split : string -> list string;   (* s.split() *)
  str_strip : string -> string;        (* s.strip() *)
  float_str : Q -> string;             (* str(x) for a float x *)
}.

#[export] Instance FindingType_eq_dec : EqDecision FindingType.
Proof. solve_decision. Defined.

#[export] Instance ClaimType_eq_dec : EqDecision ClaimType.
Proof. solve_decision. Defined.

(** The checks of the constructors [Finding(...)] and
    [AgentAssessment(...)]: a relevance or a confidence outside [0,1] raises
    a validation error where the object is built. *)
Definition wf_findingb (f : Finding) : bool :=
  Qle_bool 0 (Finding.relevance f) && Qle_bool (Finding.relevance f) 1.

Definition wf_assessmentb (a : AgentAssessment) : bool :=
  Qle_bool 0 (AgentAssessment.confidence a)
  && Qle_bool (AgentAssessment.confidence a) 1
  && forallb wf_findingb (AgentAssessment.findings a).

Definition validated (a : AgentAssessment) : Outcome AgentAssessment :=
  if wf_assessmentb a then Returned a else Raised "ValidationError".

(** ** services/sphinx_oracle.py *)

(** What the reasoning service answers: the fields of the reply that
    [_settle_sphinx] reads, each present or absent. *)
Module SphinxReply.
Record t := mk {
  confidence : option Q;
  summary : option string;
  supporting : option Z;
  contradicting : option Z;
  neutral : option Z;
  recommendation : option string;
}.
End SphinxReply.
Abbreviation SphinxReply := SphinxReply.t.

(** The three counters [(total_supporting, total_contradicting,
    total_neutral)] and the body of the innermost loop. *)
Definition tally_finding (acc : nat * nat * nat) (f : Finding)
    : nat * nat * nat :=
  let '(total_supporting, total_contradicting, total_neutral) := acc in
  if in_ (Finding.type f) [CONFIRMED; SUPPORTS; CONSISTENT]
  then (S total_supporting, total_contradicting, total_neutral)
  else if in_ (Finding.type f) [CONTRADICTION; NOT_FOUND; INCONSISTENCY]
  then (total_supporting, S total_contradicting, total_neutral)
  else if in_ (Finding.type f) [FLAG; PATTERN]
  then (total_supporting, total_contradicting, S total_neutral)
  else acc.

Definition tally_assessment (acc : nat * nat * nat) (a : AgentAssessment)
    : nat * nat * nat :=
  fold_left tally_finding (AgentAssessment.findings a) acc.

Definition tally_verification (acc : nat * nat * nat) (v : ClaimVerification)
    : nat * nat * nat :=
  fold_left tally_assessment (ClaimVerification.assessments v) acc.

(** Count evidence across all verifications. *)
Definition tally_evidence (verifications : list ClaimVerification)
    : nat * nat * nat :=
  fold_left tally_verification verifications (0, 0, 0)%nat.

Definition has_verdict (verdict : Verdict) (v : ClaimVerification) : bool :=
  bool_decide (ClaimVerification.verdict v = verdict).

Definition nonempty {A} (xs : list A) : bool :=
  match xs with [] => false | _ => true end.

(** Generate settlement from agent assessment data (demo mode). *)
Definition _settle_local (session_id : string)
    (verifications : list ClaimVerification) (overall_action : RiskAction)
    : Settlement :=
  let '(total_supporting, total_contradicting, total_neutral) :=
    tally_evidence verifications in
  (* Count claim verdicts *)
  let false_claims := List.filter (has_verdict FALSE) verifications in
  let true_claims := List.filter (has_verdict TRUE) verifications in
  let uncertain_claims := List.filter (has_verdict UNCERTAIN) verifications in
  let total := length verifications in
  (* Build summary *)
  let '(summary, confidence) :=
    if nonempty false_claims && negb (nonempty true_claims) then
      ("All " +:+ pretty total +:+ " claims failed verification. "
       +:+ "Found " +:+ pretty total_contradicting
       +:+ " pieces of contradicting evidence across all agents. "
       +:+ "No supporting evidence found for any claim.",
       0.95)
    else if nonempty false_claims then
      let false_texts :=
        map (fun v => prefix_ 50 (Claim.text (ClaimVerification.claim v)))
          (take_ 3 false_claims) in
      (pretty (length false_claims) +:+ " of " +:+ pretty total
       +:+ " claims are FALSE. "
       +:+ pretty (length true_claims) +:+ " claim(s) verified TRUE. "
       +:+ "Failed claims: " +:+ join "; " false_texts +:+ ".",
       0.90)
    else if nonempty true_claims && (length true_claims =? total)%nat then
      ("All " +:+ pretty total +:+ " claims verified TRUE with "
       +:+ pretty total_supporting +:+ " corroborating sources. "
       +:+ "No contradicting evidence found.",
       0.97)
    else
      (pretty (length uncertain_claims) +:+ " claim(s) require further review. "
       +:+ pretty (length true_claims) +:+ " verified, "
       +:+ pretty (length false_claims) +:+ " failed.",
       0.75) in
  (* Build recommendation *)
  let recommendation :=
    match overall_action with
    | BLOCK =>
        "Block output entirely. "
        +:+ (if nonempty false_claims then
               "Rewrite the following claims with verified data: "
               +:+ join "; "
                     (map (fun v =>
                             prefix_ 60 (Claim.text (ClaimVerification.claim v)))
                        (take_ 3 false_claims))
               +:+ ". Flag session for human review."
             else "")
    | REWRITE =>
        "Rewrite flagged claims with verified data before delivering to user. "
        +:+ (if nonempty uncertain_claims then
               pretty (length uncertain_claims)
               +:+ " claim(s) need manual verification."
             else "")
    | ALLOW =>
        "Allow output. All claims passed verification. No modifications needed."
    end in
  Settlement.mk session_id "Sphinx Reasoning Engine" (round_ confidence 2)
    summary (Z.of_nat total_supporting) (Z.of_nat total_contradicting)
    (Z.of_nat total_neutral) recommendation.

Section sphinx_oracle.

(** [config.DEMO_MODE] and [config.SPHINX_API_KEY]. *)
Variable DEMO_MODE : bool.
Variable SPHINX_API_KEY : string.

(** The request to the reasoning service and the reading of its answer:
    [Raised] stands for everything the [try] block can raise (no connection,
    time-out, an answer that is not a JSON object, a field of the wrong
    type). *)
Variable sphinx_reason :
  string -> list ClaimVerification -> RiskAction -> Outcome SphinxReply.

(** Call Sphinx AI API for settlement adjudication. *)
Definition _settle_sphinx (session_id : string)
    (verifications : list ClaimVerification) (overall_action : RiskAction)
    : Settlement :=
  match sphinx_reason session_id verifications overall_action with
  | Returned data =>
      Settlement.mk session_id "Sphinx Reasoning Engine"
        (default 0.90 (SphinxReply.confidence data))
        (default "Settlement produced by Sphinx."%string
           (SphinxReply.summary data))
        (default 0%Z (SphinxReply.supporting data))
        (default 0%Z (SphinxReply.contradicting data))
        (default 0%Z (SphinxReply.neutral data))
        (default "Review required."%string (SphinxReply.recommendation data))
  | Raised _ =>
      (* falling back to local settlement *)
      _settle_local session_id verifications overall_action
  end.

(** Produce a settlement report for the entire verification session. *)
Definition settle (session_id : string)
    (verifications : list ClaimVerification) (overall_action : RiskAction)
    : Settlement :=
  (* Try Sphinx API first *)
  if negb DEMO_MODE && negb (String.eqb SPHINX_API_KEY "") then
    _settle_sphinx session_id verifications overall_action
  else
    (* Demo mode: generate from assessment data *)
    _settle_local session_id verifications overall_action.

End sphinx_oracle.

(** ** agents/consistency_bot.py *)

Section consistency_bot.

Variable T : PyText.

(** [ConsistencyBot._extract_numbers]: the numbers with their units that
    two regular expressions find in the text. *)
Variable consistency_numbers : string -> list (Q * string).

(** [re.findall] of the pattern for capitalised words in
    [_shared_entities]. *)
Variable capitalised_words : string -> list string.

(** The latency measured by [_timed_assessment]. *)
Variable latency_ms : Q.

(** Check if two texts share proper noun entities. *)
Definition _shared_entities (text_a text_b : string) : bool :=
  let words_a : gset string := list_to_set (capitalised_words text_a) in
  let words_b : gset string := list_to_set (capitalised_words text_b) in
  negb (bool_decide (words_a ∩ words_b = ∅)).

(** [sum(1 for a in assessments if a.position == AgentSide.SHORT)] *)
Definition short_votes (assessments : list AgentAssessment) : nat :=
  length (List.filter is_short assessments).

(** Check if this claim depends on another that's been flagged. *)
Definition _check_dependencies (claim : Claim) (other_claims : list Claim)
    (other_assessments : gmap string (list AgentAssessment))
    : list Finding :=
  flat_map
    (fun oc =>
       if bool_decide (Claim.id oc = Claim.id claim) then []
       else if negb (_shared_entities (Claim.text claim) (Claim.text oc))
       then []
       else
         (* If the other claim has been assessed as SHORT by other agents *)
         let assessments := default [] (other_assessments !! Claim.id oc) in
         let short_count := short_votes assessments in
         if (2 <=? short_count)%nat then  (* majority short *)
           [Finding.mk INCONSISTENCY
              ("This claim depends on " +:+ Claim.id oc +:+ " ('"
               +:+ prefix_ 60 (Claim.text oc) +:+ "...') which "
               +:+ pretty short_count
               +:+ "/3 verifiers flagged as false. If that claim fails, this one is unreliable.")
              "Cross-claim dependency analysis" 0.90]
         else [])
    other_claims.

(** Check arithmetic consistency across numeric claims. *)
Definition _check_arithmetic (claim : Claim) (other_claims : list Claim)
    : list Finding :=
  if negb (bool_decide (Claim.type claim = NUMERIC)) then []
  else
    let claim_nums := consistency_numbers (Claim.text claim) in
    let claim_lower := str_lower T (Claim.text claim) in
    flat_map
      (fun oc =>
         if bool_decide (Claim.id oc = Claim.id claim)
            || negb (bool_decide (Claim.type oc = NUMERIC))
         then []
         else
           let oc_nums := consistency_numbers (Claim.text oc) in
           let oc_lower := str_lower T (Claim.text oc) in
           (* Check revenue + margin consistency *)
           if contains "margin" claim_lower && contains "revenue" oc_lower then
             if nonempty claim_nums && nonempty oc_nums then
               [Finding.mk FLAG
                  ("Margin claim (" +:+ Claim.text claim
                   +:+ ") should be arithmetically consistent with revenue claim ("
                   +:+ Claim.text oc +:+ "). Cross-checking COGS data.")
                  "Cross-claim arithmetic validation" 0.85]
             else []
           else if contains "revenue" claim_lower && contains "margin" oc_lower
           then
             match claim_nums, oc_nums with
             | (first, _) :: _, _ :: _ =>
                 [Finding.mk FLAG
                    ("Revenue growth of " +:+ float_str T first
                     +:+ "% implies specific margin ranges. Checking against "
                     +:+ Claim.text oc +:+ ".")
                    "Cross-claim arithmetic validation" 0.85]
             | _, _ => []
             end
           else [])
      other_claims.

(** Check if case law claims form a coherent chain of authority. *)
Definition _check_legal_consistency (claim : Claim) (other_claims : list Claim)
    : list Finding :=
  (* Look for other case law claims *)
  let other_cases :=
    List.filter
      (fun c => bool_decide (Claim.type c = CASE_LAW)
                && negb (bool_decide (Claim.id c = Claim.id claim)))
      other_claims in
  let claim_lower := str_lower T (Claim.text claim) in
  flat_map
    (fun oc =>
       (* Check for "extended" or "building on" language *)
       if contains_any ["extend"; "built on"; "following"; "consistent with"]
            claim_lower
       then
         [Finding.mk INCONSISTENCY
            ("This claim appears to extend " +:+ Claim.id oc +:+ ". If "
             +:+ Claim.id oc
             +:+ " is fabricated, this entire chain of authority is fictional.")
            "Cross-claim dependency analysis" 0.92]
       else [])
    other_cases.

Definition generalization_phrases : list string :=
  ["consistently upheld"; "universally recognized"; "well-established across";
   "uniformly applied"; "all circuits"; "every jurisdiction"].

(** The loop over the phrases: it stops at the first one found. *)
Fixpoint first_generalization (phrases : list string) (claim_lower : string)
    : list Finding :=
  match phrases with
  | [] => []
  | phrase :: phrases' =>
      if contains phrase claim_lower then
        [Finding.mk FLAG
           ("Sweeping generalization detected ('" +:+ phrase
            +:+ "'). Legal claims of universal consensus are almost always overstatements. Circuit splits are common.")
           "Legal reasoning analysis" 0.78]
      else first_generalization phrases' claim_lower
  end.

(** Flag sweeping legal generalizations. *)
Definition _check_generalizations (claim : Claim) : list Finding :=
  first_generalization generalization_phrases (str_lower T (Claim.text claim)).

(** [sum(1 for f in findings if f.type in types)] *)
Definition count_types (types : list FindingType) (findings : list Finding)
    : nat :=
  length (List.filter (fun f => in_ (Finding.type f) types) findings).

(** The findings of the four checks, in the order [verify] collects them. *)
Definition consistency_findings (claim : Claim) (context : Context)
    : list Finding :=
  let other_claims := Context.other_claims context in
  let other_assessments := Context.other_assessments context in
  (* 1. Check if this claim depends on another claim that's already flagged *)
  _check_dependencies claim other_claims other_assessments
  (* 2. Check arithmetic consistency across claims *)
  ++ _check_arithmetic claim other_claims
  (* 3. Check for case law consistency *)
  ++ (if bool_decide (Claim.type claim = CASE_LAW)
      then _check_legal_consistency claim other_claims else [])
  (* 4. Check for sweeping generalizations *)
  ++ (if bool_decide (Claim.type claim = LEGAL)
      then _check_generalizations claim else []).

(** The assessment [ConsistencyBot.verify] hands to the constructor. *)
Definition consistency_assessment (claim : Claim) (context : Context)
    : AgentAssessment :=
  let findings := consistency_findings claim context in
  (* Score *)
  let inconsistencies := count_types [INCONSISTENCY; CONTRADICTION] findings in
  let flags := count_types [FLAG] findings in
  if (0 <? inconsistencies)%nat then
    AgentAssessment.mk "ConsistencyBot" (Claim.id claim) SHORT
      (min_ 0.95 (0.65 + of_nat_ inconsistencies * 0.12))
      ("Found " +:+ pretty inconsistencies +:+ " cross-claim inconsistency(s).")
      findings latency_ms
  else if (0 <? flags)%nat then
    AgentAssessment.mk "ConsistencyBot" (Claim.id claim) SHORT
      (min_ 0.80 (0.50 + of_nat_ flags * 0.10))
      ("Found " +:+ pretty flags +:+ " potential issue(s) requiring review.")
      findings latency_ms
  else
    AgentAssessment.mk "ConsistencyBot" (Claim.id claim) LONG 0.70
      "No cross-claim contradictions detected."
      (findings
       ++ [Finding.mk CONSISTENT
             "Claim is logically consistent with all other extracted claims."
             "Cross-claim consistency check" 0.80])
      latency_ms.

Definition ConsistencyBot_verify (claim : Claim) (context : Context)
    : Outcome AgentAssessment :=
  validated (consistency_assessment claim context).

Definition ConsistencyBot : BaseAgent :=
  BaseAgent.mk "ConsistencyBot" "Cross-claim logical consistency analysis"
    ConsistencyBot_verify.

End consistency_bot.

(** ** agents/numeric_verifier.py *)

Section numeric_verifier.

Variable T : PyText.

(** [NumericVerifier._extract_numbers]: the numbers with their units that
    four regular expressions find in the text. *)
Variable numeric_numbers : string -> list (Q * string).

(** The entry ["ground_truth"] of the context, when there is one, and in it
    the entry ["actual_pct"], when there is one.  The orchestrator builds
    contexts without it. *)
Variable ground_truth : option (option Q).

Variable latency_ms : Q.

(** The loop [for num, unit in numbers] that looks for red flags. *)
Definition red_flags (numbers : list (Q * string)) : list Finding :=
  flat_map
    (fun '(num, unit) =>
       (* Check for unusually large percentage claims *)
       (if String.eqb unit "%" && gt_ num 25 then
          [Finding.mk FLAG
             (float_str T num
              +:+ "% is unusually high. Historical norms for this metric type are typically 5-15%.")
             "Statistical anomaly detection" 0.84]
        else [])
       ++ (if in_ unit ["billion"; "B"; "bn"]%string && gt_ num 1 then
             [Finding.mk FLAG
                ("$" +:+ float_str T num
                 +:+ "B claim requires verification against SEC filings.")
                "SEC EDGAR cross-reference" 0.90]
           else []))
    numbers.

(** If the context provides ground truth, compare. *)
Definition ground_truth_findings (numbers : list (Q * string))
    : list Finding :=
  match ground_truth with
  | None => []
  | Some gt =>
      flat_map
        (fun '(num, unit) =>
           match gt with
           | Some actual =>
               if String.eqb unit "%" && gt_ (abs_ (num - actual)) 5 then
                 [Finding.mk CONTRADICTION
                    ("Claimed " +:+ float_str T num
                     +:+ "% but actual value is " +:+ float_str T actual
                     +:+ "% per SEC filing.")
                    "SEC EDGAR · 10-Q Filing" 0.97]
               else []
           | None => []
           end)
        numbers
  end.

(** The assessment the heuristic path of [NumericVerifier.verify] hands to
    the constructor (demo mode, or no key for a language model). *)
Definition numeric_assessment (claim : Claim) : AgentAssessment :=
  (* Extract numeric entities from the claim *)
  let numbers := numeric_numbers (Claim.text claim) in
  (* Case law claims: check if it looks like a real citation *)
  if bool_decide (Claim.type claim = CASE_LAW) then
    AgentAssessment.mk "NumericVerifier" (Claim.id claim) SHORT 0.94
      "No matching case found in any court database."
      [Finding.mk NOT_FOUND
         ("No case matching '" +:+ Claim.text claim
          +:+ "' found in indexed federal or state court databases.")
         "Federal & state court record database" 0.97]
      latency_ms
  else
    (* Numeric claims: check for red flags *)
    let findings :=
      if nonempty numbers
      then red_flags numbers ++ ground_truth_findings numbers
      else [] in
    (* Score based on findings *)
    let contradictions := count_types [CONTRADICTION; NOT_FOUND] findings in
    let flags := count_types [FLAG] findings in
    if (0 <? contradictions)%nat then
      AgentAssessment.mk "NumericVerifier" (Claim.id claim) SHORT
        (min_ 0.95 (0.70 + of_nat_ contradictions * 0.12))
        ("Found " +:+ pretty contradictions
         +:+ " contradiction(s) in structured data.")
        findings latency_ms
    else if (0 <? flags)%nat then
      AgentAssessment.mk "NumericVerifier" (Claim.id claim) SHORT
        (min_ 0.80 (0.50 + of_nat_ flags * 0.15))
        ("Found " +:+ pretty flags +:+ " flag(s) requiring verification.")
        findings latency_ms
    else
      (* moderate confidence without positive confirmation *)
      AgentAssessment.mk "NumericVerifier" (Claim.id claim) LONG 0.65
        "No contradictions found in available structured data."
        (findings
         ++ [Finding.mk CONFIRMED
               "No contradicting data found in indexed sources."
               "Structured data scan" 0.70])
        latency_ms.

Definition NumericVerifier_verify (claim : Claim) (context : Context)
    : Outcome AgentAssessment :=
  validated (numeric_assessment claim).

Definition NumericVerifier : BaseAgent :=
  BaseAgent.mk "NumericVerifier" "Structured data & numeric validation"
    NumericVerifier_verify.

End numeric_verifier.

(** ** agents/retriever_agent.py *)

(** The mock vector store for demo mode: the texts of the verified claims,
    the texts and patterns of the hallucination archive, the texts of the
    analyst data. *)
Definition MOCK_VERIFIED_CLAIMS : list string :=
  ["Acme Corp revenue grew 7.6% QoQ in Q3 2024";
   "NVIDIA Q4 FY2024 revenue was $22.1 billion";
   "NVIDIA data center revenue grew 409% year-over-year";
   "Acme Corp operating margins were approximately 30.8% in Q3"].

Definition MOCK_HALLUCINATION_ARCHIVE : list (string * string) :=
  [("Acme Corp revenue grew 32% QoQ", "inflated_growth");
   ("Harrison v. Mercy General Hospital (2019)", "phantom_citation");
   ("Thompson v. Regional Medical Center (2021)", "phantom_citation");
   ("Smith v. County Hospital (2020) established absolute privilege",
    "phantom_citation")]%string.

Definition MOCK_ANALYST_DATA : list string :=
  ["Analyst consensus for Acme Corp Q3 growth: 6-9% QoQ";
   "14 sell-side analysts modeled Acme growth below 15%";
   "NVIDIA Q4 beat consensus of $20.4B by 8.3%"].

Section retriever_agent.

Variable T : PyText.

(** The numbers that the pattern for decimals finds in a text, in
    [_claims_agree]. *)
Variable decimal_numbers : string -> list Q.

Variable latency_ms : Q.

(** The set of the words of a text: [set(a.lower().split())]. *)
Definition words_of (s : string) : gset string :=
  list_to_set (str_split T (str_lower T s)).

(** Simple word-overlap similarity for demo mode. *)
Definition _mock_similarity (a b : string) : Q :=
  let words_a := words_of a in
  let words_b := words_of b in
  if bool_decide (words_a = ∅) || bool_decide (words_b = ∅) then 0
  else
    let overlap := size (words_a ∩ words_b) in
    of_nat_ overlap / of_nat_ (Nat.max (size words_a) (size words_b)).

(** Heuristic: do these two claims say similar or contradictory things? *)
Definition _claims_agree (claim_text verified_text : string) : bool :=
  match decimal_numbers claim_text, decimal_numbers verified_text with
  | claim_num :: _, verified_num :: _ =>
      (* If the primary numbers are close, they agree *)
      gt_ 0.15 (abs_ (claim_num - verified_num) / max_ verified_num 1)
  | _, _ =>
      (* If no numbers, check keyword overlap *)
      gt_ (_mock_similarity claim_text verified_text) 0.5
  end.

(** The state of the three loops of [_verify_mock]:
    [(findings, supporting, contradicting)]. *)
Definition check_verified (claim : Claim)
    (acc : list Finding * nat * nat) (vc : string)
    : list Finding * nat * nat :=
  let '(findings, supporting, contradicting) := acc in
  let sim := _mock_similarity (Claim.text claim) vc in
  if gt_ sim 0.3 then
    (* Check if the verified claim supports or contradicts *)
    if _claims_agree (Claim.text claim) vc then
      (findings
       ++ [Finding.mk SUPPORTS
             ("Nearest verified claim: '" +:+ vc +:+ "' (similarity: "
              +:+ format_2f sim +:+ ")")
             "Actian VectorAI · Verified Claims Index"
             (min_ 0.99 (sim + 0.2))],
       S supporting, contradicting)
    else
      (findings
       ++ [Finding.mk CONTRADICTION
             ("Contradicting verified claim: '" +:+ vc +:+ "' (similarity: "
              +:+ format_2f sim +:+ ")")
             "Actian VectorAI · Verified Claims Index"
             (min_ 0.99 (sim + 0.2))],
       supporting, S contradicting)
  else acc.

Definition check_archive (claim : Claim)
    (acc : list Finding * nat * nat) (ha : string * string)
    : list Finding * nat * nat :=
  let '(findings, supporting, contradicting) := acc in
  let sim := _mock_similarity (Claim.text claim) (fst ha) in
  if gt_ sim 0.35 then
    (findings
     ++ [Finding.mk PATTERN
           ("Hallucination pattern match: '" +:+ fst ha +:+ "' (pattern: "
            +:+ snd ha +:+ ")")
           "Actian VectorAI · Hallucination Archive"
           (min_ 0.95 (sim + 0.15))],
     supporting, S contradicting)
  else acc.

Definition check_analyst (claim : Claim)
    (acc : list Finding * nat * nat) (ad : string)
    : list Finding * nat * nat :=
  let '(findings, supporting, contradicting) := acc in
  let sim := _mock_similarity (Claim.text claim) ad in
  if gt_ sim 0.25 then
    (findings
     ++ [Finding.mk
           (if (contradicting <? supporting)%nat then SUPPORTS
            else CONTRADICTION)
           ("Analyst data: '" +:+ ad +:+ "'")
           "Actian VectorAI · Analyst Reports Index"
           (min_ 0.92 (sim + 0.15))],
     supporting, contradicting)
  else acc.

(** No matches at all. *)
Definition check_no_match (claim : Claim) (acc : list Finding * nat * nat)
    : list Finding * nat * nat :=
  let '(findings, supporting, contradicting) := acc in
  if nonempty findings then acc
  else if bool_decide (Claim.type claim = CASE_LAW) then
    ([Finding.mk NOT_FOUND
        "No matching case law found in any indexed legal database."
        "Actian VectorAI · Case Law Index" 0.90],
     supporting, S contradicting)
  else
    ([Finding.mk FLAG
        "No similar claims found in evidence index. Unable to corroborate."
        "Actian VectorAI · Full Index" 0.50],
     supporting, contradicting).

(** The evidence [_verify_mock] collects. *)
Definition mock_evidence (claim : Claim) : list Finding * nat * nat :=
  let acc := ([], 0, 0)%nat in
  (* Check against verified claims *)
  let acc := fold_left (check_verified claim) MOCK_VERIFIED_CLAIMS acc in
  (* Check hallucination archive *)
  let acc := fold_left (check_archive claim) MOCK_HALLUCINATION_ARCHIVE acc in
  (* Check analyst data *)
  let acc := fold_left (check_analyst claim) MOCK_ANALYST_DATA acc in
  check_no_match claim acc.

(** The assessment [_verify_mock] hands to the constructor. *)
Definition mock_assessment (claim : Claim) : AgentAssessment :=
  let '(findings, supporting, contradicting) := mock_evidence claim in
  if (supporting <? contradicting)%nat then
    AgentAssessment.mk "RetrieverAgent" (Claim.id claim) SHORT
      (min_ 0.95 (0.55 + of_nat_ contradicting * 0.12))
      (pretty contradicting +:+ " contradicting doc(s). "
       +:+ pretty supporting +:+ " supporting.")
      findings latency_ms
  else if (0 <? supporting)%nat then
    AgentAssessment.mk "RetrieverAgent" (Claim.id claim) LONG
      (min_ 0.95 (0.55 + of_nat_ supporting * 0.10))
      (pretty supporting +:+ " corroborating source(s). "
       +:+ pretty contradicting +:+ " contradicting.")
      findings latency_ms
  else
    AgentAssessment.mk "RetrieverAgent" (Claim.id claim) SHORT 0.55
      "Insufficient evidence to corroborate claim."
      findings latency_ms.

(** [RetrieverAgent.verify] in demo mode, where there is no connection to
    the vector database. *)
Definition RetrieverAgent_verify (claim : Claim) (context : Context)
    : Outcome AgentAssessment :=
  validated (mock_assessment claim).

Definition RetrieverAgent : BaseAgent :=
  BaseAgent.mk "RetrieverAgent" "Semantic evidence retrieval via Actian VectorAI"
    RetrieverAgent_verify.

End retriever_agent.

(** ** agents/__init__.py, in demo mode *)

Section all_agents.

Variable T : PyText.
Variable numeric_numbers : string -> list (Q * string).
Variable decimal_numbers : string -> list Q.
Variable consistency_numbers : string -> list (Q * string).
Variable capitalised_words : string -> list string.

(** The latencies measured by the three agents. *)
Variables numeric_latency retriever_latency consistency_latency : Q.

Definition DEMO_AGENTS : list BaseAgent :=
  [NumericVerifier T numeric_numbers None numeric_latency;
   RetrieverAgent T decimal_numbers retriever_latency;
   ConsistencyBot T consistency_numbers capitalised_words consistency_latency].

End all_agents.

(** ** services/claim_extractor.py *)

Definition EVENT_KEYWORDS : list string :=
  ["announced"; "launched"; "acquired"; "merged"; "filed"; "settled";
   "signed"; "approved"].

(** The identifier of the [n]-th claim. *)
Definition claim_id_of (n : nat) : string := ("CLM-" +:+ format_0d 3 n)%string.

Section claim_extractor.

Variable T : PyText.

(** The sentences of the response: the split at white space that follows a
    full stop, an exclamation mark or a question mark. *)
Variable sentences : string -> list string.

(** The searches of the regular expressions in a sentence: a case-law
    citation; one of the numeric patterns; the number of the first
    percentage, when there is one; an amount in billions of dollars; two
    capitalised words in a row. *)
Variable case_law_match : string -> bool.
Variable numeric_match : string -> bool.
Variable pct_match : string -> option Q.
Variable dollar_match : string -> bool.
Variable entity_match : string -> bool.

(** The chain of tests on one sentence: the type and the severity of its
    claim, when it holds one. *)
Definition classify (sent : string) : option (ClaimType * Severity) :=
  let severity := MED in
  (* Check for case law citations *)
  if case_law_match sent then Some (CASE_LAW, CRITICAL)
  (* Check for numeric claims *)
  else if numeric_match sent then
    (* Higher severity for larger numbers or percentages > 20% *)
    let severity :=
      match pct_match sent with
      | Some pct => if gt_ pct 20 then HIGH else severity
      | None => severity
      end in
    let severity := if dollar_match sent then HIGH else severity in
    Some (NUMERIC, severity)
  (* Check for event claims *)
  else if contains_any EVENT_KEYWORDS (str_lower T sent) then
    Some (EVENT, HIGH)
  (* Entity claims (contains proper nouns) *)
  else if entity_match sent then Some (ENTITY, LOW)
  else None.

(** The loop [for sent in sentences], with its counter [claim_idx] and the
    list [claims] it appends to. *)
Fixpoint rules_loop (todo : list string) (claim_idx : nat)
    (claims : list Claim) : list Claim :=
  match todo with
  | [] => claims
  | sent :: todo' =>
      let sent := str_strip T sent in
      if (String.length sent <? 15)%nat then rules_loop todo' claim_idx claims
      else
        match classify sent with
        | Some (claim_type, severity) =>
            let claim_idx := (claim_idx + 1)%nat in
            rules_loop todo' claim_idx
              (claims ++ [Claim.mk (claim_id_of claim_idx) sent claim_type
                            severity sent])
        | None => rules_loop todo' claim_idx claims
        end
  end.

(** Rule-based fallback claim extraction using regex patterns. *)
Definition extract_claims_rules (response_text domain : string)
    : list Claim :=
  rules_loop (sentences response_text) 0 [].

(** An element of the parsed reply of the language model. *)
Variable ClaimData : Type.

(** The reply of the configured provider, parsed as JSON: [None] when no
    provider is configured with its key; [Raised] when the request, the
    access to the text of the reply or the parsing raises. *)
Variable llm_reply : string -> string -> option (Outcome (list ClaimData)).

(** The arguments of [Claim] read from one element [cd]: [cd["text"]],
    [ClaimType(cd.get("type", "NUMERIC"))],
    [Severity(cd.get("severity", "MED"))] and
    [cd.get("source_text", cd["text"])], with the validation of [Claim]; a
    missing text, an unknown type or severity, or a value of the wrong kind
    raises. *)
Variable claim_fields :
  ClaimData -> Outcome (string * ClaimType * Severity * string).

(** The loop [for i, cd in enumerate(claims_data)]. *)
Fixpoint llm_loop (claims_data : list ClaimData) (i : nat)
    (claims : list Claim) : Outcome (list Claim) :=
  match claims_data with
  | [] => Returned claims
  | cd :: claims_data' =>
      match claim_fields cd with
      | Raised e => Raised e
      | Returned (text, type, severity, source_text) =>
          llm_loop claims_data' (S i)
            (claims ++ [Claim.mk (claim_id_of (i + 1)) text type severity
                          source_text])
      end
  end.

(** Extract claims using an LLM API call; whatever raises inside the [try]
    block falls back to the rules. *)
Definition extract_claims_llm (response_text domain : string) : list Claim :=
  match llm_reply response_text domain with
  | None => extract_claims_rules response_text domain
  | Some (Raised _) => extract_claims_rules response_text domain
  | Some (Returned claims_data) =>
      match llm_loop claims_data 0 [] with
      | Returned claims => claims
      | Raised _ => extract_claims_rules response_text domain
      end
  end.

Variable DEMO_MODE : bool.

(** Main entry point: tries LLM first, falls back to rules. *)
Definition extract_claims (response_text domain : string) : list Claim :=
  if DEMO_MODE then extract_claims_rules response_text domain
  else extract_claims_llm response_text domain.

End claim_extractor.

(** What the rules allow for a claim: its type with its severity. *)
Definition rule_pair (c : Claim) : Prop :=
  (Claim.type c = CASE_LAW /\ Claim.severity c = CRITICAL)
  \/ (Claim.type c = NUMERIC
      /\ (Claim.severity c = HIGH \/ Claim.severity c = MED))
  \/ (Claim.type c = EVENT /\ Claim.severity c = HIGH)
  \/ (Claim.type c = ENTITY /\ Claim.severity c = LOW).

(** ** Counting evidence, as a specification *)

(** All the findings of a list of verifications, in the order the loops of
    [_settle_local] visit them. *)
Definition all_findings (verifications : list ClaimVerification)
    : list Finding :=
  flat_map
    (fun v => flat_map AgentAssessment.findings
                (ClaimVerification.assessments v))
    verifications.

Definition counters_of (findings : list Finding) : nat * nat * nat :=
  (count_types [CONFIRMED; SUPPORTS; CONSISTENT] findings,
   count_types [CONTRADICTION; NOT_FOUND; INCONSISTENCY] findings,
   count_types [FLAG; PATTERN] findings).

Definition add3 (x y : nat * nat * nat) : nat * nat * nat :=
  let '(a, b, c) := x in
  let '(a', b', c') := y in
  (a + a', b + b', c + c')%nat.

(** A finding raised by a check: an inconsistency, a contradiction or a flag,
    with a valid relevance. *)
Definition raised_finding (f : Finding) : Prop :=
  (Finding.type f = INCONSISTENCY \/ Finding.type f = CONTRADICTION
   \/ Finding.type f = FLAG)
  /\ wf_finding f.

(** A finding of the numeric verifier's checks: a flag or a contradiction,
    with a valid relevance. *)
Definition numeric_finding (f : Finding) : Prop :=
  (Finding.type f = FLAG \/ Finding.type f = CONTRADICTION)
  /\ wf_finding f.

(** What the loops of [_verify_mock] keep true of
    [(findings, supporting, contradicting)]: the findings are valid, and a
    positive count of supporting documents comes with a SUPPORTS finding. *)
Definition evidence_ok (acc : list Finding * nat * nat) : Prop :=
  Forall wf_finding (fst (fst acc))
  /\ ((0 < snd (fst acc))%nat ->
      exists f, In f (fst (fst acc)) /\ Finding.type f = SUPPORTS).

(** ** Agents that always answer, and the two modes as functions *)

Module Modes.

(** The agent answers every call with an assessment. *)
Definition answers (agent : BaseAgent) : Prop :=
  forall claim context,
    exists a, BaseAgent.verify agent claim context = Returned a.

(** The agent answers every call with a valid assessment made out in its
    own name for the claim it was given. *)
Definition reliable (agent : BaseAgent) : Prop :=
  forall claim context,
    exists a,
      BaseAgent.verify agent claim context = Returned a
      /\ wf_assessment a
      /\ AgentAssessment.claim_id a = Claim.id claim
      /\ AgentAssessment.agent_name a = BaseAgent.name agent.

(** The agent's answer for a claim does not depend on what the accumulated
    assessments hold under the identifier of that claim. *)
Definition own_entry_blind (agent : BaseAgent) : Prop :=
  forall claim other_claims domain
         (m : gmap string (list AgentAssessment)) (l : list AgentAssessment),
    BaseAgent.verify agent claim
      (Context.mk other_claims (<[Claim.id claim := l]> m) domain)
    = BaseAgent.verify agent claim (Context.mk other_claims m domain).

(** The batch loop over the claims without its effects: the verifications
    and the accumulated assessments it ends with. *)
Fixpoint score_each (config : Config) (agents : list BaseAgent)
    (claims : list Claim) (domain : string) (todo : list Claim)
    (all_verifications : list ClaimVerification)
    (all_assessments : gmap string (list AgentAssessment))
    : list ClaimVerification * gmap string (list AgentAssessment) :=
  match todo with
  | [] => (all_verifications, all_assessments)
  | claim :: todo' =>
      let context :=
        Context.mk (other_claims_of claims claim) all_assessments domain in
      let valid_assessments :=
        filter_valid
          (map (fun agent => BaseAgent.verify agent claim context) agents) in
      score_each config agents claims domain todo'
        (all_verifications ++ [aggregate_risk config claim valid_assessments])
        (<[Claim.id claim := valid_assessments]> all_assessments)
  end.

(** The verification [v] of [claim] holds one valid assessment per agent, in
    the order of the agents, each in the name of its agent and for this
    claim, and a risk score that [ClaimVerification] accepts. *)
Definition well_scored (agents : list BaseAgent) (claim : Claim)
    (v : ClaimVerification) : Prop :=
  ClaimVerification.claim v = claim
  /\ map AgentAssessment.agent_name (ClaimVerification.assessments v)
     = map BaseAgent.name agents
  /\ Forall (fun a => wf_assessment a
                      /\ AgentAssessment.claim_id a = Claim.id claim)
       (ClaimVerification.assessments v)
  /\ 0 <= ClaimVerification.risk_score v
  /\ ClaimVerification.risk_score v <= 1.

(** The events streamed for one scored claim: one quote per assessment,
    then the risk update. *)
Definition events_of_verification (v : ClaimVerification) : list WSEvent :=
  map (agent_quote (ClaimVerification.claim v))
    (ClaimVerification.assessments v)
  ++ [risk_update (ClaimVerification.claim v) v].

(** A finished batch session told as a stream of events: its creation, its
    claims, its verifications in order, and then its settlement or, for a
    session that was closed without one, its action. *)
Definition events_of_session (session : VerificationSession)
    : list WSEvent :=
  [WSEvent.mk SESSION_CREATED
     (SessionCreatedData (VerificationSession.id session)
        (VerificationSession.prompt session));
   claims_extracted (VerificationSession.claims session)]
  ++ flat_map events_of_verification
       (VerificationSession.verifications session)
  ++ match VerificationSession.settlement session,
           VerificationSession.overall_action session with
     | Some settlement, Some overall_action =>
         [settlement_event (VerificationSession.id session) settlement
            overall_action]
     | None, Some overall_action =>
         [WSEvent.mk ACTION
            (ActionData (RiskAction_value overall_action)
               "No verifiable claims found.")]
     | _, None => []
     end.


End Modes.

(** ** Concrete text primitives for the examples

    Lower case and splitting for texts of unaccented letters, digits and
    spaces. *)

Module DemoText.

Definition lower_char (c : Ascii.ascii) : Ascii.ascii :=
  let n := Ascii.nat_of_ascii c in
  if (65 <=? n)%nat && (n <=? 90)%nat then Ascii.ascii_of_nat (n + 32) else c.

Fixpoint lower (s : string) : string :=
  match s with
  | EmptyString => EmptyString
  | String c rest => String (lower_char c) (lower rest)
  end.

(** The words of [s] after the word [current], whose characters are kept in
    reverse order. *)
Fixpoint split_from (s : string) (current : list Ascii.ascii) : list string :=
  let flush := match current with
               | [] => []
               | _ => [string_of_list_ascii (rev current)]
               end in
  match s with
  | EmptyString => flush
  | String c rest =>
      if Ascii.eqb c Ascii.Space then flush ++ split_from rest []
      else split_from rest (c :: current)
  end.

Definition split (s : string) : list string := split_from s [].

Definition text : PyText :=
  {| str_lower := lower;
     str_split := split;
     str_strip := fun s => s;
     float_str := fun x => pretty (Qfloor x) |}.

(** No number and no capitalised word is reported. *)
Definition no_numbers (s : string) : list (Q * string) := [].
Definition no_decimals (s : string) : list Q := [].
Definition no_words (s : string) : list string := [].

(** Every word of the text is reported as an entity. *)
Definition all_words (s : string) : list string := split s.

Definition legal_claim (id text : string) : Claim :=
  Claim.mk id text LEGAL MED text.

Definition revenue_claim (id : string) : Claim :=
  Claim.mk id "Acme revenue grew 28% in Q3" NUMERIC HIGH "".

(** The three registered agents over these primitives. *)
Definition agents : list BaseAgent :=
  DEMO_AGENTS text no_numbers no_decimals no_numbers all_words 12 30 5.

Definition two_claims (response domain : string) : list Claim :=
  [legal_claim "CLM-001"
     "The privilege has been consistently upheld across federal circuits.";
   revenue_claim "CLM-002"].

End DemoText.

(** * Properties *)

(** ** Python built-ins *)

Lemma ge_true (a b : Q) : ge_ a b = true <-> b <= a.
Proof. unfold ge_. apply Qle_bool_iff. Qed.

Lemma ge_false (a b : Q) : ge_ a b = false <-> a < b.
Proof.
  unfold ge_. rewrite <- not_true_iff_false, Qle_bool_iff.
  split; [apply Qnot_le_lt | apply Qlt_not_le].
Qed.

Lemma gt_true (a b : Q) : gt_ a b = true <-> b < a.
Proof.
  unfold gt_. rewrite negb_true_iff, <- not_true_iff_false, Qle_bool_iff.
  split; [apply Qnot_le_lt | apply Qlt_not_le].
Qed.

Lemma gt_false (a b : Q) : gt_ a b = false <-> a <= b.
Proof. unfold gt_. rewrite negb_false_iff. apply Qle_bool_iff. Qed.

(** Case analysis on a comparison, leaving the order fact in the context. *)
Ltac cmp_cases a b :=
  let H := fresh "Hcmp" in
  destruct (gt_ a b) eqn:H;
  [apply gt_true in H | apply gt_false in H].

Ltac ge_cases a b :=
  let H := fresh "Hcmp" in
  destruct (ge_ a b) eqn:H;
  [apply ge_true in H | apply ge_false in H].

Lemma min_spec (a b : Q) :
  (a <= b /\ min_ a b = a) \/ (b < a /\ min_ a b = b).
Proof. unfold min_. cmp_cases a b; auto. Qed.

Lemma min_Qmin (a b : Q) : min_ a b == Qmin a b.
Proof.
  destruct (min_spec a b) as [[H ->] | [H ->]].
  - symmetry. apply Q.min_l. exact H.
  - symmetry. apply Q.min_r. apply Qlt_le_weak. exact H.
Qed.

Lemma sum_from (xs : list Q) (s : Q) : fold_left Qplus xs s == s + Spec.total xs.
Proof.
  revert s. induction xs as [| x xs IH]; intros s; simpl.
  - lra.
  - rewrite IH. lra.
Qed.

Lemma sum_total (xs : list Q) : sum_ xs == Spec.total xs.
Proof. unfold sum_. rewrite sum_from. lra. Qed.

Lemma len_cons {A} (x : A) (xs : list A) : len_ (x :: xs) == 1 + len_ xs.
Proof.
  unfold len_. cbn [length]. rewrite Nat2Z.inj_succ, <- Z.add_1_l, inject_Z_plus.
  reflexivity.
Qed.

Lemma len_nonneg {A} (xs : list A) : 0 <= len_ xs.
Proof.
  unfold len_. change 0 with (inject_Z 0). rewrite <- Zle_Qle. lia.
Qed.

Lemma len_pos {A} (xs : list A) : xs <> [] -> 0 < len_ xs.
Proof.
  destruct xs as [| x xs]; [congruence |]. intros _.
  rewrite len_cons. pose proof (len_nonneg xs). lra.
Qed.

Lemma total_bounds (xs : list Q) :
  Forall (fun x => 0 <= x /\ x <= 1) xs ->
  0 <= Spec.total xs /\ Spec.total xs <= len_ xs.
Proof.
  induction 1 as [| x xs [Hx0 Hx1] _ [IH0 IH1]]; simpl.
  - split; [lra | apply len_nonneg].
  - rewrite len_cons. lra.
Qed.

Lemma mean_bounds (xs : list Q) :
  xs <> [] -> Forall (fun x => 0 <= x /\ x <= 1) xs ->
  0 <= Spec.total xs / len_ xs /\ Spec.total xs / len_ xs <= 1.
Proof.
  intros Hne Hxs. destruct (total_bounds xs Hxs) as [H0 H1].
  pose proof (len_pos xs Hne) as Hlen. split.
  - apply Qle_shift_div_l; [exact Hlen | lra].
  - apply Qle_shift_div_r; [exact Hlen | lra].
Qed.

(** ** The orchestrator monad *)

Lemma bind_ret_l {A B} (a : A) (k : A -> M B) (w : World) :
  bind (ret a) k w = k a w.
Proof. reflexivity. Qed.

Lemma bind_ret_r {A} (c : M A) (w : World) : bind c ret w = c w.
Proof. unfold bind, ret. destruct (c w) as [[a | e] w']; reflexivity. Qed.

Lemma bind_assoc {A B C} (c : M A) (k : A -> M B) (h : B -> M C) (w : World) :
  bind (bind c k) h w = bind c (fun a => bind (k a) h) w.
Proof. unfold bind. destruct (c w) as [[a | e] w']; reflexivity. Qed.

Lemma bind_raise {A B} (e : string) (k : A -> M B) (w : World) :
  bind (raise e) k w = (Raised e, w).
Proof. reflexivity. Qed.

(** ** The weights *)

Lemma agent_weight_spec (a : AgentAssessment) :
  agent_weight a == Spec.reliability (AgentAssessment.agent_name a).
Proof.
  unfold agent_weight, Spec.reliability, AGENT_WEIGHTS.
  destruct (String.eqb_spec (AgentAssessment.agent_name a) "NumericVerifier")
    as [-> | H1]; [rewrite lookup_insert_eq; simpl; lra |].
  rewrite lookup_insert_ne by congruence.
  destruct (String.eqb_spec (AgentAssessment.agent_name a) "RetrieverAgent")
    as [-> | H2]; [rewrite lookup_insert_eq; simpl; lra |].
  rewrite lookup_insert_ne by congruence.
  destruct (String.eqb_spec (AgentAssessment.agent_name a) "ConsistencyBot")
    as [-> | H3]; [rewrite lookup_insert_eq; simpl; lra |].
  rewrite lookup_insert_ne by congruence.
  rewrite lookup_empty. simpl. lra.
Qed.

Lemma agent_weight_bounds (a : AgentAssessment) :
  0.8 <= agent_weight a /\ agent_weight a <= 1.
Proof.
  rewrite agent_weight_spec. unfold Spec.reliability.
  destruct (String.eqb _ _); [split; lra |].
  destruct (String.eqb _ _); split; lra.
Qed.

Lemma relevance_bounds (fs : list Finding) :
  Forall wf_finding fs ->
  Forall (fun x => 0 <= x /\ x <= 1) (map Finding.relevance fs).
Proof.
  induction 1 as [| f fs Hf _ IH]; simpl; constructor; assumption.
Qed.

Lemma evidence_weight_spec (a : AgentAssessment) :
  evidence_weight a == Spec.evidence_quality a.
Proof.
  unfold evidence_weight, Spec.evidence_quality, Spec.mean.
  destruct (AgentAssessment.findings a) as [| f fs] eqn:Hfs.
  - reflexivity.
  - rewrite bool_decide_eq_false_2 by congruence.
    rewrite sum_total. unfold len_. rewrite length_map. lra.
Qed.

Lemma evidence_quality_bounds (a : AgentAssessment) :
  Forall wf_finding (AgentAssessment.findings a) ->
  (AgentAssessment.findings a = [] -> Spec.evidence_quality a == 1 # 2)
  /\ (AgentAssessment.findings a <> [] ->
      7 # 10 <= Spec.evidence_quality a /\ Spec.evidence_quality a <= 1).
Proof.
  intros Hwf. unfold Spec.evidence_quality, Spec.mean. split.
  - intros ->. reflexivity.
  - intros Hne. rewrite bool_decide_eq_false_2 by exact Hne.
    destruct (mean_bounds (map Finding.relevance (AgentAssessment.findings a)))
      as [H0 H1].
    + destruct (AgentAssessment.findings a); [congruence | discriminate].
    + apply relevance_bounds, Hwf.
    + unfold len_ in H0, H1. lra.
Qed.

Lemma effective_weight_spec (a : AgentAssessment) :
  effective_weight a == Spec.weight a.
Proof.
  unfold effective_weight, Spec.weight.
  rewrite agent_weight_spec, evidence_weight_spec. reflexivity.
Qed.

Lemma weight_bounds (a : AgentAssessment) :
  Forall wf_finding (AgentAssessment.findings a) ->
  4 # 10 <= Spec.weight a /\ Spec.weight a <= 1.
Proof.
  intros Hwf. unfold Spec.weight.
  pose proof (agent_weight_bounds a) as [Hw0 Hw1].
  rewrite agent_weight_spec in Hw0, Hw1.
  destruct (evidence_quality_bounds a Hwf) as [He Hn].
  destruct (AgentAssessment.findings a) as [| f fs] eqn:Hfs.
  - rewrite (He eq_refl). lra.
  - destruct Hn as [Hq0 Hq1]; [congruence |]. split; nra.
Qed.

Lemma truth_prob_spec (a : AgentAssessment) :
  truth_prob a == Spec.truth_probability a.
Proof.
  unfold truth_prob, Spec.truth_probability.
  destruct (AgentAssessment.position a); simpl; lra.
Qed.

Lemma truth_probability_bounds (a : AgentAssessment) :
  wf_assessment a ->
  0 <= Spec.truth_probability a /\ Spec.truth_probability a <= 1.
Proof.
  intros [[H0 H1] _]. unfold Spec.truth_probability.
  destruct (bool_decide _); lra.
Qed.

(** ** Step 1: the loop computes a weighted mean *)

Lemma accumulate_fold (assessments : list AgentAssessment) (s t : Q) :
  fst (fold_left accumulate assessments (s, t))
    == s + Spec.total
             (map (fun a => Spec.weight a * Spec.truth_probability a)
                assessments)
  /\ snd (fold_left accumulate assessments (s, t))
    == t + Spec.total (map Spec.weight assessments).
Proof.
  revert s t. induction assessments as [| a l IH]; intros s t.
  - simpl. split; lra.
  - cbn [fold_left map Spec.total]. unfold accumulate at 2 4.
    destruct (IH (s + truth_prob a * effective_weight a)
                 (t + effective_weight a)) as [IHs IHt].
    rewrite IHs, IHt, truth_prob_spec, effective_weight_spec.
    split; lra.
Qed.

Lemma total_weight_nonneg (assessments : list AgentAssessment) :
  Forall wf_assessment assessments ->
  0 <= Spec.total (map Spec.weight assessments).
Proof.
  induction 1 as [| a l [_ Ha] _ IH]; simpl; [lra |].
  pose proof (weight_bounds a Ha). lra.
Qed.

Lemma total_weight_pos (assessments : list AgentAssessment) :
  assessments <> [] -> Forall wf_assessment assessments ->
  0 < Spec.total (map Spec.weight assessments).
Proof.
  intros Hne Hwf. destruct Hwf as [| a l [_ Ha] Hl]; [congruence |].
  simpl. pose proof (weight_bounds a Ha).
  pose proof (total_weight_nonneg l Hl). lra.
Qed.

Lemma weighted_sum_bounds (assessments : list AgentAssessment) :
  Forall wf_assessment assessments ->
  0 <= Spec.total
         (map (fun a => Spec.weight a * Spec.truth_probability a) assessments)
  /\ Spec.total
       (map (fun a => Spec.weight a * Spec.truth_probability a) assessments)
     <= Spec.total (map Spec.weight assessments).
Proof.
  induction 1 as [| a l Ha _ [IH0 IH1]]; simpl; [split; lra |].
  pose proof (truth_probability_bounds a Ha) as [Hp0 Hp1].
  destruct Ha as [_ Ha]. pose proof (weight_bounds a Ha) as [Hw0 Hw1].
  split; nra.
Qed.

Lemma weighted_risk_score_spec (assessments : list AgentAssessment) :
  assessments <> [] -> Forall wf_assessment assessments ->
  weighted_risk_score assessments == Spec.weighted_mean assessments.
Proof.
  intros Hne Hwf. unfold weighted_risk_score, Spec.weighted_mean.
  destruct (accumulate_fold assessments 0 0) as [Hs Ht].
  destruct (fold_left accumulate assessments (0, 0)) as [ws wt].
  cbn [fst snd] in Hs, Ht.
  pose proof (total_weight_pos assessments Hne Hwf) as Hpos.
  cmp_cases wt 0.
  - rewrite Hs, Ht, !Qplus_0_l. reflexivity.
  - lra.
Qed.

Lemma weighted_mean_bounds (assessments : list AgentAssessment) :
  assessments <> [] -> Forall wf_assessment assessments ->
  0 <= Spec.weighted_mean assessments /\ Spec.weighted_mean assessments <= 1.
Proof.
  intros Hne Hwf. unfold Spec.weighted_mean.
  pose proof (total_weight_pos assessments Hne Hwf) as Hpos.
  destruct (weighted_sum_bounds assessments Hwf) as [H0 H1]. split.
  - apply Qle_shift_div_l; [exact Hpos | lra].
  - apply Qle_shift_div_r; [exact Hpos | lra].
Qed.

(** ** Step 2: the disagreement penalty *)

Lemma count_positions (positions : list AgentSide) :
  (count_ LONG positions + count_ SHORT positions = length positions)%nat.
Proof.
  unfold count_. induction positions as [| p l IH]; [reflexivity |].
  destruct p; simpl; lia.
Qed.

Lemma minority_share_bounds (assessments : list AgentAssessment) :
  0 <= minority_share assessments /\ minority_share assessments <= 1 # 2.
Proof.
  unfold minority_share.
  set (positions := map AgentAssessment.position assessments).
  pose proof (count_positions positions) as Hcount.
  set (t := count_ LONG positions) in *.
  set (f := count_ SHORT positions) in *.
  destruct positions as [| p l] eqn:Hpos.
  - simpl in Hcount. replace (Nat.min t f) with 0%nat by lia.
    change (inject_Z (Z.of_nat 0)) with 0. unfold Qdiv.
    rewrite Qmult_0_l. split; lra.
  - assert (Hlen : 0 < len_ (p :: l)) by (apply len_pos; discriminate).
    assert (Hmin : 2 * inject_Z (Z.of_nat (Nat.min t f)) <= len_ (p :: l)).
    { unfold len_. rewrite <- Hcount.
      change 2 with (inject_Z 2). rewrite <- inject_Z_mult, <- Zle_Qle. lia. }
    assert (Hmin0 : 0 <= inject_Z (Z.of_nat (Nat.min t f))).
    { change 0 with (inject_Z 0). rewrite <- Zle_Qle. lia. }
    split.
    + apply Qle_shift_div_l; [exact Hlen | lra].
    + apply Qle_shift_div_r; [exact Hlen | lra].
Qed.

Lemma disagreement_penalty_bounds (assessments : list AgentAssessment) :
  0 <= disagreement_penalty assessments
  /\ disagreement_penalty assessments <= 0.075.
Proof.
  unfold disagreement_penalty.
  pose proof (minority_share_bounds assessments). lra.
Qed.

Lemma apply_disagreement_bounds (assessments : list AgentAssessment) (r : Q) :
  0 <= r /\ r <= 1 ->
  0 <= apply_disagreement assessments r
  /\ apply_disagreement assessments r <= 1.
Proof.
  intros [H0 H1]. unfold apply_disagreement.
  pose proof (disagreement_penalty_bounds assessments) as [Hp0 Hp1].
  destruct (_ && _); [split; nra | split; assumption].
Qed.

Lemma final_risk_score_bounds (assessments : list AgentAssessment) :
  assessments <> [] -> Forall wf_assessment assessments ->
  0 <= final_risk_score assessments /\ final_risk_score assessments <= 1.
Proof.
  intros Hne Hwf. unfold final_risk_score.
  apply apply_disagreement_bounds.
  rewrite weighted_risk_score_spec by assumption.
  apply weighted_mean_bounds; assumption.
Qed.

(** ** Rounding the stored score *)

Lemma round_half_even_bounds (x : Q) (n : Z) :
  0 <= x /\ x <= inject_Z n ->
  (0 <= round_half_even x <= n)%Z.
Proof.
  intros [H0 Hn]. unfold round_half_even.
  pose proof (Qfloor_le x) as Hfl. pose proof (Qlt_floor x) as Hfu.
  assert (Hf0 : (0 <= Qfloor x)%Z).
  { change 0%Z with (Qfloor (inject_Z 0)). apply Qfloor_resp_le. exact H0. }
  assert (Hfn : (Qfloor x <= n)%Z).
  { rewrite <- (Qfloor_Z n). apply Qfloor_resp_le. exact Hn. }
  assert (Hhalf : 1 # 2 <= x - inject_Z (Qfloor x) -> (Qfloor x < n)%Z).
  { intros Hh. apply Z.le_neq. split; [exact Hfn |]. intros Heq.
    rewrite Heq in Hh. lra. }
  destruct (Qcompare (x - inject_Z (Qfloor x)) (1 # 2)) eqn:Hc.
  - apply Qeq_alt in Hc.
    assert (Qfloor x < n)%Z by (apply Hhalf; lra).
    destruct (Z.even (Qfloor x)); lia.
  - lia.
  - apply Qgt_alt in Hc.
    assert (Qfloor x < n)%Z by (apply Hhalf; lra). lia.
Qed.

Lemma round_bounds (x : Q) (ndigits : nat) :
  0 <= x /\ x <= 1 -> 0 <= round_ x ndigits /\ round_ x ndigits <= 1.
Proof.
  intros [H0 H1]. unfold round_.
  set (p := (10 ^ Z.of_nat ndigits)%Z).
  assert (Hp : (0 < p)%Z) by (apply Z.pow_pos_nonneg; lia).
  assert (HpQ : 0 < inject_Z p).
  { change 0 with (inject_Z 0). rewrite <- Zlt_Qlt. exact Hp. }
  destruct (round_half_even_bounds (x * inject_Z p) p) as [Hr0 Hr1];
    [split; nra |].
  rewrite Zle_Qle in Hr0, Hr1. change (inject_Z 0) with 0 in Hr0. split.
  - apply Qle_shift_div_l; [exact HpQ | lra].
  - apply Qle_shift_div_r; [exact HpQ | lra].
Qed.

(** ** Steps 3 and 4: thresholds and decision *)

Lemma adjusted_allow_spec (config : Config) (severity : Severity) :
  adjusted_allow config severity
  == Qmin (RISK_THRESHOLD_ALLOW config * SEVERITY_MULTIPLIERS severity) 0.95.
Proof. unfold adjusted_allow. apply min_Qmin. Qed.

Lemma adjusted_rewrite_spec (config : Config) (severity : Severity) :
  adjusted_rewrite config severity
  == Qmin (RISK_THRESHOLD_REWRITE config * SEVERITY_MULTIPLIERS severity)
          (adjusted_allow config severity - 0.05).
Proof. unfold adjusted_rewrite. apply min_Qmin. Qed.

Lemma adjusted_allow_capped (config : Config) (severity : Severity) :
  adjusted_allow config severity <= 0.95.
Proof.
  unfold adjusted_allow.
  destruct (min_spec
              (RISK_THRESHOLD_ALLOW config * SEVERITY_MULTIPLIERS severity)
              0.95) as [[H ->] | [H ->]]; lra.
Qed.

Lemma adjusted_rewrite_gap (config : Config) (severity : Severity) :
  adjusted_rewrite config severity <= adjusted_allow config severity - 0.05.
Proof.
  unfold adjusted_rewrite.
  destruct (min_spec
              (RISK_THRESHOLD_REWRITE config * SEVERITY_MULTIPLIERS severity)
              (adjusted_allow config severity - 0.05))
    as [[H ->] | [H ->]]; lra.
Qed.

Lemma decide_action_cases (config : Config) (severity : Severity) (r : Q) :
  (adjusted_allow config severity <= r
   /\ decide_action config severity r = (TRUE, ALLOW))
  \/ (r < adjusted_allow config severity
      /\ adjusted_rewrite config severity <= r
      /\ decide_action config severity r = (UNCERTAIN, REWRITE))
  \/ (r < adjusted_allow config severity
      /\ r < adjusted_rewrite config severity
      /\ decide_action config severity r = (FALSE, BLOCK)).
Proof.
  unfold decide_action.
  ge_cases r (adjusted_allow config severity); [left; auto |].
  ge_cases r (adjusted_rewrite config severity); right; [left | right]; auto.
Qed.

(** The fields of the result for a non-empty list. *)
Lemma aggregate_risk_nonempty
    (config : Config) (claim : Claim) (assessments : list AgentAssessment) :
  assessments <> [] ->
  let r := final_risk_score assessments in
  let d := decide_action config (Claim.severity claim) r in
  aggregate_risk config claim assessments
  = ClaimVerification.mk claim (round_ r 4) (fst d) (snd d)
      (_generate_rationale claim assessments r (fst d) (snd d)) assessments.
Proof.
  intros Hne. destruct assessments as [| a l]; [congruence |].
  unfold aggregate_risk.
  destruct (decide_action config (Claim.severity claim)
              (final_risk_score (a :: l))) as [verdict action].
  reflexivity.
Qed.

(** Closes the validity conditions of concrete findings and assessments. *)
Ltac solve_wf :=
  repeat match goal with
  | |- Forall _ [] => apply List.Forall_nil
  | |- Forall _ (_ :: _) => apply List.Forall_cons
  | |- Forall _ _ => progress cbn
  | |- wf_assessment _ => split
  | |- wf_finding _ => split
  | |- _ /\ _ => split
  | |- Qle _ _ => cbn; lra
  | |- True => exact I
  end.

(** * The aggregator *)

(** C4: with no assessments the aggregator returns verdict UNCERTAIN, action
    BLOCK and risk score 0.50, with a rationale saying that no agent
    assessments were available; nothing is computed from the empty list. *)
Theorem aggregate_risk_no_assessments (config : Config) (claim : Claim) :
  aggregate_risk config claim []
  = ClaimVerification.mk claim 0.50 UNCERTAIN BLOCK
      "No agent assessments available." [].
Proof. reflexivity. Qed.

(** Three agreeing verifiers with confidence 0.9 and relevance 0.9: the
    claim of medium severity is allowed with score 0.9. *)
Example unanimous_high_evidence_allowed :
  let v := aggregate_risk default_config (Demo.claim_of "CLM-1" MED)
             Demo.unanimous_high_evidence in
  ClaimVerification.action v = ALLOW
  /\ ClaimVerification.verdict v = TRUE
  /\ ClaimVerification.risk_score v == 0.9
  /\ ClaimVerification.rationale v
     = "Claim verified with 90% confidence. 3/3 verifiers confirmed. 3 supporting evidence items found."%string.
Proof. vm_compute. repeat split; reflexivity. Qed.

(** The thresholds are compared with the score before it is rounded for the
    result: a final score of 0.79996 is below the allow floor 0.8, so the
    claim is rewritten, and the score stored with it is 0.8. *)
Example stored_score_is_rounded :
  let v := aggregate_risk default_config (Demo.claim_of "CLM-1" MED)
             Demo.just_below_allow in
  final_risk_score Demo.just_below_allow == 0.79996
  /\ adjusted_allow default_config MED == 0.8
  /\ ClaimVerification.action v = REWRITE
  /\ ClaimVerification.risk_score v == 0.8.
Proof. vm_compute. repeat split; reflexivity. Qed.

(** C1: for a non-empty list of valid assessments, both configured floors
    are multiplied by the severity multiplier of the claim, the allow floor
    is capped at 0.95, the rewrite floor stays at least 0.05 below it, and
    the verdict and action follow from comparing the final risk score with
    the two floors: at or above the allow floor TRUE and ALLOW, else at or
    above the rewrite floor UNCERTAIN and REWRITE, else FALSE and BLOCK.  The
    action is one of the three, the final score lies in [0,1], and so does
    the stored score, which is the final score rounded to four decimals. *)
Theorem aggregate_risk_thresholds
    (config : Config) (claim : Claim) (assessments : list AgentAssessment) :
  assessments <> [] ->
  Forall wf_assessment assessments ->
  let v := aggregate_risk config claim assessments in
  let r := final_risk_score assessments in
  let m := SEVERITY_MULTIPLIERS (Claim.severity claim) in
  let allow_floor := adjusted_allow config (Claim.severity claim) in
  let rewrite_floor := adjusted_rewrite config (Claim.severity claim) in
  allow_floor == Qmin (RISK_THRESHOLD_ALLOW config * m) 0.95
  /\ rewrite_floor
     == Qmin (RISK_THRESHOLD_REWRITE config * m) (allow_floor - 0.05)
  /\ allow_floor <= 0.95
  /\ rewrite_floor <= allow_floor - 0.05
  /\ (allow_floor <= r ->
      ClaimVerification.verdict v = TRUE
      /\ ClaimVerification.action v = ALLOW)
  /\ (r < allow_floor -> rewrite_floor <= r ->
      ClaimVerification.verdict v = UNCERTAIN
      /\ ClaimVerification.action v = REWRITE)
  /\ (r < allow_floor -> r < rewrite_floor ->
      ClaimVerification.verdict v = FALSE
      /\ ClaimVerification.action v = BLOCK)
  /\ (ClaimVerification.action v = ALLOW
      \/ ClaimVerification.action v = REWRITE
      \/ ClaimVerification.action v = BLOCK)
  /\ (0 <= r /\ r <= 1)
  /\ ClaimVerification.risk_score v == round_ r 4
  /\ (0 <= ClaimVerification.risk_score v
      /\ ClaimVerification.risk_score v <= 1).
Proof.
  intros Hne Hwf v r m allow_floor rewrite_floor.
  pose proof (final_risk_score_bounds assessments Hne Hwf) as Hr.
  pose proof (adjusted_rewrite_gap config (Claim.severity claim)) as Hgap.
  fold allow_floor rewrite_floor in Hgap.
  subst v. rewrite (aggregate_risk_nonempty config claim assessments Hne).
  cbn [ClaimVerification.verdict ClaimVerification.action
       ClaimVerification.risk_score].
  fold r allow_floor rewrite_floor.
  split; [apply adjusted_allow_spec |].
  split; [apply adjusted_rewrite_spec |].
  split; [apply adjusted_allow_capped |].
  split; [exact Hgap |].
  assert (Hlast : 0 <= round_ r 4 /\ round_ r 4 <= 1)
    by (apply round_bounds; exact Hr).
  destruct (decide_action_cases config (Claim.severity claim) r)
    as [[Ha ->] | [[Ha [Hw ->]] | [Ha [Hw ->]]]];
    fold allow_floor rewrite_floor in Ha; try fold rewrite_floor in Hw;
    cbn [fst snd];
    (repeat split; try easy; try (intros; lra); auto).
  all: try (intros; exfalso; lra).
Qed.

Lemma aggregate_risk_thresholds_witness :
  let assessments :=
    [Demo.assessment_of "NumericVerifier" LONG 0.9 [Demo.finding_of 0.9];
     Demo.assessment_of "RetrieverAgent" SHORT 0.6 []] in
  let v := aggregate_risk default_config (Demo.claim_of "CLM-1" HIGH)
             assessments in
  assessments <> []
  /\ Forall wf_assessment assessments
  /\ ClaimVerification.risk_score v
     == round_ (final_risk_score assessments) 4
  /\ (0 <= ClaimVerification.risk_score v
      /\ ClaimVerification.risk_score v <= 1).
Proof.
  intros assessments v.
  assert (Hne : assessments <> []) by discriminate.
  assert (Hwf : Forall wf_assessment assessments) by (subst assessments; solve_wf).
  split; [exact Hne |]. split; [exact Hwf |].
  apply (aggregate_risk_thresholds default_config (Demo.claim_of "CLM-1" HIGH)
           assessments Hne Hwf).
Defined.

(** C2: for a non-empty list of valid assessments, the score before the
    disagreement correction is the weighted mean of the truth probabilities
    (the confidence of an assessment that believes the claim true, one minus
    the confidence of one that believes it false), each weighted by the
    verifier's reliability times the evidence quality: 0.5 without findings,
    else 0.7 plus 0.3 times the mean relevance, which lies between 0.7 and
    1.0. *)
Theorem weighted_risk_score_is_weighted_mean
    (assessments : list AgentAssessment) :
  assessments <> [] ->
  Forall wf_assessment assessments ->
  weighted_risk_score assessments == Spec.weighted_mean assessments
  /\ Forall
       (fun a =>
          truth_prob a == Spec.truth_probability a
          /\ effective_weight a == Spec.weight a
          /\ (AgentAssessment.findings a = [] ->
              Spec.evidence_quality a == 1 # 2)
          /\ (AgentAssessment.findings a <> [] ->
              7 # 10 <= Spec.evidence_quality a
              /\ Spec.evidence_quality a <= 1))
       assessments.
Proof.
  intros Hne Hwf. split.
  - apply weighted_risk_score_spec; assumption.
  - clear Hne. induction Hwf as [| a l [_ Ha] _ IH]; constructor; [| exact IH].
    split; [apply truth_prob_spec |].
    split; [apply effective_weight_spec |].
    apply evidence_quality_bounds, Ha.
Qed.

Lemma weighted_risk_score_is_weighted_mean_witness :
  let assessments :=
    [Demo.assessment_of "NumericVerifier" LONG 0.9 [Demo.finding_of 0.9];
     Demo.assessment_of "RetrieverAgent" SHORT 0.6 []] in
  assessments <> []
  /\ Forall wf_assessment assessments
  /\ weighted_risk_score assessments == Spec.weighted_mean assessments.
Proof.
  intros assessments.
  assert (Hne : assessments <> []) by discriminate.
  assert (Hwf : Forall wf_assessment assessments)
    by (subst assessments; solve_wf).
  split; [exact Hne |]. split; [exact Hwf |].
  apply (weighted_risk_score_is_weighted_mean assessments Hne Hwf).
Defined.

(** ** Severity never makes the action more lenient *)

Lemma allow_floor_monotone (config : Config) (s1 s2 : Severity) (r : Q) :
  0 <= r ->
  (Spec.severity_rank s1 <= Spec.severity_rank s2)%nat ->
  r < adjusted_allow config s1 -> r < adjusted_allow config s2.
Proof.
  intros Hr Hrank. unfold adjusted_allow.
  destruct (min_spec (RISK_THRESHOLD_ALLOW config * SEVERITY_MULTIPLIERS s1)
              0.95) as [[H1 ->] | [H1 ->]];
  destruct (min_spec (RISK_THRESHOLD_ALLOW config * SEVERITY_MULTIPLIERS s2)
              0.95) as [[H2 ->] | [H2 ->]];
  destruct s1, s2; cbn in Hrank; try lia;
  cbn [SEVERITY_MULTIPLIERS] in *; intros; lra.
Qed.

Lemma rewrite_floor_monotone (config : Config) (s1 s2 : Severity) (r : Q) :
  0 <= r ->
  (Spec.severity_rank s1 <= Spec.severity_rank s2)%nat ->
  r < adjusted_allow config s1 ->
  r < adjusted_rewrite config s1 -> r < adjusted_rewrite config s2.
Proof.
  intros Hr Hrank. unfold adjusted_rewrite, adjusted_allow.
  destruct (min_spec (RISK_THRESHOLD_ALLOW config * SEVERITY_MULTIPLIERS s1)
              0.95) as [[H1 ->] | [H1 ->]];
  destruct (min_spec (RISK_THRESHOLD_ALLOW config * SEVERITY_MULTIPLIERS s2)
              0.95) as [[H2 ->] | [H2 ->]];
  match goal with
  | |- _ -> _ < min_ ?a ?b -> _ < min_ ?c ?d =>
      destruct (min_spec a b) as [[H3 ->] | [H3 ->]];
      destruct (min_spec c d) as [[H4 ->] | [H4 ->]]
  end;
  destruct s1, s2; cbn in Hrank; try lia;
  cbn [SEVERITY_MULTIPLIERS] in *; intros; lra.
Qed.

Lemma decide_action_monotone (config : Config) (s1 s2 : Severity) (r : Q) :
  0 <= r ->
  (Spec.severity_rank s1 <= Spec.severity_rank s2)%nat ->
  (Spec.action_rank (snd (decide_action config s1 r))
   <= Spec.action_rank (snd (decide_action config s2 r)))%nat.
Proof.
  intros Hr Hrank.
  pose proof (allow_floor_monotone config s1 s2 r Hr Hrank) as Hallow.
  pose proof (rewrite_floor_monotone config s1 s2 r Hr Hrank) as Hrewrite.
  destruct (decide_action_cases config s1 r)
    as [[Ha1 ->] | [[Ha1 [Hw1 ->]] | [Ha1 [Hw1 ->]]]];
  destruct (decide_action_cases config s2 r)
    as [[Ha2 ->] | [[Ha2 [Hw2 ->]] | [Ha2 [Hw2 ->]]]];
  cbn; try lia; exfalso.
  - specialize (Hallow Ha1). lra.
  - specialize (Hallow Ha1). lra.
  - specialize (Hrewrite Ha1 Hw1). lra.
Qed.

(** C6: with the assessments and the configured thresholds fixed, a claim
    of higher severity (LOW < MED < HIGH < CRITICAL) never gets a more
    lenient action (ALLOW < REWRITE < BLOCK): a blocked claim stays blocked
    and a rewritten one does not become allowed. *)
Theorem severity_never_more_lenient
    (config : Config) (claim1 claim2 : Claim)
    (assessments : list AgentAssessment) :
  Forall wf_assessment assessments ->
  (Spec.severity_rank (Claim.severity claim1)
   <= Spec.severity_rank (Claim.severity claim2))%nat ->
  (Spec.action_rank
     (ClaimVerification.action (aggregate_risk config claim1 assessments))
   <= Spec.action_rank
        (ClaimVerification.action (aggregate_risk config claim2 assessments)))%nat.
Proof.
  intros Hwf Hrank.
  destruct (decide (assessments = [])) as [-> | Hne]; [cbn; lia |].
  rewrite !aggregate_risk_nonempty by exact Hne.
  cbn [ClaimVerification.action].
  apply decide_action_monotone; [| exact Hrank].
  apply final_risk_score_bounds; assumption.
Qed.

Lemma severity_never_more_lenient_witness :
  let assessments :=
    [Demo.assessment_of "NumericVerifier" LONG 0.9 [Demo.finding_of 0.9];
     Demo.assessment_of "RetrieverAgent" LONG 0.8 []] in
  Forall wf_assessment assessments
  /\ (Spec.severity_rank LOW <= Spec.severity_rank CRITICAL)%nat
  /\ (Spec.action_rank
        (ClaimVerification.action
           (aggregate_risk default_config (Demo.claim_of "CLM-1" LOW)
              assessments))
      <= Spec.action_rank
           (ClaimVerification.action
              (aggregate_risk default_config (Demo.claim_of "CLM-1" CRITICAL)
                 assessments)))%nat.
Proof.
  intros assessments.
  assert (Hwf : Forall wf_assessment assessments)
    by (subst assessments; solve_wf).
  assert (Hrank : (Spec.severity_rank LOW <= Spec.severity_rank CRITICAL)%nat)
    by (cbn; lia).
  split; [exact Hwf |]. split; [exact Hrank |].
  exact (severity_never_more_lenient default_config
           (Demo.claim_of "CLM-1" LOW) (Demo.claim_of "CLM-1" CRITICAL)
           assessments Hwf Hrank).
Defined.

(** ** The pull toward 0.5 *)

Lemma count_long (assessments : list AgentAssessment) :
  count_ LONG (map AgentAssessment.position assessments)
  = Spec.true_count assessments.
Proof.
  unfold count_, Spec.true_count, is_long.
  induction assessments as [| a l IH]; [reflexivity |].
  cbn [map count_occ List.filter].
  destruct (AgentAssessment.position a); cbn; rewrite IH; reflexivity.
Qed.

Lemma count_short (assessments : list AgentAssessment) :
  count_ SHORT (map AgentAssessment.position assessments)
  = Spec.false_count assessments.
Proof.
  unfold count_, Spec.false_count, is_short.
  induction assessments as [| a l IH]; [reflexivity |].
  cbn [map count_occ List.filter].
  destruct (AgentAssessment.position a); cbn; rewrite IH; reflexivity.
Qed.

Lemma minority_share_counts (assessments : list AgentAssessment) :
  minority_share assessments
  = inject_Z (Z.of_nat (Nat.min (Spec.true_count assessments)
                                (Spec.false_count assessments)))
    / inject_Z (Z.of_nat (length assessments)).
Proof.
  unfold minority_share, len_.
  rewrite count_long, count_short, length_map. reflexivity.
Qed.

Lemma counts_total (assessments : list AgentAssessment) :
  (Spec.true_count assessments + Spec.false_count assessments
   = length assessments)%nat.
Proof.
  rewrite <- count_long, <- count_short, count_positions, length_map.
  reflexivity.
Qed.

Lemma minority_share_even_split (assessments : list AgentAssessment) :
  assessments <> [] ->
  Spec.true_count assessments = Spec.false_count assessments ->
  minority_share assessments == 1 # 2.
Proof.
  intros Hne Heq. rewrite minority_share_counts.
  pose proof (counts_total assessments) as Htot.
  pose proof (len_pos assessments Hne) as Hlen. unfold len_ in Hlen.
  rewrite Heq, Nat.min_id. rewrite Heq in Htot. rewrite <- Htot in *.
  replace (Z.of_nat (Spec.false_count assessments
                     + Spec.false_count assessments))
    with (2 * Z.of_nat (Spec.false_count assessments))%Z in * by lia.
  rewrite inject_Z_mult in *. change (inject_Z 2) with 2 in *.
  field. lra.
Qed.

Lemma apply_disagreement_split
    (assessments : list AgentAssessment) (r : Q) :
  (0 < Spec.true_count assessments)%nat ->
  (0 < Spec.false_count assessments)%nat ->
  apply_disagreement assessments r - (1 # 2)
  == (1 - 0.15 * minority_share assessments) * (r - (1 # 2)).
Proof.
  intros Ht Hf. unfold apply_disagreement, disagreement_penalty.
  rewrite count_long, count_short.
  apply Nat.ltb_lt in Ht, Hf. rewrite Ht, Hf. cbn [andb]. lra.
Qed.

Lemma apply_disagreement_unanimous
    (assessments : list AgentAssessment) (r : Q) :
  Spec.true_count assessments = 0%nat
  \/ Spec.false_count assessments = 0%nat ->
  apply_disagreement assessments r = r.
Proof.
  intros H. unfold apply_disagreement. rewrite count_long, count_short.
  destruct H as [-> | ->]; cbn [Nat.ltb Nat.leb andb];
    [| rewrite andb_false_r]; reflexivity.
Qed.

(** A weighted mean lies between any bounds of the values averaged. *)
Lemma weighted_sum_between (assessments : list AgentAssessment) (lo hi : Q) :
  Forall wf_assessment assessments ->
  Forall (fun a => lo <= Spec.truth_probability a
                   /\ Spec.truth_probability a <= hi) assessments ->
  lo * Spec.total (map Spec.weight assessments)
  <= Spec.total
       (map (fun a => Spec.weight a * Spec.truth_probability a) assessments)
  /\ Spec.total
       (map (fun a => Spec.weight a * Spec.truth_probability a) assessments)
     <= hi * Spec.total (map Spec.weight assessments).
Proof.
  intros Hwf. induction Hwf as [| a l [_ Ha] _ IH]; intros Hb.
  - cbn. split; lra.
  - inversion Hb as [| ? ? [Hlo Hhi] Hb']; subst.
    destruct (IH Hb') as [IH0 IH1]. cbn [map Spec.total].
    pose proof (weight_bounds a Ha) as [Hw0 Hw1]. split; nra.
Qed.

Lemma weighted_mean_between (assessments : list AgentAssessment) (lo hi : Q) :
  assessments <> [] ->
  Forall wf_assessment assessments ->
  Forall (fun a => lo <= Spec.truth_probability a
                   /\ Spec.truth_probability a <= hi) assessments ->
  lo <= Spec.weighted_mean assessments /\ Spec.weighted_mean assessments <= hi.
Proof.
  intros Hne Hwf Hb. unfold Spec.weighted_mean.
  pose proof (total_weight_pos assessments Hne Hwf) as Hpos.
  destruct (weighted_sum_between assessments lo hi Hwf Hb) as [H0 H1]. split.
  - apply Qle_shift_div_l; [exact Hpos | lra].
  - apply Qle_shift_div_r; [exact Hpos | lra].
Qed.

(** Two verifiers of the same confidence [c]. *)
Section two_verifiers.

Variables (a1 a2 : AgentAssessment) (c : Q).
Hypothesis wf1 : wf_assessment a1.
Hypothesis wf2 : wf_assessment a2.
Hypothesis conf1 : AgentAssessment.confidence a1 == c.
Hypothesis conf2 : AgentAssessment.confidence a2 == c.

Lemma both_wf : Forall wf_assessment [a1; a2].
Proof.
  apply List.Forall_cons; [exact wf1 |].
  apply List.Forall_cons; [exact wf2 | apply List.Forall_nil].
Qed.

Lemma two_truth_probabilities (lo hi : Q) :
  lo <= c /\ c <= hi -> lo <= 1 - c /\ 1 - c <= hi ->
  Forall (fun a => lo <= Spec.truth_probability a
                   /\ Spec.truth_probability a <= hi) [a1; a2].
Proof.
  intros Hc Hc'. unfold Spec.truth_probability.
  repeat constructor; destruct (bool_decide _); lra.
Qed.

Lemma two_weighted_abs :
  Qabs (weighted_risk_score [a1; a2] - (1 # 2)) <= Qabs (c - (1 # 2)).
Proof.
  rewrite weighted_risk_score_spec by (discriminate || exact both_wf).
  apply Qabs_Qle_condition.
  destruct (Qlt_le_dec c (1 # 2)) as [Hc | Hc].
  - rewrite (Qabs_neg (c - (1 # 2))) by lra.
    destruct (weighted_mean_between [a1; a2] c (1 - c)) as [H0 H1];
      [discriminate | exact both_wf
      | apply two_truth_probabilities; lra |]. lra.
  - rewrite (Qabs_pos (c - (1 # 2))) by lra.
    destruct (weighted_mean_between [a1; a2] (1 - c) c) as [H0 H1];
      [discriminate | exact both_wf
      | apply two_truth_probabilities; lra |]. lra.
Qed.

Lemma two_unanimous_distance :
  AgentAssessment.position a1 = AgentAssessment.position a2 ->
  Spec.distance_to_half (final_risk_score [a1; a2]) == Qabs (c - (1 # 2)).
Proof.
  intros Hpos. unfold Spec.distance_to_half, final_risk_score.
  assert (Hbound : forall p, AgentAssessment.position a1 = p ->
            Forall (fun a => (if bool_decide (p = LONG) then c else 1 - c)
                             <= Spec.truth_probability a
                             /\ Spec.truth_probability a
                                <= (if bool_decide (p = LONG) then c
                                    else 1 - c)) [a1; a2]).
  { intros p Hp. assert (Hp2 : AgentAssessment.position a2 = p) by congruence.
    unfold Spec.truth_probability.
    apply List.Forall_cons;
      [rewrite Hp
      | apply List.Forall_cons; [rewrite Hp2 | apply List.Forall_nil]];
      destruct (bool_decide _); lra. }
  rewrite apply_disagreement_unanimous.
  - rewrite weighted_risk_score_spec by (discriminate || exact both_wf).
    destruct (AgentAssessment.position a1) eqn:Hp.
    + destruct (weighted_mean_between [a1; a2] _ _ ltac:(discriminate)
                  both_wf (Hbound LONG eq_refl)) as [H0 H1].
      cbn in H0, H1.
      assert (Heq : Spec.weighted_mean [a1; a2] == c) by lra.
      rewrite Heq. reflexivity.
    + destruct (weighted_mean_between [a1; a2] _ _ ltac:(discriminate)
                  both_wf (Hbound SHORT eq_refl)) as [H0 H1].
      cbn in H0, H1.
      assert (Heq : Spec.weighted_mean [a1; a2] - (1 # 2)
                    == - (c - (1 # 2))) by lra.
      rewrite Heq. apply Qabs_opp.
  - unfold Spec.true_count, Spec.false_count, is_long, is_short.
    cbn [List.filter]. rewrite <- Hpos.
    destruct (AgentAssessment.position a1); cbn; auto.
Qed.

Lemma two_split_distance :
  AgentAssessment.position a1 <> AgentAssessment.position a2 ->
  Spec.distance_to_half (final_risk_score [a1; a2])
  <= 0.925 * Qabs (c - (1 # 2)).
Proof.
  intros Hpos. unfold Spec.distance_to_half, final_risk_score.
  assert (Hcounts : Spec.true_count [a1; a2] = 1%nat
                    /\ Spec.false_count [a1; a2] = 1%nat).
  { unfold Spec.true_count, Spec.false_count, is_long, is_short.
    cbn [List.filter].
    destruct (AgentAssessment.position a1), (AgentAssessment.position a2);
      cbn; auto; congruence. }
  destruct Hcounts as [Ht Hf].
  rewrite apply_disagreement_split by lia.
  rewrite minority_share_even_split by (discriminate || congruence).
  rewrite Qabs_Qmult.
  rewrite (Qabs_pos (1 - 0.15 * (1 # 2))) by lra.
  pose proof two_weighted_abs as Habs.
  pose proof (Qabs_nonneg (weighted_risk_score [a1; a2] - (1 # 2))).
  nra.
Qed.

End two_verifiers.

(** C3 (amended): when at least one assessment believes the claim true and
    one believes it false, the final score is the weighted mean pulled
    toward 0.5 by the factor 0.15 times
    min(true count, false count) / total count; the share is at most one
    half, reached at an even split, and a unanimous list is left as it is.
    For two verifiers that both report the same confidence, other than 0.5,
    in both scenarios, the final score of the 1-true/1-false split is
    strictly closer to 0.5 than the final score of the unanimous scenario. *)
Theorem disagreement_pull :
  (forall assessments : list AgentAssessment,
     minority_share assessments
     = inject_Z (Z.of_nat (Nat.min (Spec.true_count assessments)
                                   (Spec.false_count assessments)))
       / inject_Z (Z.of_nat (length assessments))
     /\ (0 <= minority_share assessments
         /\ minority_share assessments <= 1 # 2)
     /\ (assessments <> [] ->
         Spec.true_count assessments = Spec.false_count assessments ->
         minority_share assessments == 1 # 2)
     /\ ((0 < Spec.true_count assessments)%nat ->
         (0 < Spec.false_count assessments)%nat ->
         final_risk_score assessments - (1 # 2)
         == (1 - 0.15 * minority_share assessments)
            * (weighted_risk_score assessments - (1 # 2)))
     /\ (Spec.true_count assessments = 0%nat
         \/ Spec.false_count assessments = 0%nat ->
         final_risk_score assessments = weighted_risk_score assessments))
  /\ (forall (u1 u2 s1 s2 : AgentAssessment) (c : Q),
        Forall wf_assessment [u1; u2; s1; s2] ->
        Forall (fun a => AgentAssessment.confidence a == c) [u1; u2; s1; s2] ->
        ~ c == 1 # 2 ->
        AgentAssessment.position u1 = AgentAssessment.position u2 ->
        AgentAssessment.position s1 <> AgentAssessment.position s2 ->
        Spec.distance_to_half (final_risk_score [s1; s2])
        < Spec.distance_to_half (final_risk_score [u1; u2])).
Proof.
  split.
  - intros assessments.
    split; [apply minority_share_counts |].
    split; [apply minority_share_bounds |].
    split; [apply minority_share_even_split |].
    split.
    + intros Ht Hf. apply apply_disagreement_split; assumption.
    + intros H. apply apply_disagreement_unanimous, H.
  - intros u1 u2 s1 s2 c Hwf Hconf Hc Hu Hs.
    inversion Hwf as [| ? ? Hwu1 Hwf1]; subst.
    inversion Hwf1 as [| ? ? Hwu2 Hwf2]; subst.
    inversion Hwf2 as [| ? ? Hws1 Hwf3]; subst.
    inversion Hwf3 as [| ? ? Hws2 _]; subst.
    inversion Hconf as [| ? ? Hcu1 Hconf1]; subst.
    inversion Hconf1 as [| ? ? Hcu2 Hconf2]; subst.
    inversion Hconf2 as [| ? ? Hcs1 Hconf3]; subst.
    inversion Hconf3 as [| ? ? Hcs2 _]; subst.
    rewrite (two_unanimous_distance u1 u2 c Hwu1 Hwu2 Hcu1 Hcu2 Hu).
    pose proof (two_split_distance s1 s2 c Hws1 Hws2 Hcs1 Hcs2 Hs) as Hsplit.
    assert (Hpos : 0 < Qabs (c - (1 # 2))).
    { destruct (Qlt_le_dec c (1 # 2)) as [Hlt | Hge].
      - rewrite Qabs_neg by lra. lra.
      - rewrite Qabs_pos by lra.
        destruct (Qle_lt_or_eq _ _ Hge) as [Hgt | Heq]; [lra |].
        exfalso. apply Hc. symmetry. exact Heq. }
    lra.
Qed.

Lemma disagreement_pull_witness :
  let u1 := Demo.assessment_of "NumericVerifier" LONG 0.9 [] in
  let u2 := Demo.assessment_of "ConsistencyBot" LONG 0.9 [Demo.finding_of 1] in
  let s1 := Demo.assessment_of "NumericVerifier" LONG 0.9 [] in
  let s2 := Demo.assessment_of "ConsistencyBot" SHORT 0.9 [Demo.finding_of 1] in
  Forall wf_assessment [u1; u2; s1; s2]
  /\ Forall (fun a => AgentAssessment.confidence a == 0.9) [u1; u2; s1; s2]
  /\ ~ 0.9 == 1 # 2
  /\ Spec.distance_to_half (final_risk_score [s1; s2])
     < Spec.distance_to_half (final_risk_score [u1; u2]).
Proof.
  intros u1 u2 s1 s2.
  assert (Hwf : Forall wf_assessment [u1; u2; s1; s2])
    by (subst u1 u2 s1 s2; solve_wf).
  assert (Hconf : Forall (fun a => AgentAssessment.confidence a == 0.9)
                    [u1; u2; s1; s2])
    by (repeat apply List.Forall_cons; try apply List.Forall_nil; reflexivity).
  assert (Hc : ~ 0.9 == 1 # 2) by (intros H; lra).
  split; [exact Hwf |]. split; [exact Hconf |]. split; [exact Hc |].
  refine (proj2 disagreement_pull u1 u2 s1 s2 0.9 Hwf Hconf Hc eq_refl _).
  discriminate.
Defined.

(** The property as the specification states it fails: with the same mean
    confidence in both scenarios, the 1-true/1-false split ends farther
    from 0.5 than the unanimous scenario. *)
Lemma split_not_closer_counterexample :
  Spec.mean_confidence Demo.split_scenario
  == Spec.mean_confidence Demo.unanimous_scenario
  /\ (Spec.true_count Demo.unanimous_scenario = 2%nat
      /\ Spec.false_count Demo.unanimous_scenario = 0%nat)
  /\ (Spec.true_count Demo.split_scenario = 1%nat
      /\ Spec.false_count Demo.split_scenario = 1%nat)
  /\ ~ Spec.distance_to_half
         (ClaimVerification.risk_score
            (aggregate_risk default_config (Demo.claim_of "CLM-1" MED)
               Demo.split_scenario))
       < Spec.distance_to_half
           (ClaimVerification.risk_score
              (aggregate_risk default_config (Demo.claim_of "CLM-1" MED)
                 Demo.unanimous_scenario))
  /\ ~ Spec.distance_to_half (final_risk_score Demo.split_scenario)
       < Spec.distance_to_half (final_risk_score Demo.unanimous_scenario).
Proof.
  split; [vm_compute; reflexivity |].
  split; [split; reflexivity |].
  split; [split; reflexivity |].
  split; vm_compute; discriminate.
Qed.

(** * The overall-action resolver *)

Lemma is_severe_block_spec (v : ClaimVerification) :
  is_severe_block v = true <-> Spec.severe_blocked v.
Proof.
  unfold is_severe_block, Spec.severe_blocked, in_.
  rewrite andb_true_iff, bool_decide_eq_true. cbn [existsb].
  rewrite orb_false_r, orb_true_iff, !bool_decide_eq_true.
  intuition congruence.
Qed.

Lemma severe_block_existsb (verifications : list ClaimVerification) :
  severe_block verifications = existsb is_severe_block verifications.
Proof.
  induction verifications as [| v l IH]; [reflexivity |].
  cbn [severe_block existsb].
  destruct (is_severe_block v); [reflexivity | exact IH].
Qed.

Lemma severe_block_spec (verifications : list ClaimVerification) :
  severe_block verifications = true
  <-> exists v, In v verifications /\ Spec.severe_blocked v.
Proof.
  rewrite severe_block_existsb, existsb_exists.
  split; intros [v [Hin Hv]]; exists v; split; try exact Hin;
    apply is_severe_block_spec; exact Hv.
Qed.

Lemma in_actions_spec (x : RiskAction) (verifications : list ClaimVerification) :
  in_ x (map ClaimVerification.action verifications) = true
  <-> exists v, In v verifications /\ ClaimVerification.action v = x.
Proof.
  unfold in_. rewrite existsb_exists. split.
  - intros [a [Hin Ha]]. apply bool_decide_eq_true in Ha. subst a.
    apply in_map_iff in Hin. destruct Hin as [v [Hv Hin]]. eauto.
  - intros [v [Hin Hv]]. exists x. split.
    + apply in_map_iff. eauto.
    + apply bool_decide_eq_true. reflexivity.
Qed.

(** What the resolver returns on a non-empty list, by the three tests. *)
Lemma determine_overall_action_nonempty
    (verifications : list ClaimVerification) :
  verifications <> [] ->
  determine_overall_action verifications
  = if severe_block verifications then BLOCK
    else if in_ REWRITE (map ClaimVerification.action verifications)
    then REWRITE
    else if in_ BLOCK (map ClaimVerification.action verifications)
    then REWRITE
    else ALLOW.
Proof.
  destruct verifications; [congruence | reflexivity].
Qed.

(** C5: the resolver returns BLOCK when some claim of critical or high
    severity is blocked, whatever the other verifications are; else REWRITE
    when some claim needs a rewrite; else REWRITE, not BLOCK, when some claim
    (then of lower severity) is blocked; else ALLOW; and BLOCK for the empty
    list. *)
Theorem determine_overall_action_precedence
    (verifications : list ClaimVerification) :
  let severe := exists v, In v verifications /\ Spec.severe_blocked v in
  let rewrite_ :=
    exists v, In v verifications /\ ClaimVerification.action v = REWRITE in
  let block :=
    exists v, In v verifications /\ ClaimVerification.action v = BLOCK in
  (verifications = [] -> determine_overall_action verifications = BLOCK)
  /\ (severe -> determine_overall_action verifications = BLOCK)
  /\ (~ severe -> rewrite_ ->
      determine_overall_action verifications = REWRITE)
  /\ (~ severe -> ~ rewrite_ -> block ->
      determine_overall_action verifications = REWRITE)
  /\ (verifications <> [] -> ~ severe -> ~ rewrite_ -> ~ block ->
      determine_overall_action verifications = ALLOW).
Proof.
  intros severe rewrite_ block.
  split; [intros ->; reflexivity |].
  assert (Hne : (exists v, In v verifications) -> verifications <> []).
  { intros [v Hin] ->. destruct Hin. }
  pose proof (severe_block_spec verifications) as Hs.
  pose proof (in_actions_spec REWRITE verifications) as Hr.
  pose proof (in_actions_spec BLOCK verifications) as Hb.
  fold severe in Hs. fold rewrite_ in Hr. fold block in Hb.
  split; [| split; [| split]].
  - intros Hsev. rewrite determine_overall_action_nonempty.
    + apply Hs in Hsev. rewrite Hsev. reflexivity.
    + apply Hne. destruct Hsev as [v [Hin _]]. eauto.
  - intros Hnsev Hrew. rewrite determine_overall_action_nonempty.
    + destruct (severe_block verifications); [exfalso; tauto |].
      apply Hr in Hrew. rewrite Hrew. reflexivity.
    + apply Hne. destruct Hrew as [v [Hin _]]. eauto.
  - intros Hnsev Hnrew Hblk. rewrite determine_overall_action_nonempty.
    + destruct (severe_block verifications); [exfalso; tauto |].
      destruct (in_ REWRITE _); [exfalso; tauto |].
      apply Hb in Hblk. rewrite Hblk. reflexivity.
    + apply Hne. destruct Hblk as [v [Hin _]]. eauto.
  - intros Hnonempty Hnsev Hnrew Hnblk.
    rewrite determine_overall_action_nonempty by exact Hnonempty.
    destruct (severe_block verifications); [exfalso; tauto |].
    destruct (in_ REWRITE _); [exfalso; tauto |].
    destruct (in_ BLOCK _); [exfalso; tauto |]. reflexivity.
Qed.

Lemma determine_overall_action_precedence_witness :
  let verifications :=
    [Demo.verification_of LOW ALLOW; Demo.verification_of CRITICAL BLOCK;
     Demo.verification_of MED ALLOW] in
  (exists v, In v verifications /\ Spec.severe_blocked v)
  /\ determine_overall_action verifications = BLOCK.
Proof.
  intros verifications.
  assert (Hsev : exists v, In v verifications /\ Spec.severe_blocked v).
  { exists (Demo.verification_of CRITICAL BLOCK). split.
    - right. left. reflexivity.
    - split; [reflexivity | left; reflexivity]. }
  split; [exact Hsev |].
  exact (proj1 (proj2 (determine_overall_action_precedence verifications))
           Hsev).
Defined.

(** ** Order of the verifications *)

Lemma existsb_permutation {A} (f : A -> bool) (l l' : list A) :
  Permutation l l' -> existsb f l = existsb f l'.
Proof.
  induction 1 as [| x l l' _ IH | x y l | l l' l'' _ IH1 _ IH2]; cbn.
  - reflexivity.
  - rewrite IH. reflexivity.
  - destruct (f x), (f y); reflexivity.
  - congruence.
Qed.

(** C10: the resolver returns the same action for every permutation of the
    list of verifications. *)
Theorem determine_overall_action_permutation
    (verifications verifications' : list ClaimVerification) :
  Permutation verifications verifications' ->
  determine_overall_action verifications
  = determine_overall_action verifications'.
Proof.
  intros Hperm.
  destruct (decide (verifications = [])) as [-> | Hne].
  - apply Permutation_nil in Hperm. subst. reflexivity.
  - assert (Hne' : verifications' <> []).
    { intros ->. apply Permutation_sym, Permutation_nil in Hperm.
      contradiction. }
    rewrite !determine_overall_action_nonempty by assumption.
    rewrite !severe_block_existsb. unfold in_.
    rewrite (existsb_permutation is_severe_block _ _ Hperm).
    pose proof (Permutation_map ClaimVerification.action Hperm) as Hmap.
    rewrite (existsb_permutation _ _ _ Hmap).
    rewrite (existsb_permutation (fun y => bool_decide (y = BLOCK)) _ _ Hmap).
    reflexivity.
Qed.

Lemma determine_overall_action_permutation_witness :
  let v1 := Demo.verification_of LOW BLOCK in
  let v2 := Demo.verification_of HIGH ALLOW in
  let v3 := Demo.verification_of MED REWRITE in
  Permutation [v1; v2; v3] [v3; v1; v2]
  /\ determine_overall_action [v1; v2; v3]
     = determine_overall_action [v3; v1; v2].
Proof.
  intros v1 v2 v3.
  assert (Hperm : Permutation [v1; v2; v3] [v3; v1; v2]).
  { apply Permutation_sym.
    exact (Permutation_cons_append [v1; v2] v3). }
  split; [exact Hperm |].
  exact (determine_overall_action_permutation _ _ Hperm).
Defined.

(** * The orchestrator *)

Section orchestrator_properties.

Variable config : Config.
Variable extract_claims : string -> string -> list Claim.
Variable ALL_AGENTS : list BaseAgent.
Variable settle :
  string -> list ClaimVerification -> RiskAction -> Settlement.
Variable new_session_id : string.

Lemma extend_nil (w : World) : extend w [] [] = w.
Proof. destruct w. unfold extend. cbn. rewrite !app_nil_r. reflexivity. Qed.

Lemma extend_extend (w : World) (cs cs' : list Call) (es es' : list WSEvent) :
  extend (extend w cs es) cs' es' = extend w (cs ++ cs') (es ++ es').
Proof. unfold extend. cbn. rewrite !app_assoc. reflexivity. Qed.

Lemma record_call_extend (c : Call) (w : World) :
  record_call c w = (Returned tt, extend w [c] []).
Proof. unfold record_call, extend. rewrite app_nil_r. reflexivity. Qed.

Lemma yield_extend (e : WSEvent) (w : World) :
  yield_ e w = (Returned tt, extend w [] [e]).
Proof. unfold yield_, extend. rewrite app_nil_r. reflexivity. Qed.

Lemma await_extract_claims_run (response domain : string) (w : World) :
  await_extract_claims extract_claims response domain w
  = (Returned (extract_claims response domain),
     extend w [CallExtract response domain] []).
Proof.
  unfold await_extract_claims, bind, ret. rewrite record_call_extend.
  reflexivity.
Qed.

Lemma await_verify_run
    (agent : BaseAgent) (claim : Claim) (context : Context) (w : World) :
  await_verify agent claim context w
  = (BaseAgent.verify agent claim context,
     extend w [CallVerify (BaseAgent.name agent) claim context] []).
Proof.
  unfold await_verify, bind. rewrite record_call_extend.
  destruct (BaseAgent.verify agent claim context); reflexivity.
Qed.

Lemma await_settle_run
    (session_id : string) (verifications : list ClaimVerification)
    (overall_action : RiskAction) (w : World) :
  await_settle settle session_id verifications overall_action w
  = (Returned (settle session_id verifications overall_action),
     extend w [CallSettle session_id verifications overall_action] []).
Proof.
  unfold await_settle, bind, ret. rewrite record_call_extend. reflexivity.
Qed.

(** C9: when extraction yields no claim, both modes end at once with the
    action ALLOW: the batch run returns a session without verifications
    and without settlement, the streaming run yields the three events
    session-created, claims-extracted and action ALLOW, and in both the
    only collaborator called is the extraction: no agent and no
    settlement. *)
Theorem no_claims_short_circuit
    (prompt response domain : string) (w : World) :
  extract_claims response domain = [] ->
  run_verification config extract_claims ALL_AGENTS settle new_session_id
    prompt response domain w
  = (Returned
       (VerificationSession.mk new_session_id prompt response [] [] None
          (Some ALLOW)),
     extend w [CallExtract response domain] [])
  /\ run_verification_streaming config extract_claims ALL_AGENTS settle
       new_session_id prompt response domain w
     = (Returned tt,
        extend w [CallExtract response domain]
          [WSEvent.mk SESSION_CREATED
             (SessionCreatedData new_session_id prompt);
           WSEvent.mk CLAIMS_EXTRACTED (ClaimsExtractedData []);
           WSEvent.mk ACTION
             (ActionData "ALLOW" "No verifiable claims found.")]).
Proof.
  intros Hempty. split.
  - unfold run_verification, bind.
    rewrite await_extract_claims_run, Hempty. reflexivity.
  - unfold run_verification_streaming, bind.
    rewrite yield_extend, await_extract_claims_run, Hempty.
    rewrite !yield_extend, !extend_extend. reflexivity.
Qed.

(** ** Batch mode *)

Lemma gather_run (agents : list BaseAgent) (claim : Claim)
    (context : Context) (w : World) :
  gather_return_exceptions
    (map (fun agent => await_verify agent claim context) agents) w
  = (Returned (map (fun agent => BaseAgent.verify agent claim context) agents),
     extend w
       (map (fun agent => CallVerify (BaseAgent.name agent) claim context)
          agents) []).
Proof.
  revert w. induction agents as [| agent agents IH]; intros w.
  - cbn. unfold ret. rewrite extend_nil. reflexivity.
  - cbn [map gather_return_exceptions]. unfold bind, catch at 1.
    rewrite await_verify_run, IH, extend_extend. reflexivity.
Qed.

Lemma filter_valid_omap (claim : Claim) (context : Context)
    (agents : list BaseAgent) :
  filter_valid (map (fun agent => BaseAgent.verify agent claim context) agents)
  = omap (fun agent =>
            match BaseAgent.verify agent claim context with
            | Returned a => Some a
            | Raised _ => None
            end) agents.
Proof.
  induction agents as [| agent agents IH]; [reflexivity |].
  cbn [map filter_valid omap list_omap].
  destruct (BaseAgent.verify agent claim context); rewrite IH; reflexivity.
Qed.

Lemma in_filter_valid (a : AgentAssessment)
    (results : list (Outcome AgentAssessment)) :
  In a (filter_valid results) <-> In (Returned a) results.
Proof.
  induction results as [| [b | e] results IH]; cbn [filter_valid In].
  - tauto.
  - rewrite IH. split; (intros [H | H]; [left; congruence | right; exact H]).
  - rewrite IH. split; [tauto | intros [H | H]; [discriminate | exact H]].
Qed.

Lemma aggregate_risk_fields (claim : Claim)
    (assessments : list AgentAssessment) :
  ClaimVerification.claim (aggregate_risk config claim assessments) = claim
  /\ ClaimVerification.assessments (aggregate_risk config claim assessments)
     = assessments.
Proof.
  destruct assessments as [| a l]; [split; reflexivity |].
  rewrite aggregate_risk_nonempty by discriminate. split; reflexivity.
Qed.

Lemma scored_only_empty (scored : list Claim) :
  Sequencing.scored_only ALL_AGENTS scored ∅.
Proof. intros claim_id l H. rewrite lookup_empty in H. discriminate. Qed.

Lemma scored_only_weaken (before : list Claim) (claim : Claim)
    (m : gmap string (list AgentAssessment)) :
  Sequencing.scored_only ALL_AGENTS before m ->
  Sequencing.scored_only ALL_AGENTS (before ++ [claim]) m.
Proof.
  intros Hm claim_id l Hl. destruct (Hm claim_id l Hl) as [[c [Hin Hid]] Hprov].
  split.
  - exists c. split; [apply in_or_app; left; exact Hin | exact Hid].
  - intros a Ha. destruct (Hprov a Ha) as [c' [agent [context [Hin' Hrest]]]].
    exists c', agent, context.
    split; [apply in_or_app; left; exact Hin' | exact Hrest].
Qed.

Lemma scored_only_store (before : list Claim) (claim : Claim)
    (context : Context) (m : gmap string (list AgentAssessment)) :
  Sequencing.scored_only ALL_AGENTS before m ->
  Sequencing.scored_only ALL_AGENTS (before ++ [claim])
    (<[Claim.id claim :=
         filter_valid
           (map (fun agent => BaseAgent.verify agent claim context)
              ALL_AGENTS)]> m).
Proof.
  intros Hm claim_id l Hl.
  destruct (decide (Claim.id claim = claim_id)) as [Heq | Hneq].
  - rewrite <- Heq, lookup_insert_eq in Hl. injection Hl as <-.
    assert (Hin : In claim (before ++ [claim]))
      by (apply in_or_app; right; left; reflexivity).
    split; [exists claim; auto |]. intros a Ha.
    apply in_filter_valid, in_map_iff in Ha.
    destruct Ha as [agent [Hv Hagent]]. exists claim, agent, context. auto.
  - rewrite lookup_insert_ne in Hl by exact Hneq.
    exact (scored_only_weaken before claim m Hm claim_id l Hl).
Qed.

(** The loop over the claims never raises; the verification of each claim
    is built from what the agents returned; and every agent is called
    with a context that holds only claims scored before. *)
Lemma verify_each_run (claims : list Claim) (domain : string)
    (todo before : list Claim)
    (all_verifications : list ClaimVerification)
    (all_assessments : gmap string (list AgentAssessment)) (w : World) :
  claims = before ++ todo ->
  Sequencing.scored_only ALL_AGENTS before all_assessments ->
  exists new_verifications all_assessments' new_calls,
    verify_each config ALL_AGENTS claims domain todo all_verifications
      all_assessments w
    = (Returned (all_verifications ++ new_verifications, all_assessments'),
       extend w new_calls [])
    /\ Forall2 (Sequencing.built_from_returned ALL_AGENTS) todo
         new_verifications
    /\ Forall (Sequencing.call_in_order ALL_AGENTS claims) new_calls
    /\ Forall (fun call => exists n c x, call = CallVerify n c x) new_calls.
Proof.
  revert before all_verifications all_assessments w.
  induction todo as [| claim todo IH];
    intros before all_verifications all_assessments w Hclaims Hscored.
  - exists [], all_assessments, []. cbn. unfold ret.
    rewrite app_nil_r, extend_nil. repeat split; constructor.
  - cbn [verify_each]. unfold bind at 1. rewrite gather_run.
    set (context := Context.mk (other_claims_of claims claim)
                      all_assessments domain).
    set (valid := filter_valid
                    (map (fun agent => BaseAgent.verify agent claim context)
                       ALL_AGENTS)).
    destruct (IH (before ++ [claim])
                (all_verifications ++ [aggregate_risk config claim valid])
                (<[Claim.id claim := valid]> all_assessments)
                (extend w
                   (map (fun agent =>
                           CallVerify (BaseAgent.name agent) claim context)
                      ALL_AGENTS) []))
      as [new [m' [cs [Hrun [Hbuilt [Horder Hverify]]]]]].
    + rewrite <- app_assoc. exact Hclaims.
    + apply scored_only_store. exact Hscored.
    + exists (aggregate_risk config claim valid :: new), m',
        (map (fun agent => CallVerify (BaseAgent.name agent) claim context)
           ALL_AGENTS ++ cs).
      split; [| split; [| split]].
      * rewrite Hrun, extend_extend, <- app_assoc. reflexivity.
      * constructor; [| exact Hbuilt].
        destruct (aggregate_risk_fields claim valid) as [Hc Ha].
        split; [exact Hc |]. exists context. rewrite Ha.
        apply filter_valid_omap.
      * apply Forall_app. split; [| exact Horder].
        apply List.Forall_forall. intros call Hin.
        apply in_map_iff in Hin. destruct Hin as [agent [<- _]].
        exists before, todo. split; [exact Hclaims | exact Hscored].
      * apply Forall_app. split; [| exact Hverify].
        apply List.Forall_forall. intros call Hin.
        apply in_map_iff in Hin. destruct Hin as [agent [<- _]]. eauto.
Qed.

(** Batch mode always returns a session.  With at least one claim, each
    claim has one verification, built from the assessments the agents
    returned (an agent that raised is left out), a settlement is attached,
    and every call to an agent came with a context in order. *)
Lemma run_verification_run (prompt response domain : string) (w : World) :
  extract_claims response domain <> [] ->
  exists verifications settlement new_calls,
    run_verification config extract_claims ALL_AGENTS settle new_session_id
      prompt response domain w
    = (Returned
         (VerificationSession.mk new_session_id prompt response
            (extract_claims response domain) verifications
            (Some settlement)
            (Some (determine_overall_action verifications))),
       extend w new_calls [])
    /\ Forall2 (Sequencing.built_from_returned ALL_AGENTS)
         (extract_claims response domain) verifications
    /\ Forall (Sequencing.call_in_order ALL_AGENTS
                 (extract_claims response domain)) new_calls.
Proof.
  intros Hne. unfold run_verification, bind at 1.
  rewrite await_extract_claims_run.
  destruct (extract_claims response domain) as [| c cs] eqn:Hclaims;
    [congruence |].
  destruct (verify_each_run (c :: cs) domain (c :: cs) [] [] ∅
              (extend w [CallExtract response domain] []) eq_refl
              (scored_only_empty []))
    as [vs [m' [calls' [Hrun [Hbuilt [Horder _]]]]]].
  unfold bind. rewrite Hrun. cbn [fst app].
  rewrite await_settle_run, !extend_extend. cbn [app].
  eexists vs, _, _. split; [reflexivity |]. split; [exact Hbuilt |].
  constructor; [exact I |]. apply Forall_app. split; [exact Horder |].
  constructor; [exact I | constructor].
Qed.

(** ** Streaming mode *)

Lemma scored_only_append (before : list Claim) (claim : Claim)
    (agent : BaseAgent) (context : Context) (a : AgentAssessment)
    (m : gmap string (list AgentAssessment)) :
  In agent ALL_AGENTS ->
  BaseAgent.verify agent claim context = Returned a ->
  Sequencing.scored_only ALL_AGENTS (before ++ [claim]) m ->
  Sequencing.scored_only ALL_AGENTS (before ++ [claim])
    (append_assessment m claim a).
Proof.
  intros Hagent Hverify Hm claim_id l Hl.
  assert (Hin : In claim (before ++ [claim]))
    by (apply in_or_app; right; left; reflexivity).
  unfold append_assessment in Hl.
  destruct (decide (Claim.id claim = claim_id)) as [Heq | Hneq].
  - split; [exists claim; auto |]. intros b Hb.
    destruct (m !! Claim.id claim) as [old |] eqn:Hold;
      rewrite <- Heq, lookup_insert_eq in Hl; injection Hl as <-.
    + apply in_app_or in Hb. destruct Hb as [Hb | [<- | []]].
      * rewrite <- Heq. exact (proj2 (Hm _ _ Hold) b Hb).
      * exists claim, agent, context. auto.
    + destruct Hb as [<- | []]. exists claim, agent, context. auto.
  - apply Hm.
    destruct (m !! Claim.id claim);
      rewrite lookup_insert_ne in Hl by exact Hneq; exact Hl.
Qed.

(** The loop over the agents: whether it ends or raises, every agent was
    called with a context that holds nothing of a later claim. *)
Lemma stream_agents_run (agents : list BaseAgent) (claims : list Claim)
    (domain : string) (claim : Claim) (before after : list Claim)
    (all_assessments : gmap string (list AgentAssessment)) (w : World) :
  claims = before ++ claim :: after ->
  incl agents ALL_AGENTS ->
  Sequencing.scored_only ALL_AGENTS (before ++ [claim]) all_assessments ->
  exists outcome new_calls new_events,
    stream_agents agents claims domain claim all_assessments w
    = (outcome, extend w new_calls new_events)
    /\ Forall (Sequencing.call_not_ahead ALL_AGENTS claims) new_calls
    /\ match outcome with
       | Returned all_assessments' =>
           Sequencing.scored_only ALL_AGENTS (before ++ [claim])
             all_assessments'
       | Raised _ => True
       end.
Proof.
  intros Hclaims. revert all_assessments w.
  induction agents as [| agent agents IH]; intros m w Hincl Hm.
  - exists (Returned m), [], []. cbn. unfold ret. rewrite extend_nil.
    split; [reflexivity |]. split; [constructor | exact Hm].
  - cbn [stream_agents]. unfold bind at 1. rewrite await_verify_run.
    set (context := Context.mk (other_claims_of claims claim) m domain).
    assert (Hcall : Sequencing.call_not_ahead ALL_AGENTS claims
                      (CallVerify (BaseAgent.name agent) claim context)).
    { exists before, after. split; [exact Hclaims | exact Hm]. }
    destruct (BaseAgent.verify agent claim context) as [a | e] eqn:Hverify.
    + unfold bind at 1. rewrite yield_extend, extend_extend.
      destruct (IH (append_assessment m claim a)
                  (extend w
                     ([CallVerify (BaseAgent.name agent) claim context] ++ [])
                     ([] ++ [agent_quote claim a])))
        as [outcome [cs [es [Hrun [Hcalls Hout]]]]].
      * intros x Hx. apply Hincl. right. exact Hx.
      * apply scored_only_append with (agent := agent) (context := context);
          [apply Hincl; left; reflexivity | exact Hverify | exact Hm].
      * exists outcome, (([CallVerify (BaseAgent.name agent) claim context]
                          ++ []) ++ cs),
          (([] ++ [agent_quote claim a]) ++ es).
        rewrite Hrun, extend_extend. split; [reflexivity |].
        split; [| exact Hout]. cbn [app]. constructor; assumption.
    + exists (Raised e),
        [CallVerify (BaseAgent.name agent) claim context], [].
      split; [reflexivity |]. split; [| exact I].
      constructor; [exact Hcall | constructor].
Qed.

Lemma stream_each_run (claims : list Claim) (domain : string)
    (todo before : list Claim)
    (all_verifications : list ClaimVerification)
    (all_assessments : gmap string (list AgentAssessment)) (w : World) :
  claims = before ++ todo ->
  Sequencing.scored_only ALL_AGENTS before all_assessments ->
  exists outcome new_calls new_events,
    stream_each config ALL_AGENTS claims domain todo all_verifications
      all_assessments w
    = (outcome, extend w new_calls new_events)
    /\ Forall (Sequencing.call_not_ahead ALL_AGENTS claims) new_calls.
Proof.
  revert before all_verifications all_assessments w.
  induction todo as [| claim todo IH]; intros before vs m w Hclaims Hm.
  - exists (Returned (vs, m)), [], []. cbn. unfold ret. rewrite extend_nil.
    split; [reflexivity | constructor].
  - cbn [stream_each]. unfold bind at 1.
    destruct (stream_agents_run ALL_AGENTS claims domain claim before todo m w
                Hclaims (incl_refl _) (scored_only_weaken before claim m Hm))
      as [outcome [cs [es [Hrun [Hcalls Hout]]]]].
    rewrite Hrun. destruct outcome as [m1 | e].
    + destruct (m1 !! Claim.id claim) as [claim_assessments |].
      * unfold bind at 1. rewrite yield_extend, extend_extend.
        destruct (IH (before ++ [claim])
                    (vs ++ [aggregate_risk config claim claim_assessments])
                    m1
                    (extend w (cs ++ [])
                       (es ++ [risk_update claim
                                 (aggregate_risk config claim
                                    claim_assessments)])))
          as [outcome [cs' [es' [Hrun' Hcalls']]]].
        -- rewrite <- app_assoc. exact Hclaims.
        -- exact Hout.
        -- eexists outcome, _, _. rewrite Hrun', extend_extend.
           split; [reflexivity |]. rewrite app_nil_r.
           apply Forall_app. split; assumption.
      * eexists (Raised "KeyError"), cs, es. split; [reflexivity | exact Hcalls].
    + exists (Raised e), cs, es. split; [reflexivity | exact Hcalls].
Qed.

(** In streaming mode too, whether the run ends or raises, no agent is ever
    given assessments of a claim that comes later in the sequence. *)
Lemma run_verification_streaming_run
    (prompt response domain : string) (w : World) :
  exists outcome new_calls new_events,
    run_verification_streaming config extract_claims ALL_AGENTS settle
      new_session_id prompt response domain w
    = (outcome, extend w new_calls new_events)
    /\ Forall (Sequencing.call_not_ahead ALL_AGENTS
                 (extract_claims response domain)) new_calls.
Proof.
  unfold run_verification_streaming, bind at 1 2.
  rewrite yield_extend, await_extract_claims_run, extend_extend.
  unfold bind at 1. rewrite yield_extend, extend_extend.
  destruct (extract_claims response domain) as [| c cs] eqn:Hclaims.
  - unfold bind, ret. rewrite yield_extend, extend_extend.
    eexists _, _, _. split; [reflexivity |].
    constructor; [exact I | constructor].
  - destruct (stream_each_run (c :: cs) domain (c :: cs) [] [] ∅
                (extend w ([] ++ [CallExtract response domain] ++ [])
                   (([WSEvent.mk SESSION_CREATED
                        (SessionCreatedData new_session_id prompt)] ++ [])
                    ++ [claims_extracted (c :: cs)]))
                eq_refl (scored_only_empty []))
      as [outcome [calls' [events' [Hrun Hcalls]]]].
    unfold bind at 1. cbn [app] in *. rewrite Hrun.
    destruct outcome as [r | e].
    + unfold bind, ret.
      rewrite await_settle_run, yield_extend, !extend_extend.
      eexists _, _, _. split; [reflexivity |].
      constructor; [exact I |]. rewrite app_nil_r.
      apply Forall_app. split; [exact Hcalls |].
      constructor; [exact I | constructor].
    + rewrite extend_extend. eexists _, _, _. split; [reflexivity |].
      constructor; [exact I | exact Hcalls].
Qed.

(** An agent that raises ends the streaming run: when every agent before it
    answers for the first claim and it raises, the generator raises its
    exception. *)
Lemma stream_agents_raises (before_agents after_agents : list BaseAgent)
    (agent : BaseAgent) (e : string) (claims : list Claim) (domain : string)
    (claim : Claim) (all_assessments : gmap string (list AgentAssessment))
    (w : World) :
  (forall p context, In p before_agents ->
     exists a, BaseAgent.verify p claim context = Returned a) ->
  (forall context, BaseAgent.verify agent claim context = Raised e) ->
  fst (stream_agents (before_agents ++ agent :: after_agents) claims domain
         claim all_assessments w)
  = Raised e.
Proof.
  intros Hbefore Hraise. revert all_assessments w.
  induction before_agents as [| p ps IH]; intros m w.
  - cbn [app stream_agents]. unfold bind at 1.
    rewrite await_verify_run, Hraise. reflexivity.
  - cbn [app stream_agents]. unfold bind at 1. rewrite await_verify_run.
    destruct (Hbefore p
                (Context.mk (other_claims_of claims claim) m domain)
                (or_introl eq_refl)) as [a ->].
    unfold bind at 1. rewrite yield_extend. apply IH.
    intros q context Hq. apply Hbefore. right. exact Hq.
Qed.

Lemma run_verification_streaming_raises
    (prompt response domain : string) (w : World)
    (claim : Claim) (claims : list Claim)
    (before_agents after_agents : list BaseAgent) (agent : BaseAgent)
    (e : string) :
  extract_claims response domain = claim :: claims ->
  ALL_AGENTS = before_agents ++ agent :: after_agents ->
  (forall p context, In p before_agents ->
     exists a, BaseAgent.verify p claim context = Returned a) ->
  (forall context, BaseAgent.verify agent claim context = Raised e) ->
  fst (run_verification_streaming config extract_claims ALL_AGENTS settle
         new_session_id prompt response domain w)
  = Raised e.
Proof.
  intros Hclaims Hagents Hbefore Hraise.
  unfold run_verification_streaming, bind at 1 2.
  rewrite yield_extend, await_extract_claims_run, Hclaims.
  unfold bind at 1. rewrite yield_extend.
  unfold bind at 1. cbn [stream_each]. unfold bind at 1.
  pose proof (stream_agents_raises before_agents after_agents agent e
                (claim :: claims) domain claim ∅
                (extend
                   (extend
                      (extend w []
                         [WSEvent.mk SESSION_CREATED
                            (SessionCreatedData new_session_id prompt)])
                      [CallExtract response domain] [])
                   [] [claims_extracted (claim :: claims)])
                Hbefore Hraise) as Hstream.
  rewrite <- Hagents in Hstream.
  destruct (stream_agents ALL_AGENTS (claim :: claims) domain claim ∅ _)
    as [outcome w'].
  cbn [fst] in Hstream. subst outcome. reflexivity.
Qed.

End orchestrator_properties.

Lemma no_claims_short_circuit_witness :
  Demo.extract_ids [] "The weather was pleasant." "finance" = []
  /\ run_verification default_config (Demo.extract_ids [])
       Demo.agents_all_steady Demo.settle_stub "SES-1"
       "How was it?" "The weather was pleasant." "finance" empty_world
     = (Returned
          (VerificationSession.mk "SES-1" "How was it?"
             "The weather was pleasant." [] [] None (Some ALLOW)),
        extend empty_world
          [CallExtract "The weather was pleasant." "finance"] []).
Proof.
  split; [reflexivity |].
  apply (no_claims_short_circuit default_config (Demo.extract_ids [])
           Demo.agents_all_steady Demo.settle_stub "SES-1"
           "How was it?" "The weather was pleasant." "finance" empty_world).
  reflexivity.
Defined.

(** ** Streaming mode against batch mode *)

(** C7 at a concrete input: one claim and three agents, the second of which
    raises.  Batch mode returns a session whose only verification is built
    from the two assessments returned, with a settlement.  Streaming mode
    raises the agent's exception after the first agent-quote event: the
    claim is never scored, the third agent is never called and no settlement
    is made. *)
Theorem streaming_verifier_error_aborts :
  (exists session,
     fst Demo.batch_with_failure = Returned session
     /\ map (fun v => map AgentAssessment.agent_name
                        (ClaimVerification.assessments v))
          (VerificationSession.verifications session)
        = [["NumericVerifier"; "ConsistencyBot"]]
     /\ VerificationSession.settlement session <> None)
  /\ fst Demo.streaming_with_failure = Raised "backend unreachable"
  /\ map WSEvent.type (events (snd Demo.streaming_with_failure))
     = [SESSION_CREATED; CLAIMS_EXTRACTED; AGENT_QUOTE]
  /\ map (fun call =>
            match call with
            | CallExtract _ _ => "extract"
            | CallVerify agent _ _ => agent
            | CallSettle _ _ _ => "settle"
            end) (calls (snd Demo.streaming_with_failure))
     = ["extract"; "NumericVerifier"; "RetrieverAgent"].
Proof.
  split.
  - eexists. split; [vm_compute; reflexivity |].
    split; [reflexivity | discriminate].
  - split; [vm_compute; reflexivity |].
    split; vm_compute; reflexivity.
Qed.

(** C8 at a concrete input: one claim and three agents that all answer.  In
    streaming mode the second agent is called with a context whose
    [other_assessments] already holds, under the identifier of the claim in
    flight, the assessment the first agent has just returned; so not every
    call is in order.  In batch mode every call is. *)
Theorem streaming_context_holds_claim_in_flight :
  (exists context,
     nth_error (calls (snd Demo.streaming_all_steady)) 2
     = Some (CallVerify "RetrieverAgent" (Demo.claim_of "CLM-1" HIGH) context)
     /\ Context.other_assessments context !! "CLM-1"%string
        = Some [AgentAssessment.mk "NumericVerifier" "CLM-1" LONG 0.9
                  "summary" [] 0])
  /\ ~ Forall (Sequencing.call_in_order Demo.agents_all_steady
                 [Demo.claim_of "CLM-1" HIGH])
        (calls (snd Demo.streaming_all_steady))
  /\ Forall (Sequencing.call_in_order Demo.agents_all_steady
               [Demo.claim_of "CLM-1" HIGH])
       (calls (snd Demo.batch_all_steady)).
Proof.
  assert (Hcall : exists context,
     nth_error (calls (snd Demo.streaming_all_steady)) 2
     = Some (CallVerify "RetrieverAgent" (Demo.claim_of "CLM-1" HIGH) context)
     /\ Context.other_assessments context !! "CLM-1"%string
        = Some [AgentAssessment.mk "NumericVerifier" "CLM-1" LONG 0.9
                  "summary" [] 0]).
  { eexists. split; vm_compute; reflexivity. }
  split; [exact Hcall |]. split.
  - intros Hall. destruct Hcall as [context [Hnth Hlookup]].
    apply nth_error_In in Hnth.
    pose proof (proj1 (List.Forall_forall _ _) Hall _ Hnth) as Horder.
    destruct Horder as [before [after [Hsplit Hscored]]].
    destruct before as [| c before].
    + destruct (Hscored _ _ Hlookup) as [[c [[] _]] _].
    + apply (f_equal (@length Claim)) in Hsplit.
      rewrite length_app in Hsplit. cbn in Hsplit. lia.
  - destruct (run_verification_run default_config
                (Demo.extract_ids ["CLM-1"]) Demo.agents_all_steady
                Demo.settle_stub "SES-1" "prompt" "response" "finance"
                empty_world ltac:(discriminate))
      as [vs [st [cs [Hrun [_ Horder]]]]].
    unfold Demo.batch_all_steady. rewrite Hrun. cbn [snd extend calls app].
    exact Horder.
Qed.

(** * The collaborators: properties *)

(** ** The aggregator, further *)

(** X1: the verdict and the action of a verification always go together:
    TRUE with ALLOW, UNCERTAIN with REWRITE, FALSE with BLOCK; the only
    other pair, UNCERTAIN with BLOCK, comes exactly from an empty list of
    assessments. *)
Theorem verdict_action_pairs
    (config : Config) (claim : Claim) (assessments : list AgentAssessment) :
  let v := aggregate_risk config claim assessments in
  (assessments = [] ->
   ClaimVerification.verdict v = UNCERTAIN
   /\ ClaimVerification.action v = BLOCK)
  /\ (assessments <> [] ->
      (ClaimVerification.verdict v = TRUE
       /\ ClaimVerification.action v = ALLOW)
      \/ (ClaimVerification.verdict v = UNCERTAIN
          /\ ClaimVerification.action v = REWRITE)
      \/ (ClaimVerification.verdict v = FALSE
          /\ ClaimVerification.action v = BLOCK))
  /\ (ClaimVerification.action v = ALLOW
      <-> ClaimVerification.verdict v = TRUE)
  /\ (ClaimVerification.verdict v = FALSE
      -> ClaimVerification.action v = BLOCK).
Proof.
  intros v. subst v. destruct (decide (assessments = [])) as [-> | Hne].
  - cbn. repeat split; try congruence; intros; discriminate.
  - rewrite (aggregate_risk_nonempty config claim assessments Hne).
    cbn [ClaimVerification.verdict ClaimVerification.action].
    destruct (decide_action_cases config (Claim.severity claim)
                (final_risk_score assessments))
      as [[_ ->] | [[_ [_ ->]] | [_ [_ ->]]]]; cbn [fst snd];
      (split; [congruence |]); (split; [intros _; auto |]);
      (split; [split; congruence | congruence]).
Qed.

Lemma verdict_action_pairs_witness :
  let assessments :=
    [Demo.assessment_of "NumericVerifier" LONG 0.9 [Demo.finding_of 0.9]] in
  let v := aggregate_risk default_config (Demo.claim_of "CLM-1" MED)
             assessments in
  assessments <> []
  /\ ((ClaimVerification.verdict v = TRUE
       /\ ClaimVerification.action v = ALLOW)
      \/ (ClaimVerification.verdict v = UNCERTAIN
          /\ ClaimVerification.action v = REWRITE)
      \/ (ClaimVerification.verdict v = FALSE
          /\ ClaimVerification.action v = BLOCK)).
Proof.
  intros assessments v.
  assert (Hne : assessments <> []) by discriminate.
  split; [exact Hne |].
  exact (proj1 (proj2 (verdict_action_pairs default_config
                         (Demo.claim_of "CLM-1" MED) assessments)) Hne).
Defined.

(** The finding picked by [max] over a non-empty list. *)
Lemma max_relevance_split (best : Finding) (rest : list Finding) :
  exists before after,
    best :: rest = before ++ max_relevance best rest :: after
    /\ Forall (fun f => Finding.relevance f
                        < Finding.relevance (max_relevance best rest)) before
    /\ Forall (fun f => Finding.relevance f
                        <= Finding.relevance (max_relevance best rest)) after.
Proof.
  assert (Hgen : forall rest best seen,
    Forall (fun f => Finding.relevance f <= Finding.relevance best) seen ->
    exists before after,
      best :: seen ++ rest
      = before ++ max_relevance best rest :: after
      /\ (before = [] \/
          exists skipped, before = best :: skipped
            /\ Forall (fun f => Finding.relevance f
                        < Finding.relevance (max_relevance best rest))
                 before)
      /\ Forall (fun f => Finding.relevance f
                          <= Finding.relevance (max_relevance best rest))
           after
      /\ (before = [] -> max_relevance best rest = best)).
  { clear. induction rest as [| f rest IH]; intros best seen Hseen.
    - exists [], seen. rewrite app_nil_r. cbn. auto.
    - cbn [max_relevance].
      cmp_cases (Finding.relevance f) (Finding.relevance best).
      + destruct (IH f [] (List.Forall_nil _))
          as [before [after [Heq [Hbefore [Hafter Hnil]]]]].
        cbn [app] in Heq.
        assert (Hle : Finding.relevance f
                      <= Finding.relevance (max_relevance f rest)).
        { destruct Hbefore as [-> | [skipped [-> Hlt]]].
          - rewrite (Hnil eq_refl). apply Qle_refl.
          - inversion Hlt; subst. apply Qlt_le_weak. assumption. }
        exists ((best :: seen) ++ before), after.
        split; [rewrite <- app_assoc, <- Heq; reflexivity |].
        split; [| split; [exact Hafter |]].
        * right. exists (seen ++ before). split; [reflexivity |].
          cbn [app]. constructor; [lra |].
          apply Forall_app. split.
          -- eapply Forall_impl; [exact Hseen |]. cbn. intros g Hg. lra.
          -- destruct Hbefore as [-> | [skipped [-> Hlt]]];
               [constructor | exact Hlt].
        * discriminate.
      + destruct (IH best (seen ++ [f]))
          as [before [after [Heq [Hbefore [Hafter Hnil]]]]].
        { apply Forall_app. split; [exact Hseen |].
          constructor; [exact Hcmp | constructor]. }
        exists before, after. rewrite <- app_assoc in Heq. cbn [app] in Heq.
        auto. }
  destruct (Hgen rest best [] (List.Forall_nil _))
    as [before [after [Heq [Hbefore [Hafter _]]]]].
  exists before, after. cbn [app] in Heq. split; [exact Heq |].
  split; [| exact Hafter].
  destruct Hbefore as [-> | [skipped [-> Hlt]]]; [constructor | exact Hlt].
Qed.

(** X2: in the rationale of a FALSE verdict, the key finding is the first
    finding of largest relevance among the findings of the verifiers that
    believe the claim false: every finding before it is strictly less
    relevant, none after it is more relevant, and its text is cut to 120
    characters. *)
Theorem rationale_key_finding
    (claim : Claim) (assessments : list AgentAssessment) (risk_score : Q)
    (action : RiskAction) (f : Finding) (fs : list Finding) :
  flat_map AgentAssessment.findings (List.filter is_short assessments)
  = f :: fs ->
  exists top before after,
    f :: fs = before ++ top :: after
    /\ Forall (fun g => Finding.relevance g < Finding.relevance top) before
    /\ Forall (fun g => Finding.relevance g <= Finding.relevance top) after
    /\ _generate_rationale claim assessments risk_score FALSE action
       = join " "
           [("Claim scored " +:+ format_percent0 risk_score
             +:+ " factuality.")%string;
            (pretty (length (List.filter is_short assessments))
             +:+ "/3 verifiers flagged issues ("
             +:+ join ", "
                   (map AgentAssessment.agent_name
                      (List.filter is_short assessments))
             +:+ ").")%string;
            ("Key finding: " +:+ prefix_ 120 (Finding.text top))%string].
Proof.
  intros Hfindings.
  destruct (max_relevance_split f fs) as [before [after [Hsplit [Hb Ha]]]].
  exists (max_relevance f fs), before, after.
  split; [exact Hsplit |]. split; [exact Hb |]. split; [exact Ha |].
  unfold _generate_rationale. rewrite Hfindings.
  destruct (List.filter is_short assessments) as [| a l]; [discriminate |].
  reflexivity.
Qed.

Lemma rationale_key_finding_witness :
  let assessments :=
    [Demo.assessment_of "NumericVerifier" SHORT 0.9
       [Finding.mk FLAG "first flag" "scan" 0.84;
        Finding.mk CONTRADICTION "the filing says otherwise" "filing" 0.97];
     Demo.assessment_of "RetrieverAgent" LONG 0.6 [Demo.finding_of 0.99];
     Demo.assessment_of "ConsistencyBot" SHORT 0.8
       [Finding.mk INCONSISTENCY "as relevant, but later" "chain" 0.97]] in
  exists top before after,
    [Finding.mk FLAG "first flag" "scan" 0.84;
     Finding.mk CONTRADICTION "the filing says otherwise" "filing" 0.97;
     Finding.mk INCONSISTENCY "as relevant, but later" "chain" 0.97]
    = before ++ top :: after
    /\ Forall (fun g => Finding.relevance g < Finding.relevance top) before
    /\ Forall (fun g => Finding.relevance g <= Finding.relevance top) after
    /\ _generate_rationale (Demo.claim_of "CLM-1" MED) assessments 0.1
         FALSE BLOCK
       = join " "
           [("Claim scored " +:+ format_percent0 0.1
             +:+ " factuality.")%string;
            (pretty (length (List.filter is_short assessments))
             +:+ "/3 verifiers flagged issues ("
             +:+ join ", "
                   (map AgentAssessment.agent_name
                      (List.filter is_short assessments))
             +:+ ").")%string;
            ("Key finding: " +:+ prefix_ 120 (Finding.text top))%string].
Proof.
  intros assessments.
  exact (rationale_key_finding (Demo.claim_of "CLM-1" MED) assessments 0.1
           BLOCK _ _ eq_refl).
Defined.

(** High scores under any configuration. *)
Lemma decide_action_high (config : Config) (severity : Severity) (r : Q) :
  (0.95 <= r -> decide_action config severity r = (TRUE, ALLOW))
  /\ (0.90 <= r -> snd (decide_action config severity r) <> BLOCK).
Proof.
  pose proof (adjusted_allow_capped config severity) as Hcap.
  pose proof (adjusted_rewrite_gap config severity) as Hgap.
  destruct (decide_action_cases config severity r)
    as [[Ha ->] | [[Ha [Hw ->]] | [Ha [Hw ->]]]]; cbn [snd];
    split; intros Hr; try reflexivity; try discriminate; exfalso; lra.
Qed.

(** X3: whatever the configured thresholds and the severity, a claim whose
    final score is at least 0.95 is allowed and one whose final score is at
    least 0.90 is not blocked: the allow floor is capped at 0.95 and the
    rewrite floor stays 0.05 below it. *)
Theorem high_score_never_refused
    (config : Config) (claim : Claim) (assessments : list AgentAssessment) :
  assessments <> [] ->
  (0.95 <= final_risk_score assessments ->
   ClaimVerification.action (aggregate_risk config claim assessments) = ALLOW)
  /\ (0.90 <= final_risk_score assessments ->
      ClaimVerification.action (aggregate_risk config claim assessments)
      <> BLOCK).
Proof.
  intros Hne. rewrite (aggregate_risk_nonempty config claim assessments Hne).
  cbn [ClaimVerification.action].
  destruct (decide_action_high config (Claim.severity claim)
              (final_risk_score assessments)) as [Hallow Hblock].
  split; [intros Hr; rewrite (Hallow Hr); reflexivity | exact Hblock].
Qed.

Lemma high_score_never_refused_witness :
  let config := {| RISK_THRESHOLD_ALLOW := 5; RISK_THRESHOLD_REWRITE := 5 |} in
  let assessments := [Demo.assessment_of "NumericVerifier" LONG 0.96 []] in
  assessments <> []
  /\ 0.95 <= final_risk_score assessments
  /\ ClaimVerification.action
       (aggregate_risk config (Demo.claim_of "CLM-1" CRITICAL) assessments)
     = ALLOW.
Proof.
  intros config assessments.
  assert (Hne : assessments <> []) by discriminate.
  assert (Hr : 0.95 <= final_risk_score assessments)
    by (vm_compute; discriminate).
  split; [exact Hne |]. split; [exact Hr |].
  exact (proj1 (high_score_never_refused config
                  (Demo.claim_of "CLM-1" CRITICAL) assessments Hne) Hr).
Defined.

(** ** The resolver, further *)

Lemma in_actions_app (x : RiskAction) (l l' : list ClaimVerification) :
  in_ x (map ClaimVerification.action (l ++ l'))
  = in_ x (map ClaimVerification.action l)
    || in_ x (map ClaimVerification.action l').
Proof. unfold in_. rewrite map_app, existsb_app. reflexivity. Qed.

Lemma severe_block_app (l l' : list ClaimVerification) :
  severe_block (l ++ l') = severe_block l || severe_block l'.
Proof. rewrite !severe_block_existsb, existsb_app. reflexivity. Qed.

(** The overall action is ALLOW exactly when every verification of a
    non-empty list is allowed. *)
Lemma overall_allow_iff (verifications : list ClaimVerification) :
  determine_overall_action verifications = ALLOW
  <-> verifications <> []
      /\ Forall (fun v => ClaimVerification.action v = ALLOW) verifications.
Proof.
  split.
  - intros Hallow.
    assert (Hne : verifications <> [])
      by (intros ->; discriminate Hallow).
    split; [exact Hne |].
    rewrite (determine_overall_action_nonempty _ Hne) in Hallow.
    destruct (severe_block verifications); [discriminate |].
    destruct (in_ REWRITE _) eqn:Hr; [discriminate |].
    destruct (in_ BLOCK _) eqn:Hb; [discriminate |].
    apply List.Forall_forall. intros v Hin.
    destruct (ClaimVerification.action v) eqn:Hv; [reflexivity | |].
    + assert (in_ REWRITE (map ClaimVerification.action verifications)
              = true) by (apply in_actions_spec; eauto). congruence.
    + assert (in_ BLOCK (map ClaimVerification.action verifications)
              = true) by (apply in_actions_spec; eauto). congruence.
  - intros [Hne Hall].
    rewrite (determine_overall_action_nonempty _ Hne).
    assert (Hnot : forall x, x <> ALLOW ->
              in_ x (map ClaimVerification.action verifications) = false).
    { intros x Hx. apply not_true_is_false. intros Hin.
      apply in_actions_spec in Hin. destruct Hin as [v [Hin Hv]].
      rewrite (proj1 (List.Forall_forall _ _) Hall v Hin) in Hv.
      congruence. }
    destruct (severe_block verifications) eqn:Hs.
    + apply severe_block_spec in Hs. destruct Hs as [v [Hin [Hv _]]].
      rewrite (proj1 (List.Forall_forall _ _) Hall v Hin) in Hv.
      discriminate.
    + rewrite !Hnot by discriminate. reflexivity.
Qed.

(** X4: the overall action is ALLOW exactly when there is at least one
    verification and all are allowed, and BLOCK exactly when there is none
    or some claim of critical or high severity is blocked.  Verifying
    further claims never makes the overall action of a non-empty list more
    lenient. *)
Theorem overall_action_escalates
    (verifications more : list ClaimVerification) :
  (determine_overall_action verifications = ALLOW
   <-> verifications <> []
       /\ Forall (fun v => ClaimVerification.action v = ALLOW) verifications)
  /\ (determine_overall_action verifications = BLOCK
      <-> verifications = []
          \/ exists v, In v verifications /\ Spec.severe_blocked v)
  /\ (verifications <> [] ->
      (Spec.action_rank (determine_overall_action verifications)
       <= Spec.action_rank
            (determine_overall_action (verifications ++ more)))%nat).
Proof.
  split; [| split].
  - apply overall_allow_iff.
  - split.
    + intros Hblock.
      destruct (decide (verifications = [])) as [-> | Hne]; [left; auto |].
      right. apply severe_block_spec.
      rewrite (determine_overall_action_nonempty _ Hne) in Hblock.
      destruct (severe_block verifications); [reflexivity |].
      destruct (in_ REWRITE _); [discriminate |].
      destruct (in_ BLOCK _); discriminate.
    + intros [-> | Hsev]; [reflexivity |].
      assert (Hne : verifications <> []).
      { destruct Hsev as [v [Hin _]]. intros ->. destruct Hin. }
      rewrite (determine_overall_action_nonempty _ Hne).
      apply severe_block_spec in Hsev. rewrite Hsev. reflexivity.
  - intros Hne.
    assert (Hne' : verifications ++ more <> []).
    { destruct verifications; [congruence | discriminate]. }
    rewrite (determine_overall_action_nonempty _ Hne),
      (determine_overall_action_nonempty _ Hne').
    rewrite severe_block_app, !in_actions_app.
    destruct (severe_block verifications); cbn [orb]; [cbn; lia |].
    destruct (in_ REWRITE (map ClaimVerification.action verifications));
      cbn [orb].
    { destruct (severe_block more); cbn; lia. }
    destruct (in_ BLOCK (map ClaimVerification.action verifications));
      cbn [orb].
    { destruct (severe_block more); [cbn; lia |].
      destruct (in_ REWRITE _); cbn; lia. }
    cbn. lia.
Qed.

Lemma overall_action_escalates_witness :
  let verifications := [Demo.verification_of LOW ALLOW] in
  let more := [Demo.verification_of HIGH BLOCK] in
  verifications <> []
  /\ (Spec.action_rank (determine_overall_action verifications)
      <= Spec.action_rank
            (determine_overall_action (verifications ++ more)))%nat.
Proof.
  intros verifications more.
  assert (Hne : verifications <> []) by discriminate.
  split; [exact Hne |].
  exact (proj2 (proj2 (overall_action_escalates verifications more)) Hne).
Defined.

(** ** The settlement *)

(** Evaluates the tests [x in xs] on closed terms. *)
Ltac eval_in :=
  repeat match goal with
  | |- context [@in_ ?A ?d ?t ?l] =>
      let b := eval vm_compute in (@in_ A d t l) in
      progress change (@in_ A d t l) with b
  end.

Lemma add3_zero (x : nat * nat * nat) : add3 x (0, 0, 0)%nat = x.
Proof. destruct x as [[a b] c]. cbn. f_equal; [f_equal |]; lia. Qed.

Lemma counters_of_app (l l' : list Finding) :
  counters_of (l ++ l') = add3 (counters_of l) (counters_of l').
Proof.
  unfold counters_of, count_types, add3.
  rewrite !List.filter_app, !length_app. reflexivity.
Qed.

Lemma add3_assoc (x y z : nat * nat * nat) :
  add3 (add3 x y) z = add3 x (add3 y z).
Proof.
  destruct x as [[a b] c], y as [[a' b'] c'], z as [[a'' b''] c''].
  cbn. f_equal; [f_equal |]; lia.
Qed.

Lemma tally_finding_counters (acc : nat * nat * nat) (f : Finding) :
  tally_finding acc f = add3 acc (counters_of [f]).
Proof.
  destruct acc as [[a b] c].
  unfold tally_finding, counters_of, count_types.
  cbn [List.filter]. destruct (Finding.type f); eval_in; cbn;
    f_equal; try f_equal; lia.
Qed.

Lemma tally_findings_counters (fs : list Finding) (acc : nat * nat * nat) :
  fold_left tally_finding fs acc = add3 acc (counters_of fs).
Proof.
  revert acc. induction fs as [| f fs IH]; intros acc.
  - cbn [fold_left]. symmetry. apply add3_zero.
  - cbn [fold_left]. rewrite IH, tally_finding_counters, add3_assoc.
    rewrite <- counters_of_app. reflexivity.
Qed.

Lemma tally_assessments_counters
    (l : list AgentAssessment) (acc : nat * nat * nat) :
  fold_left tally_assessment l acc
  = add3 acc (counters_of (flat_map AgentAssessment.findings l)).
Proof.
  revert acc. induction l as [| a l IH]; intros acc.
  - cbn [fold_left flat_map]. symmetry. apply add3_zero.
  - cbn [fold_left flat_map]. unfold tally_assessment at 2.
    rewrite IH, tally_findings_counters, add3_assoc, <- counters_of_app.
    reflexivity.
Qed.

Lemma tally_evidence_counters (verifications : list ClaimVerification) :
  tally_evidence verifications = counters_of (all_findings verifications).
Proof.
  unfold tally_evidence, all_findings.
  assert (Hgen : forall acc,
            fold_left tally_verification verifications acc
            = add3 acc
                (counters_of
                   (flat_map
                      (fun v => flat_map AgentAssessment.findings
                                  (ClaimVerification.assessments v))
                      verifications))).
  { induction verifications as [| v l IH]; intros acc.
    - cbn [fold_left flat_map]. symmetry. apply add3_zero.
    - cbn [fold_left flat_map]. unfold tally_verification at 2.
      rewrite IH, tally_assessments_counters, add3_assoc, <- counters_of_app.
      reflexivity. }
  rewrite Hgen. destruct (counters_of _) as [[a b] c]. reflexivity.
Qed.


Lemma count_types_partition (findings : list Finding) :
  (count_types [CONFIRMED; SUPPORTS; CONSISTENT] findings
   + count_types [CONTRADICTION; NOT_FOUND; INCONSISTENCY] findings
   + count_types [FLAG; PATTERN] findings
   = length findings)%nat.
Proof.
  unfold count_types. induction findings as [| f fs IH]; [reflexivity |].
  cbn [List.filter length].
  destruct (Finding.type f); eval_in; cbn [length]; lia.
Qed.

(** X5: the local settlement counts every finding of every assessment of
    every verification exactly once: the supporting, contradicting and
    neutral counts are the numbers of findings of the three classes of
    finding types, and they add up to the number of findings. *)
Theorem settlement_counts_every_finding (session_id : string)
    (verifications : list ClaimVerification) (overall_action : RiskAction) :
  let st := _settle_local session_id verifications overall_action in
  let findings := all_findings verifications in
  Settlement.evidence_supporting st
  = Z.of_nat (count_types [CONFIRMED; SUPPORTS; CONSISTENT] findings)
  /\ Settlement.evidence_contradicting st
     = Z.of_nat (count_types [CONTRADICTION; NOT_FOUND; INCONSISTENCY] findings)
  /\ Settlement.evidence_neutral st
     = Z.of_nat (count_types [FLAG; PATTERN] findings)
  /\ (Settlement.evidence_supporting st
      + Settlement.evidence_contradicting st
      + Settlement.evidence_neutral st
      = Z.of_nat (length findings))%Z.
Proof.
  intros st findings.
  assert (Hfields :
    Settlement.evidence_supporting st
    = Z.of_nat (count_types [CONFIRMED; SUPPORTS; CONSISTENT] findings)
    /\ Settlement.evidence_contradicting st
       = Z.of_nat
           (count_types [CONTRADICTION; NOT_FOUND; INCONSISTENCY] findings)
    /\ Settlement.evidence_neutral st
       = Z.of_nat (count_types [FLAG; PATTERN] findings)).
  { subst st findings. unfold _settle_local.
    rewrite tally_evidence_counters. unfold counters_of.
    destruct (_ && _); [cbn; auto |].
    destruct (nonempty _); [cbn; auto |].
    destruct (_ && _); cbn; auto. }
  destruct Hfields as [Hs [Hc Hn]].
  split; [exact Hs |]. split; [exact Hc |]. split; [exact Hn |].
  rewrite Hs, Hc, Hn, <- !Nat2Z.inj_add, count_types_partition.
  reflexivity.
Qed.

Lemma nonempty_filter {A} (f : A -> bool) (l : list A) :
  nonempty (List.filter f l) = true <-> exists x, In x l /\ f x = true.
Proof.
  split.
  - destruct (List.filter f l) as [| x l'] eqn:Hf; [discriminate |].
    intros _. exists x. apply filter_In. rewrite Hf. left. reflexivity.
  - intros [x Hx]. apply filter_In in Hx.
    destruct (List.filter f l); [destruct Hx | reflexivity].
Qed.

Lemma filter_keeps_all {A} (f : A -> bool) (l : list A) :
  length (List.filter f l) = length l <-> Forall (fun x => f x = true) l.
Proof.
  induction l as [| x l IH]; cbn [List.filter length].
  - split; [constructor | reflexivity].
  - pose proof (List.filter_length_le f l) as Hle.
    destruct (f x) eqn:Hx; cbn [length].
    + split.
      * intros Hlen. constructor; [exact Hx |]. apply IH. lia.
      * intros Hall. inversion Hall; subst. f_equal. apply IH. assumption.
    + split; [lia |]. intros Hall. inversion Hall; subst. congruence.
Qed.

Lemma has_verdict_true (verdict : Verdict) (v : ClaimVerification) :
  has_verdict verdict v = true <-> ClaimVerification.verdict v = verdict.
Proof. unfold has_verdict. apply bool_decide_eq_true. Qed.

(** The confidence of the local settlement, by the three tests of the
    source. *)
Lemma settle_local_confidence_cases (session_id : string)
    (verifications : list ClaimVerification) (overall_action : RiskAction) :
  let false_claims := List.filter (has_verdict FALSE) verifications in
  let true_claims := List.filter (has_verdict TRUE) verifications in
  Settlement.confidence
    (_settle_local session_id verifications overall_action)
  == if nonempty false_claims && negb (nonempty true_claims) then 0.95
     else if nonempty false_claims then 0.90
     else if nonempty true_claims
             && (length true_claims =? length verifications)%nat then 0.97
     else 0.75.
Proof.
  unfold _settle_local.
  destruct (tally_evidence verifications) as [[s c] n].
  destruct (_ && _); [vm_compute; reflexivity |].
  destruct (nonempty _); [vm_compute; reflexivity |].
  destruct (_ && _); vm_compute; reflexivity.
Qed.

(** X6: the confidence of the local settlement follows a fixed table of
    the verdicts: 0.95 when some claim is FALSE and none is TRUE, 0.90 when
    some claim is FALSE and some is TRUE, 0.97 when there is a claim and all
    are TRUE, and 0.75 otherwise (no claim at all, or some claim UNCERTAIN
    and none FALSE). *)
Theorem settle_local_confidence_table (session_id : string)
    (verifications : list ClaimVerification) (overall_action : RiskAction) :
  let st := _settle_local session_id verifications overall_action in
  let some_false :=
    exists v, In v verifications /\ ClaimVerification.verdict v = FALSE in
  let some_true :=
    exists v, In v verifications /\ ClaimVerification.verdict v = TRUE in
  let some_uncertain :=
    exists v, In v verifications /\ ClaimVerification.verdict v = UNCERTAIN in
  (some_false -> ~ some_true -> Settlement.confidence st == 0.95)
  /\ (some_false -> some_true -> Settlement.confidence st == 0.90)
  /\ (verifications <> [] ->
      Forall (fun v => ClaimVerification.verdict v = TRUE) verifications ->
      Settlement.confidence st == 0.97)
  /\ (~ some_false -> verifications = [] \/ some_uncertain ->
      Settlement.confidence st == 0.75).
Proof.
  intros st some_false some_true some_uncertain. subst st.
  pose proof (settle_local_confidence_cases session_id verifications
                overall_action) as Hc. cbv zeta in Hc.
  pose proof (nonempty_filter (has_verdict FALSE) verifications) as Hf.
  pose proof (nonempty_filter (has_verdict TRUE) verifications) as Ht.
  assert (HF : nonempty (List.filter (has_verdict FALSE) verifications) = true
               <-> some_false).
  { rewrite Hf. split; intros [v [Hin Hv]]; exists v; split; try exact Hin;
      apply has_verdict_true; exact Hv. }
  assert (HT : nonempty (List.filter (has_verdict TRUE) verifications) = true
               <-> some_true).
  { rewrite Ht. split; intros [v [Hin Hv]]; exists v; split; try exact Hin;
      apply has_verdict_true; exact Hv. }
  clear Hf Ht.
  destruct (nonempty (List.filter (has_verdict FALSE) verifications)) eqn:Ef;
  destruct (nonempty (List.filter (has_verdict TRUE) verifications)) eqn:Et;
  cbn [andb negb] in Hc.
  - (* some false, some true *)
    repeat split; intros; try exact Hc; exfalso.
    + apply H0. apply HT. reflexivity.
    + destruct (proj1 HF eq_refl) as [v [Hin Hv]].
      rewrite (proj1 (List.Forall_forall _ _) H0 v Hin) in Hv. discriminate.
    + apply H. apply HF. reflexivity.
  - (* some false, none true *)
    repeat split; intros; try exact Hc; exfalso.
    + apply HT in H0. discriminate.
    + destruct (proj1 HF eq_refl) as [v [Hin Hv]].
      rewrite (proj1 (List.Forall_forall _ _) H0 v Hin) in Hv. discriminate.
    + apply H. apply HF. reflexivity.
  - (* none false, some true *)
    assert (Hnf : ~ some_false).
    { intros H. apply HF in H. discriminate. }
    split; [intros H; contradiction |]. split; [intros H; contradiction |].
    split.
    + intros Hne Hall.
      assert (Hlen : length (List.filter (has_verdict TRUE) verifications)
                     = length verifications).
      { apply filter_keeps_all. eapply Forall_impl; [exact Hall |].
        intros v Hv. apply has_verdict_true. exact Hv. }
      rewrite Hlen, Nat.eqb_refl in Hc. exact Hc.
    + intros _ Hcase.
      assert (Hlen : (length (List.filter (has_verdict TRUE) verifications)
                      =? length verifications)%nat = false).
      { apply Nat.eqb_neq. intros Hlen. apply filter_keeps_all in Hlen.
        destruct Hcase as [-> | [v [Hin Hv]]]; [discriminate Et |].
        pose proof (proj1 (List.Forall_forall _ _) Hlen v Hin) as Hv'.
        apply has_verdict_true in Hv'. congruence. }
      rewrite Hlen in Hc. exact Hc.
  - (* none false, none true *)
    assert (Hnf : ~ some_false).
    { intros H. apply HF in H. discriminate. }
    split; [intros H; contradiction |]. split; [intros H; contradiction |].
    split; [| intros _ _; exact Hc].
    intros Hne Hall. exfalso.
    destruct verifications as [| v l]; [congruence |].
    inversion Hall; subst.
    assert (some_true) by (exists v; split; [left; reflexivity | assumption]).
    apply HT in H. discriminate.
Qed.

Lemma settle_local_confidence_table_witness :
  let verifications :=
    [ClaimVerification.mk (Demo.claim_of "CLM-1" HIGH) 0.9 TRUE ALLOW "" [];
     ClaimVerification.mk (Demo.claim_of "CLM-2" LOW) 0.85 TRUE ALLOW "" []] in
  verifications <> []
  /\ Forall (fun v => ClaimVerification.verdict v = TRUE) verifications
  /\ Settlement.confidence (_settle_local "SES-1" verifications ALLOW)
     == 0.97.
Proof.
  intros verifications.
  assert (Hne : verifications <> []) by discriminate.
  assert (Hall : Forall (fun v => ClaimVerification.verdict v = TRUE)
                   verifications)
    by (repeat apply List.Forall_cons; try apply List.Forall_nil;
        reflexivity).
  split; [exact Hne |]. split; [exact Hall |].
  exact (proj1 (proj2 (proj2 (settle_local_confidence_table "SES-1"
                                verifications ALLOW))) Hne Hall).
Defined.



(** ** The agents *)

Lemma wf_findingb_spec (f : Finding) : wf_findingb f = true <-> wf_finding f.
Proof.
  unfold wf_findingb, wf_finding. rewrite andb_true_iff, !Qle_bool_iff.
  reflexivity.
Qed.

Lemma wf_assessmentb_spec (a : AgentAssessment) :
  wf_assessmentb a = true <-> wf_assessment a.
Proof.
  unfold wf_assessmentb, wf_assessment.
  rewrite !andb_true_iff, !Qle_bool_iff, forallb_forall, List.Forall_forall.
  split; intros [Hc Hf]; (split; [exact Hc |]); intros f Hin;
    apply wf_findingb_spec, Hf, Hin.
Qed.

Lemma validated_wf (a : AgentAssessment) :
  wf_assessment a -> validated a = Returned a.
Proof.
  intros Hwf. unfold validated.
  rewrite (proj2 (wf_assessmentb_spec a) Hwf). reflexivity.
Qed.

Lemma Forall_flat_map_intro {A B} (P : B -> Prop) (g : A -> list B)
    (l : list A) :
  (forall x, In x l -> Forall P (g x)) -> Forall P (flat_map g l).
Proof.
  intros H. induction l as [| x l IH]; cbn [flat_map]; [constructor |].
  apply Forall_app. split; [apply H; left; reflexivity |].
  apply IH. intros y Hy. apply H. right. exact Hy.
Qed.

Lemma min_bounds (cap x lo : Q) :
  lo <= cap -> lo <= x -> lo <= min_ cap x /\ min_ cap x <= cap.
Proof.
  intros Hcap Hx. destruct (min_spec cap x) as [[H ->] | [H ->]]; lra.
Qed.

Lemma of_nat_pos (n : nat) : (0 < n)%nat -> 1 <= of_nat_ n.
Proof.
  intros Hn. unfold of_nat_. change 1 with (inject_Z 1).
  rewrite <- Zle_Qle. lia.
Qed.

Lemma of_nat_nonneg (n : nat) : 0 <= of_nat_ n.
Proof.
  unfold of_nat_. change 0 with (inject_Z 0). rewrite <- Zle_Qle. lia.
Qed.

Ltac solve_raised :=
  repeat match goal with
  | |- Forall _ [] => apply List.Forall_nil
  | |- Forall _ (_ :: _) => apply List.Forall_cons
  | |- Forall _ (if ?b then _ else _) => destruct b
  | |- Forall _ (match ?x with _ => _ end) => destruct x
  | |- raised_finding _ =>
      split; [cbn; tauto | split; cbn; lra]
  end.

(** When every finding is of a counted type and both counts are zero, there
    is no finding. *)
Lemma uncounted_none (types types' : list FindingType)
    (findings : list Finding) :
  Forall (fun f => in_ (Finding.type f) types = true
                   \/ in_ (Finding.type f) types' = true) findings ->
  (0 <? count_types types findings)%nat = false ->
  (0 <? count_types types' findings)%nat = false ->
  findings = [].
Proof.
  intros Hall H1 H2. destruct findings as [| f fs]; [reflexivity |].
  exfalso. inversion Hall as [| ? ? Hin _]; subst.
  apply Nat.ltb_ge in H1, H2. unfold count_types in H1, H2.
  cbn [List.filter] in H1, H2.
  destruct Hin as [Hin | Hin]; rewrite Hin in *; cbn [length] in *; lia.
Qed.

Lemma count_types_all (types : list FindingType) (findings : list Finding) :
  (count_types types findings <= length findings)%nat.
Proof. unfold count_types. apply List.filter_length_le. Qed.

Section consistency_bot_properties.

Variable T : PyText.
Variable consistency_numbers : string -> list (Q * string).
Variable capitalised_words : string -> list string.
Variable latency_ms : Q.

Lemma consistency_findings_raised (claim : Claim) (context : Context) :
  Forall raised_finding
    (consistency_findings T consistency_numbers capitalised_words claim
       context).
Proof.
  unfold consistency_findings.
  repeat (apply Forall_app; split).
  - unfold _check_dependencies. apply Forall_flat_map_intro. intros oc _.
    solve_raised.
  - unfold _check_arithmetic. destruct (negb _); [constructor |].
    apply Forall_flat_map_intro. intros oc _.
    destruct (_ || _); [constructor |].
    destruct (_ && _).
    + solve_raised.
    + destruct (_ && _); [| constructor].
      destruct (consistency_numbers (Claim.text claim)) as [| [first u] ?];
        [constructor |].
      destruct (consistency_numbers (Claim.text oc)); solve_raised.
  - destruct (bool_decide _); [| constructor].
    unfold _check_legal_consistency. apply Forall_flat_map_intro.
    intros oc _. solve_raised.
  - destruct (bool_decide _); [| constructor].
    unfold _check_generalizations.
    induction generalization_phrases as [| phrase phrases IH];
      cbn [first_generalization]; [constructor |].
    destruct (contains _ _); [solve_raised | exact IH].
Qed.

Lemma consistency_assessment_valid (claim : Claim) (context : Context) :
  let a := consistency_assessment T consistency_numbers capitalised_words
             latency_ms claim context in
  wf_assessment a
    /\ AgentAssessment.agent_name a = "ConsistencyBot"%string
    /\ AgentAssessment.claim_id a = Claim.id claim
    /\ AgentAssessment.findings a <> []
    /\ (consistency_findings T consistency_numbers capitalised_words claim
          context <> [] ->
        AgentAssessment.position a = SHORT
        /\ 0.60 <= AgentAssessment.confidence a
        /\ AgentAssessment.confidence a <= 0.95
        /\ AgentAssessment.findings a
           = consistency_findings T consistency_numbers capitalised_words
               claim context)
    /\ (consistency_findings T consistency_numbers capitalised_words claim
          context = [] ->
        AgentAssessment.position a = LONG
        /\ AgentAssessment.confidence a = 0.70
        /\ map Finding.type (AgentAssessment.findings a) = [CONSISTENT]).
Proof.
  intros a. subst a.
  pose proof (consistency_findings_raised claim context) as Hraised.
  unfold consistency_assessment.
  set (findings := consistency_findings T consistency_numbers
                     capitalised_words claim context) in *.
  assert (Hwf : Forall wf_finding findings).
  { eapply Forall_impl; [exact Hraised |]. intros f [_ Hf]. exact Hf. }
  destruct (0 <? count_types [INCONSISTENCY; CONTRADICTION] findings)%nat
    eqn:Hinc.
  - apply Nat.ltb_lt in Hinc.
    pose proof (of_nat_pos _ Hinc) as Hk.
    destruct (min_bounds 0.95
                (0.65 + of_nat_ (count_types [INCONSISTENCY; CONTRADICTION]
                                   findings) * 0.12) 0.60) as [Hlo Hhi];
      [lra | lra |].
    assert (Hne : findings <> []).
    { intros Heq. rewrite Heq in Hinc. cbn in Hinc. lia. }
    split; [split; [cbn; split; lra | exact Hwf] |].
    cbn. repeat split; auto; try lra; try congruence.
  - destruct (0 <? count_types [FLAG] findings)%nat eqn:Hflag.
    + apply Nat.ltb_lt in Hflag.
      pose proof (of_nat_pos _ Hflag) as Hk.
      destruct (min_bounds 0.80
                  (0.50 + of_nat_ (count_types [FLAG] findings) * 0.10) 0.60)
        as [Hlo Hhi]; [lra | lra |].
      assert (Hne : findings <> []).
      { intros Heq. rewrite Heq in Hflag. cbn in Hflag. lia. }
      split; [split; [cbn; split; lra | exact Hwf] |].
      cbn. repeat split; auto; try lra; try congruence.
    + assert (Hnil : findings = []).
      { apply (uncounted_none [INCONSISTENCY; CONTRADICTION] [FLAG]);
          [| exact Hinc | exact Hflag].
        eapply Forall_impl; [exact Hraised |].
        intros f [[-> | [-> | ->]] _]; [left | left | right]; reflexivity. }
      rewrite Hnil. cbn [app].
      split; [solve_wf |].
      cbn. repeat split; auto; try congruence.
Qed.

(** X8: [ConsistencyBot.verify] never raises and its assessment is valid: it
    is named after the agent and the claim, its confidence and relevances
    lie in [0,1] and it has at least one finding.  When a check raised a
    finding, the position is SHORT with a confidence between 0.60 and 0.95;
    otherwise it is LONG with confidence 0.70 and the single finding
    CONSISTENT. *)
Theorem consistency_bot_valid (claim : Claim) (context : Context) :
  exists a,
    ConsistencyBot_verify T consistency_numbers capitalised_words latency_ms
      claim context = Returned a
    /\ wf_assessment a
    /\ AgentAssessment.agent_name a = "ConsistencyBot"%string
    /\ AgentAssessment.claim_id a = Claim.id claim
    /\ AgentAssessment.findings a <> []
    /\ (consistency_findings T consistency_numbers capitalised_words claim
          context <> [] ->
        AgentAssessment.position a = SHORT
        /\ 0.60 <= AgentAssessment.confidence a
        /\ AgentAssessment.confidence a <= 0.95
        /\ AgentAssessment.findings a
           = consistency_findings T consistency_numbers capitalised_words
               claim context)
    /\ (consistency_findings T consistency_numbers capitalised_words claim
          context = [] ->
        AgentAssessment.position a = LONG
        /\ AgentAssessment.confidence a = 0.70
        /\ map Finding.type (AgentAssessment.findings a) = [CONSISTENT]).
Proof.
  exists (consistency_assessment T consistency_numbers capitalised_words
             latency_ms claim context).
  destruct (consistency_assessment_valid claim context) as [Hwf Hrest].
  split; [apply validated_wf; exact Hwf |].
  split; [exact Hwf | exact Hrest].
Qed.

End consistency_bot_properties.

Lemma consistency_bot_valid_witness :
  let claim :=
    DemoText.legal_claim "CLM-001"
      "The privilege has been consistently upheld across federal circuits." in
  let context := Context.mk [] ∅ "legal" in
  consistency_findings DemoText.text DemoText.no_numbers DemoText.no_words
    claim context <> []
  /\ exists a,
       ConsistencyBot_verify DemoText.text DemoText.no_numbers
         DemoText.no_words 12 claim context = Returned a
       /\ AgentAssessment.position a = SHORT
       /\ 0.60 <= AgentAssessment.confidence a.
Proof.
  intros claim context.
  assert (Hne : consistency_findings DemoText.text DemoText.no_numbers
                  DemoText.no_words claim context <> [])
    by (vm_compute; discriminate).
  split; [exact Hne |].
  destruct (consistency_bot_valid DemoText.text DemoText.no_numbers
              DemoText.no_words 12 claim context)
    as [a [Hrun [_ [_ [_ [_ [Hshort _]]]]]]].
  exists a. split; [exact Hrun |].
  destruct (Hshort Hne) as [Hpos [Hlo _]]. split; assumption.
Defined.

Lemma flat_map_ext_in {A B} (f g : A -> list B) (l : list A) :
  (forall x, In x l -> f x = g x) -> flat_map f l = flat_map g l.
Proof.
  intros H. induction l as [| x l IH]; [reflexivity |].
  cbn [flat_map]. rewrite (H x (or_introl eq_refl)), IH; [reflexivity |].
  intros y Hy. apply H. right. exact Hy.
Qed.

(** The findings of the consistency checks read the accumulated
    assessments only at the identifiers of the other claims. *)
Lemma consistency_findings_ext
    (T : PyText) (consistency_numbers : string -> list (Q * string))
    (capitalised_words : string -> list string)
    (claim : Claim) (context context' : Context) :
  Context.other_claims context = Context.other_claims context' ->
  (forall oc,
     In oc (Context.other_claims context) ->
     Claim.id oc <> Claim.id claim ->
     Context.other_assessments context !! Claim.id oc
     = Context.other_assessments context' !! Claim.id oc) ->
  consistency_findings T consistency_numbers capitalised_words claim context
  = consistency_findings T consistency_numbers capitalised_words claim
      context'.
Proof.
  intros Hclaims Hentries.
  unfold consistency_findings. rewrite <- Hclaims. f_equal.
  unfold _check_dependencies. apply flat_map_ext_in. intros oc Hin.
  case_bool_decide as Hid; [reflexivity |].
  rewrite (Hentries oc Hin Hid). reflexivity.
Qed.

(** X9: what [ConsistencyBot.verify] answers for a claim depends on the
    accumulated assessments only through the entries of the other claims,
    those whose identifier differs from the claim's: two contexts with the
    same other claims and the same entries for them give the same result,
    whatever is stored under the identifier of the claim itself. *)
Theorem consistency_bot_reads_other_claims_only
    (T : PyText) (consistency_numbers : string -> list (Q * string))
    (capitalised_words : string -> list string) (latency_ms : Q)
    (claim : Claim) (context context' : Context) :
  Context.other_claims context = Context.other_claims context' ->
  (forall oc,
     In oc (Context.other_claims context) ->
     Claim.id oc <> Claim.id claim ->
     Context.other_assessments context !! Claim.id oc
     = Context.other_assessments context' !! Claim.id oc) ->
  ConsistencyBot_verify T consistency_numbers capitalised_words latency_ms
    claim context
  = ConsistencyBot_verify T consistency_numbers capitalised_words latency_ms
      claim context'.
Proof.
  intros Hclaims Hentries.
  unfold ConsistencyBot_verify, consistency_assessment.
  rewrite (consistency_findings_ext T consistency_numbers capitalised_words
             claim context context' Hclaims Hentries).
  reflexivity.
Qed.

Lemma consistency_bot_reads_other_claims_only_witness :
  let claim := DemoText.revenue_claim "CLM-002" in
  let other := DemoText.revenue_claim "CLM-001" in
  let scored : gmap string (list AgentAssessment) :=
    {[ "CLM-001"%string :=
         [Demo.assessment_of "NumericVerifier" SHORT 0.8 [];
          Demo.assessment_of "RetrieverAgent" SHORT 0.7 []] ]} in
  let in_flight : gmap string (list AgentAssessment) :=
    <["CLM-002"%string :=
        [Demo.assessment_of "NumericVerifier" LONG 0.65 []]]> scored in
  let context := Context.mk [other] scored "finance" in
  let context' := Context.mk [other] in_flight "finance" in
  (forall oc,
     In oc (Context.other_claims context) ->
     Claim.id oc <> Claim.id claim ->
     Context.other_assessments context !! Claim.id oc
     = Context.other_assessments context' !! Claim.id oc)
  /\ ConsistencyBot_verify DemoText.text DemoText.no_numbers
       DemoText.all_words 12 claim context
     = ConsistencyBot_verify DemoText.text DemoText.no_numbers
         DemoText.all_words 12 claim context'.
Proof.
  intros claim other scored in_flight context context'.
  assert (Hentries : forall oc,
     In oc (Context.other_claims context) ->
     Claim.id oc <> Claim.id claim ->
     Context.other_assessments context !! Claim.id oc
     = Context.other_assessments context' !! Claim.id oc).
  { intros oc [<- | []] _. reflexivity. }
  split; [exact Hentries |].
  exact (consistency_bot_reads_other_claims_only DemoText.text
           DemoText.no_numbers DemoText.all_words 12 claim context context'
           eq_refl Hentries).
Defined.

(** ** The retriever in demo mode *)

Section retriever_properties.

Variable T : PyText.
Variable decimal_numbers : string -> list Q.
Variable latency_ms : Q.

Lemma mock_similarity_unfold (a b : string) :
  _mock_similarity T a b
  = if bool_decide (words_of T a = ∅) || bool_decide (words_of T b = ∅) then 0
    else of_nat_ (size (words_of T a ∩ words_of T b))
         / of_nat_ (Nat.max (size (words_of T a)) (size (words_of T b))).
Proof. reflexivity. Qed.

Lemma words_size_pos (s : string) :
  words_of T s <> ∅ -> (0 < size (words_of T s))%nat.
Proof.
  intros Hne. destruct (size (words_of T s)) eqn:Hsize; [| lia].
  apply size_empty_iff in Hsize. exfalso. apply Hne.
  apply leibniz_equiv. exact Hsize.
Qed.

(** X10: the word-overlap similarity lies between 0 and 1, does not depend
    on the order of the two texts, is 0 when one of them has no word, and is
    1 between a text that has a word and itself. *)
Theorem mock_similarity_range (a b : string) :
  (0 <= _mock_similarity T a b /\ _mock_similarity T a b <= 1)
  /\ _mock_similarity T a b = _mock_similarity T b a
  /\ (words_of T a = ∅ \/ words_of T b = ∅ -> _mock_similarity T a b = 0)
  /\ (words_of T a <> ∅ -> _mock_similarity T a a == 1).
Proof.
  rewrite !mock_similarity_unfold. split; [| split; [| split]].
  - do 2 case_bool_decide; cbn [orb]; try (split; lra).
    pose proof (words_size_pos a ltac:(assumption)) as Ha.
    assert (Hmax : 1 <= of_nat_ (Nat.max (size (words_of T a))
                                   (size (words_of T b))))
      by (apply of_nat_pos; lia).
    assert (Hle : of_nat_ (size (words_of T a ∩ words_of T b))
                  <= of_nat_ (Nat.max (size (words_of T a))
                                (size (words_of T b)))).
    { unfold of_nat_. rewrite <- Zle_Qle. apply Nat2Z.inj_le.
      etransitivity; [| apply Nat.le_max_l].
      apply subseteq_size. apply intersection_subseteq_l. }
    pose proof (of_nat_nonneg (size (words_of T a ∩ words_of T b))) as Hnn.
    split.
    + apply Qle_shift_div_l; lra.
    + apply Qle_shift_div_r; lra.
  - rewrite (comm_L (∩) (words_of T a) (words_of T b)), Nat.max_comm,
      orb_comm.
    reflexivity.
  - intros [H | H]; pose proof (bool_decide_eq_true_2 _ H) as Hb;
      rewrite Hb; [| rewrite orb_true_r]; reflexivity.
  - intros Hne. rewrite bool_decide_eq_false_2 by exact Hne. cbn [orb].
    assert (Hsame : words_of T a ∩ words_of T a = words_of T a)
      by apply (idemp_L (∩)).
    rewrite Hsame, Nat.max_id.
    pose proof (of_nat_pos _ (words_size_pos a Hne)) as Hpos.
    field. lra.
Qed.

Lemma fold_left_invariant {A B} (P : A -> Prop) (f : A -> B -> A)
    (l : list B) (a : A) :
  P a -> (forall a x, P a -> P (f a x)) -> P (fold_left f l a).
Proof.
  intros Ha Hstep. revert a Ha.
  induction l as [| x l IH]; intros a Ha; [exact Ha |].
  cbn [fold_left]. apply IH, Hstep, Ha.
Qed.

Lemma evidence_ok_append (fs : list Finding) (s c s' c' : nat)
    (f : Finding) :
  evidence_ok (fs, s, c) ->
  wf_finding f ->
  ((0 < s')%nat -> (0 < s)%nat \/ Finding.type f = SUPPORTS) ->
  evidence_ok (fs ++ [f], s', c').
Proof.
  intros [Hwf Hsup] Hf Hs. split; cbn [fst snd] in *.
  - apply Forall_app. split; [exact Hwf |].
    constructor; [exact Hf | constructor].
  - intros Hpos. destruct (Hs Hpos) as [Hold | Hnew].
    + destruct (Hsup Hold) as [g [Hin Hg]]. exists g.
      split; [apply in_or_app; left; exact Hin | exact Hg].
    + exists f. split; [apply in_or_app; right; left; reflexivity | exact Hnew].
Qed.

Lemma capped_relevance (cap sim shift : Q) :
  0 <= sim -> 0 <= shift -> 0 <= cap -> cap <= 1 ->
  0 <= min_ cap (sim + shift) /\ min_ cap (sim + shift) <= 1.
Proof.
  intros Hsim Hshift Hcap0 Hcap1.
  destruct (min_bounds cap (sim + shift) 0) as [Hlo Hhi]; lra.
Qed.

Lemma check_verified_ok (claim : Claim) (acc : list Finding * nat * nat)
    (vc : string) :
  evidence_ok acc ->
  evidence_ok (check_verified T decimal_numbers claim acc vc).
Proof.
  destruct acc as [[fs s] c]. intros Hok. unfold check_verified.
  cmp_cases (_mock_similarity T (Claim.text claim) vc) 0.3; [| exact Hok].
  destruct (_claims_agree _ _ _ _).
  - apply evidence_ok_append with (s := s) (c := c); [exact Hok | | auto].
    apply capped_relevance; lra.
  - apply evidence_ok_append with (s := s) (c := c); [exact Hok | | auto].
    apply capped_relevance; lra.
Qed.

Lemma check_archive_ok (claim : Claim) (acc : list Finding * nat * nat)
    (ha : string * string) :
  evidence_ok acc -> evidence_ok (check_archive T claim acc ha).
Proof.
  destruct acc as [[fs s] c]. intros Hok. unfold check_archive.
  cmp_cases (_mock_similarity T (Claim.text claim) (fst ha)) 0.35;
    [| exact Hok].
  apply evidence_ok_append with (s := s) (c := c); [exact Hok | | auto].
  apply capped_relevance; lra.
Qed.

Lemma check_analyst_ok (claim : Claim) (acc : list Finding * nat * nat)
    (ad : string) :
  evidence_ok acc -> evidence_ok (check_analyst T claim acc ad).
Proof.
  destruct acc as [[fs s] c]. intros Hok. unfold check_analyst.
  cmp_cases (_mock_similarity T (Claim.text claim) ad) 0.25; [| exact Hok].
  apply evidence_ok_append with (s := s) (c := c); [exact Hok | | auto].
  apply capped_relevance; lra.
Qed.

Lemma check_no_match_ok (claim : Claim) (acc : list Finding * nat * nat) :
  evidence_ok acc ->
  evidence_ok (check_no_match claim acc)
  /\ fst (fst (check_no_match claim acc)) <> [].
Proof.
  destruct acc as [[fs s] c]. intros [Hwf Hsup]. unfold check_no_match.
  cbn [fst snd] in *. destruct fs as [| f fs]; cbn [nonempty].
  - assert (Hs : ~ (0 < s)%nat).
    { intros Hpos. destruct (Hsup Hpos) as [g [[] _]]. }
    destruct (bool_decide _); (split; [split |]); cbn [fst snd];
      try discriminate; try (intros Hpos; contradiction); solve_wf.
  - split; [split; assumption | discriminate].
Qed.

Lemma mock_evidence_ok (claim : Claim) :
  evidence_ok (mock_evidence T decimal_numbers claim)
  /\ fst (fst (mock_evidence T decimal_numbers claim)) <> [].
Proof.
  unfold mock_evidence. apply check_no_match_ok.
  apply fold_left_invariant; [| intros; apply check_analyst_ok; assumption].
  apply fold_left_invariant; [| intros; apply check_archive_ok; assumption].
  apply fold_left_invariant; [| intros; apply check_verified_ok; assumption].
  split; [constructor | cbn; lia].
Qed.

Lemma mock_assessment_valid (claim : Claim) (context : Context) :
  let a := mock_assessment T decimal_numbers latency_ms claim in
  wf_assessment a
    /\ AgentAssessment.agent_name a = "RetrieverAgent"%string
    /\ AgentAssessment.claim_id a = Claim.id claim
    /\ AgentAssessment.findings a <> []
    /\ (0.55 <= AgentAssessment.confidence a
        /\ AgentAssessment.confidence a <= 0.95)
    /\ (AgentAssessment.position a = LONG ->
        exists f, In f (AgentAssessment.findings a)
                  /\ Finding.type f = SUPPORTS).
Proof.
  intros a. subst a.
  unfold mock_assessment.
  destruct (mock_evidence_ok claim) as [[Hwf Hsup] Hne].
  destruct (mock_evidence T decimal_numbers claim) as [[fs s] c].
  cbn [fst snd] in *.
  destruct (s <? c)%nat eqn:Hsc; [| destruct (0 <? s)%nat eqn:Hs].
  - destruct (min_bounds 0.95 (0.55 + of_nat_ c * 0.12) 0.55) as [Hlo Hhi];
      [lra | pose proof (of_nat_nonneg c); lra |].
    split; [split; [cbn; split; lra | exact Hwf] |].
    cbn. repeat split; auto. discriminate.
  - destruct (min_bounds 0.95 (0.55 + of_nat_ s * 0.10) 0.55) as [Hlo Hhi];
      [lra | pose proof (of_nat_nonneg s); lra |].
    split; [split; [cbn; split; lra | exact Hwf] |].
    cbn. repeat split; auto. intros _. apply Hsup. apply Nat.ltb_lt. exact Hs.
  - split; [split; [cbn; split; lra | exact Hwf] |].
    cbn. repeat split; auto; try lra. discriminate.
Qed.

(** X11: in demo mode [RetrieverAgent.verify] never raises and its
    assessment is valid: named after the agent and the claim, with at least
    one finding, relevances in [0,1] and a confidence between 0.55 and
    0.95.  It believes the claim true only when some finding supports it. *)
Theorem retriever_mock_valid (claim : Claim) (context : Context) :
  exists a,
    RetrieverAgent_verify T decimal_numbers latency_ms claim context
    = Returned a
    /\ wf_assessment a
    /\ AgentAssessment.agent_name a = "RetrieverAgent"%string
    /\ AgentAssessment.claim_id a = Claim.id claim
    /\ AgentAssessment.findings a <> []
    /\ (0.55 <= AgentAssessment.confidence a
        /\ AgentAssessment.confidence a <= 0.95)
    /\ (AgentAssessment.position a = LONG ->
        exists f, In f (AgentAssessment.findings a)
                  /\ Finding.type f = SUPPORTS).
Proof.
  exists (mock_assessment T decimal_numbers latency_ms claim).
  destruct (mock_assessment_valid claim context) as [Hwf Hrest].
  split; [apply validated_wf; exact Hwf |].
  split; [exact Hwf | exact Hrest].
Qed.

End retriever_properties.

Lemma retriever_mock_valid_witness :
  let claim :=
    Claim.mk "CLM-001" "NVIDIA Q4 FY2024 revenue was $22.1 billion" NUMERIC
      HIGH "" in
  exists a,
    RetrieverAgent_verify DemoText.text DemoText.no_decimals 30 claim
      (Context.mk [] ∅ "finance") = Returned a
    /\ AgentAssessment.position a = LONG
    /\ exists f, In f (AgentAssessment.findings a)
                 /\ Finding.type f = SUPPORTS.
Proof.
  intros claim.
  destruct (retriever_mock_valid DemoText.text DemoText.no_decimals 30 claim
              (Context.mk [] ∅ "finance"))
    as [a [Hrun [_ [_ [_ [_ [_ Hlong]]]]]]].
  exists a. split; [exact Hrun |].
  assert (Hpos : AgentAssessment.position a = LONG).
  { assert (Hcomputed :
      match RetrieverAgent_verify DemoText.text DemoText.no_decimals 30 claim
              (Context.mk [] ∅ "finance") with
      | Returned b => AgentAssessment.position b = LONG
      | Raised _ => False
      end) by (vm_compute; reflexivity).
    rewrite Hrun in Hcomputed. exact Hcomputed. }
  split; [exact Hpos | exact (Hlong Hpos)].
Defined.

Lemma mock_similarity_range_witness :
  words_of DemoText.text "Acme Corp revenue grew" <> ∅
  /\ _mock_similarity DemoText.text "Acme Corp revenue grew"
       "Acme Corp revenue grew" == 1.
Proof.
  assert (Hne : words_of DemoText.text "Acme Corp revenue grew" <> ∅).
  { intros H. apply (f_equal size) in H. vm_compute in H. discriminate. }
  split; [exact Hne |].
  exact (proj2 (proj2 (proj2 (mock_similarity_range DemoText.text
                                "Acme Corp revenue grew"
                                "Acme Corp revenue grew"))) Hne).
Defined.

(** ** The numeric verifier on its heuristic path *)

Section numeric_properties.

Variable T : PyText.
Variable numeric_numbers : string -> list (Q * string).
Variable ground_truth : option (option Q).
Variable latency_ms : Q.

Ltac solve_numeric :=
  repeat match goal with
  | |- Forall _ [] => apply List.Forall_nil
  | |- Forall _ (_ :: _) => apply List.Forall_cons
  | |- numeric_finding _ => split; [cbn; tauto | split; cbn; lra]
  end.

Lemma red_flags_raised (numbers : list (Q * string)) :
  Forall numeric_finding (red_flags T numbers).
Proof.
  unfold red_flags. apply Forall_flat_map_intro. intros [num unit] _.
  apply Forall_app. split; destruct (_ && _); solve_numeric.
Qed.

Lemma ground_truth_findings_raised (numbers : list (Q * string)) :
  Forall numeric_finding (ground_truth_findings T ground_truth numbers).
Proof.
  unfold ground_truth_findings. destruct ground_truth as [gt |];
    [| constructor].
  apply Forall_flat_map_intro. intros [num unit] _.
  destruct gt as [actual |]; [| constructor].
  destruct (_ && _); solve_numeric.
Qed.

Lemma numeric_assessment_valid (claim : Claim) (context : Context) :
  let a := numeric_assessment T numeric_numbers ground_truth latency_ms claim in
  wf_assessment a
    /\ AgentAssessment.agent_name a = "NumericVerifier"%string
    /\ AgentAssessment.claim_id a = Claim.id claim
    /\ AgentAssessment.findings a <> []
    /\ (Claim.type claim = CASE_LAW ->
        AgentAssessment.position a = SHORT
        /\ AgentAssessment.confidence a = 0.94
        /\ map Finding.type (AgentAssessment.findings a) = [NOT_FOUND])
    /\ (AgentAssessment.position a = SHORT ->
        0.65 <= AgentAssessment.confidence a
        /\ AgentAssessment.confidence a <= 0.95)
    /\ (AgentAssessment.position a = LONG ->
        AgentAssessment.confidence a = 0.65
        /\ map Finding.type (AgentAssessment.findings a) = [CONFIRMED]).
Proof.
  intros a. subst a.
  unfold numeric_assessment.
  case_bool_decide as Hcase.
  - split; [solve_wf |].
    cbn. repeat split; auto; try lra; try discriminate.
  - set (findings :=
           if nonempty (numeric_numbers (Claim.text claim))
           then red_flags T (numeric_numbers (Claim.text claim))
                ++ ground_truth_findings T ground_truth
                     (numeric_numbers (Claim.text claim))
           else []).
    assert (Hraised : Forall numeric_finding findings).
    { subst findings. destruct (nonempty _); [| constructor].
      apply Forall_app. split;
        [apply red_flags_raised | apply ground_truth_findings_raised]. }
    assert (Hwf : Forall wf_finding findings).
    { eapply Forall_impl; [exact Hraised |]. intros f [_ Hf]. exact Hf. }
    destruct (0 <? count_types [CONTRADICTION; NOT_FOUND] findings)%nat
      eqn:Hcon; [| destruct (0 <? count_types [FLAG] findings)%nat eqn:Hflag].
    + apply Nat.ltb_lt in Hcon. pose proof (of_nat_pos _ Hcon) as Hk.
      destruct (min_bounds 0.95
                  (0.70 + of_nat_ (count_types [CONTRADICTION; NOT_FOUND]
                                     findings) * 0.12) 0.65) as [Hlo Hhi];
        [lra | lra |].
      assert (Hne : findings <> []).
      { intros Heq. rewrite Heq in Hcon. cbn in Hcon. lia. }
      split; [split; [cbn; split; lra | exact Hwf] |].
      cbn. repeat split; auto; try lra; try congruence; discriminate.
    + apply Nat.ltb_lt in Hflag. pose proof (of_nat_pos _ Hflag) as Hk.
      destruct (min_bounds 0.80
                  (0.50 + of_nat_ (count_types [FLAG] findings) * 0.15) 0.65)
        as [Hlo Hhi]; [lra | lra |].
      assert (Hne : findings <> []).
      { intros Heq. rewrite Heq in Hflag. cbn in Hflag. lia. }
      split; [split; [cbn; split; lra | exact Hwf] |].
      cbn. repeat split; auto; try lra; try congruence; discriminate.
    + assert (Hnil : findings = []).
      { apply (uncounted_none [CONTRADICTION; NOT_FOUND] [FLAG]);
          [| exact Hcon | exact Hflag].
        eapply Forall_impl; [exact Hraised |].
        intros f [[-> | ->] _]; [right | left]; reflexivity. }
      rewrite Hnil. cbn [app].
      split; [solve_wf |].
      cbn. repeat split; auto; try congruence; discriminate.
Qed.

(** X12: on its heuristic path [NumericVerifier.verify] never raises and its
    assessment is valid: named after the agent and the claim, with at least
    one finding, relevances and confidence in [0,1].  A case-law claim is
    always believed false with confidence 0.94 on one NOT_FOUND finding; any
    other claim is believed false, with a confidence between 0.65 and 0.95,
    exactly when a red flag or a contradiction was found, and is otherwise
    believed true with confidence 0.65 on the single finding CONFIRMED. *)
Theorem numeric_verifier_valid (claim : Claim) (context : Context) :
  exists a,
    NumericVerifier_verify T numeric_numbers ground_truth latency_ms claim
      context = Returned a
    /\ wf_assessment a
    /\ AgentAssessment.agent_name a = "NumericVerifier"%string
    /\ AgentAssessment.claim_id a = Claim.id claim
    /\ AgentAssessment.findings a <> []
    /\ (Claim.type claim = CASE_LAW ->
        AgentAssessment.position a = SHORT
        /\ AgentAssessment.confidence a = 0.94
        /\ map Finding.type (AgentAssessment.findings a) = [NOT_FOUND])
    /\ (AgentAssessment.position a = SHORT ->
        0.65 <= AgentAssessment.confidence a
        /\ AgentAssessment.confidence a <= 0.95)
    /\ (AgentAssessment.position a = LONG ->
        AgentAssessment.confidence a = 0.65
        /\ map Finding.type (AgentAssessment.findings a) = [CONFIRMED]).
Proof.
  exists (numeric_assessment T numeric_numbers ground_truth latency_ms claim).
  destruct (numeric_assessment_valid claim context) as [Hwf Hrest].
  split; [apply validated_wf; exact Hwf |].
  split; [exact Hwf | exact Hrest].
Qed.

End numeric_properties.

Lemma numeric_verifier_valid_witness :
  let claim :=
    Claim.mk "CLM-001" "In Harrison v. Mercy General Hospital (2019)"
      CASE_LAW CRITICAL "" in
  Claim.type claim = CASE_LAW
  /\ exists a,
       NumericVerifier_verify DemoText.text DemoText.no_numbers None 7 claim
         (Context.mk [] ∅ "legal") = Returned a
       /\ AgentAssessment.position a = SHORT
       /\ AgentAssessment.confidence a = 0.94.
Proof.
  intros claim.
  assert (Htype : Claim.type claim = CASE_LAW) by reflexivity.
  split; [exact Htype |].
  destruct (numeric_verifier_valid DemoText.text DemoText.no_numbers None 7
              claim (Context.mk [] ∅ "legal"))
    as [a [Hrun [_ [_ [_ [_ [Hcase _]]]]]]].
  exists a. split; [exact Hrun |].
  destruct (Hcase Htype) as [Hpos [Hconf _]]. split; assumption.
Defined.

(** ** Streaming with agents that always answer *)

Section answering_agents.

Variable config : Config.
Variable extract_claims : string -> string -> list Claim.
Variable ALL_AGENTS : list BaseAgent.
Variable settle :
  string -> list ClaimVerification -> RiskAction -> Settlement.
Variable new_session_id : string.

Hypothesis all_answer : Forall Modes.answers ALL_AGENTS.


Lemma append_assessment_other
    (m : gmap string (list AgentAssessment)) (claim : Claim)
    (a : AgentAssessment) (k : string) :
  k <> Claim.id claim -> append_assessment m claim a !! k = m !! k.
Proof.
  intros Hk. unfold append_assessment.
  destruct (m !! Claim.id claim); rewrite lookup_insert_ne by congruence;
    reflexivity.
Qed.




End answering_agents.

(** ** The two modes side by side *)

Lemma score_each_app (config : Config) (agents : list BaseAgent)
    (claims : list Claim) (domain : string) (todo : list Claim)
    (all_verifications : list ClaimVerification)
    (m : gmap string (list AgentAssessment)) :
  Modes.score_each config agents claims domain todo all_verifications m
  = (all_verifications
     ++ fst (Modes.score_each config agents claims domain todo [] m),
     snd (Modes.score_each config agents claims domain todo [] m)).
Proof.
  revert all_verifications m.
  induction todo as [| claim todo IH]; intros vs m.
  - cbn. rewrite app_nil_r. reflexivity.
  - cbn [Modes.score_each]. rewrite IH.
    rewrite (IH ([] ++ _)). cbn [fst snd app]. rewrite <- app_assoc.
    reflexivity.
Qed.

Lemma verify_each_score (config : Config) (agents : list BaseAgent)
    (claims : list Claim) (domain : string) (todo : list Claim)
    (all_verifications : list ClaimVerification)
    (m : gmap string (list AgentAssessment)) (w : World) :
  exists new_calls,
    verify_each config agents claims domain todo all_verifications m w
    = (Returned
         (Modes.score_each config agents claims domain todo
            all_verifications m),
       extend w new_calls []).
Proof.
  revert all_verifications m w.
  induction todo as [| claim todo IH]; intros vs m w.
  - exists []. cbn. unfold ret. rewrite extend_nil. reflexivity.
  - cbn [verify_each Modes.score_each]. unfold bind at 1. rewrite gather_run.
    destruct (IH (vs ++ [aggregate_risk config claim
                           (filter_valid
                              (map (fun agent =>
                                      BaseAgent.verify agent claim
                                        (Context.mk
                                           (other_claims_of claims claim) m
                                           domain)) agents))])
                (<[Claim.id claim :=
                     filter_valid
                       (map (fun agent =>
                               BaseAgent.verify agent claim
                                 (Context.mk (other_claims_of claims claim) m
                                    domain)) agents)]> m)
                (extend w
                   (map (fun agent =>
                           CallVerify (BaseAgent.name agent) claim
                             (Context.mk (other_claims_of claims claim) m
                                domain)) agents) []))
      as [cs Hrun].
    rewrite Hrun, extend_extend. eexists. reflexivity.
Qed.

Section modes.

Variable config : Config.
Variable extract_claims : string -> string -> list Claim.
Variable ALL_AGENTS : list BaseAgent.
Variable settle :
  string -> list ClaimVerification -> RiskAction -> Settlement.
Variable new_session_id : string.

Hypothesis all_answer : Forall Modes.answers ALL_AGENTS.
Hypothesis all_blind : Forall Modes.own_entry_blind ALL_AGENTS.

(** The inner loop of the streaming mode once the claim has its entry. *)
Lemma stream_agents_stored (agents : list BaseAgent) (claims : list Claim)
    (domain : string) (claim : Claim) (done : list AgentAssessment)
    (m : gmap string (list AgentAssessment)) (w : World) :
  Forall Modes.answers agents ->
  Forall Modes.own_entry_blind agents ->
  let results :=
    filter_valid
      (map (fun agent =>
              BaseAgent.verify agent claim
                (Context.mk (other_claims_of claims claim) m domain))
         agents) in
  exists new_calls,
    stream_agents agents claims domain claim (<[Claim.id claim := done]> m) w
    = (Returned (<[Claim.id claim := done ++ results]> m),
       extend w new_calls (map (agent_quote claim) results)).
Proof.
  intros Hanswers Hblind. revert done w.
  induction agents as [| agent agents IH]; intros done w results.
  - exists []. subst results. cbn. unfold ret.
    rewrite app_nil_r, extend_nil. reflexivity.
  - apply List.Forall_cons_iff in Hanswers as [Hagent Hanswers].
    apply List.Forall_cons_iff in Hblind as [Hown Hblind].
    specialize (IH Hanswers Hblind).
    cbn [stream_agents]. unfold bind at 1. rewrite await_verify_run.
    subst results. cbn [map]. rewrite Hown.
    destruct (Hagent claim
                (Context.mk (other_claims_of claims claim) m domain))
      as [a Ha].
    rewrite Ha. cbn [filter_valid].
    unfold bind at 1. rewrite yield_extend, extend_extend.
    assert (Happend :
      append_assessment (<[Claim.id claim := done]> m) claim a
      = <[Claim.id claim := done ++ [a]]> m).
    { unfold append_assessment.
      rewrite lookup_insert_eq, insert_insert_eq. reflexivity. }
    rewrite Happend.
    destruct (IH (done ++ [a])
                (extend w
                   ([CallVerify (BaseAgent.name agent) claim
                       (Context.mk (other_claims_of claims claim)
                          (<[Claim.id claim := done]> m) domain)] ++ [])
                   ([] ++ [agent_quote claim a])))
      as [cs Hrun].
    rewrite Hrun, extend_extend, <- app_assoc. cbn [app map].
    eexists. reflexivity.
Qed.

(** The inner loop of the streaming mode for a claim that has no entry
    yet. *)
Lemma stream_agents_fresh (claims : list Claim) (domain : string)
    (claim : Claim) (m : gmap string (list AgentAssessment)) (w : World) :
  ALL_AGENTS <> [] ->
  m !! Claim.id claim = None ->
  let results :=
    filter_valid
      (map (fun agent =>
              BaseAgent.verify agent claim
                (Context.mk (other_claims_of claims claim) m domain))
         ALL_AGENTS) in
  exists new_calls,
    stream_agents ALL_AGENTS claims domain claim m w
    = (Returned (<[Claim.id claim := results]> m),
       extend w new_calls (map (agent_quote claim) results)).
Proof.
  intros Hne Hfresh results. subst results.
  destruct ALL_AGENTS as [| agent agents]; [congruence |].
  apply List.Forall_cons_iff in all_answer as [Hagent Hanswers].
  apply List.Forall_cons_iff in all_blind as [_ Hblind].
  cbn [stream_agents map]. unfold bind at 1. rewrite await_verify_run.
  destruct (Hagent claim (Context.mk (other_claims_of claims claim) m domain))
    as [a Ha].
  rewrite Ha. cbn [filter_valid].
  unfold bind at 1. rewrite yield_extend, extend_extend.
  unfold append_assessment. rewrite Hfresh.
  destruct (stream_agents_stored agents claims domain claim [a] m
              (extend w
                 ([CallVerify (BaseAgent.name agent) claim
                     (Context.mk (other_claims_of claims claim) m domain)]
                  ++ [])
                 ([] ++ [agent_quote claim a])) Hanswers Hblind)
    as [cs Hrun].
  rewrite Hrun, extend_extend. cbn [app map]. eexists. reflexivity.
Qed.

Lemma events_of_aggregate (claim : Claim)
    (assessments : list AgentAssessment) :
  Modes.events_of_verification (aggregate_risk config claim assessments)
  = map (agent_quote claim) assessments
    ++ [risk_update claim (aggregate_risk config claim assessments)].
Proof.
  unfold Modes.events_of_verification.
  destruct (aggregate_risk_fields config claim assessments) as [-> ->].
  reflexivity.
Qed.

(** The outer loop of the streaming mode ends with the verifications and
    the accumulated assessments of the batch loop, and yields the events of
    the verifications it adds. *)
Lemma stream_each_score (claims : list Claim) (domain : string)
    (todo : list Claim) (all_verifications : list ClaimVerification)
    (m : gmap string (list AgentAssessment)) (w : World) :
  ALL_AGENTS <> [] ->
  NoDup (map Claim.id todo) ->
  Forall (fun c => m !! Claim.id c = None) todo ->
  exists new_calls,
    stream_each config ALL_AGENTS claims domain todo all_verifications m w
    = (Returned
         (Modes.score_each config ALL_AGENTS claims domain todo
            all_verifications m),
       extend w new_calls
         (flat_map Modes.events_of_verification
            (fst (Modes.score_each config ALL_AGENTS claims domain todo []
                    m)))).
Proof.
  intros Hne. revert all_verifications m w.
  induction todo as [| claim todo IH]; intros vs m w Hdup Hfresh.
  - exists []. cbn. unfold ret. rewrite extend_nil. reflexivity.
  - cbn [map] in Hdup. apply NoDup_cons in Hdup as [Hnotin Hdup].
    apply List.Forall_cons_iff in Hfresh as [Hclaim Hfresh].
    cbn [stream_each Modes.score_each]. unfold bind at 1.
    destruct (stream_agents_fresh claims domain claim m w Hne Hclaim)
      as [cs Hrun].
    rewrite Hrun, lookup_insert_eq.
    unfold bind at 1. rewrite yield_extend, extend_extend.
    set (results :=
           filter_valid
             (map (fun agent =>
                     BaseAgent.verify agent claim
                       (Context.mk (other_claims_of claims claim) m domain))
                ALL_AGENTS)) in *.
    destruct (IH (vs ++ [aggregate_risk config claim results])
                (<[Claim.id claim := results]> m)
                (extend w (cs ++ [])
                   (map (agent_quote claim) results
                    ++ [risk_update claim
                          (aggregate_risk config claim results)]))
                Hdup) as [cs' Hrun'].
    { apply List.Forall_forall. intros c Hc.
      rewrite lookup_insert_ne.
      - revert c Hc. apply List.Forall_forall. exact Hfresh.
      - intros Heq. apply Hnotin. rewrite Heq.
        apply list_elem_of_In, in_map. exact Hc. }
    rewrite Hrun', extend_extend.
    rewrite (score_each_app config ALL_AGENTS claims domain todo
               ([] ++ [aggregate_risk config claim results])).
    cbn [fst app flat_map]. rewrite events_of_aggregate, <- app_assoc.
    eexists. reflexivity.
Qed.

(** X14: when every agent answers, none of them looks at what is stored
    under the identifier of the claim it is asked about, and the extracted
    claims have distinct identifiers, the streaming mode tells exactly the
    session the batch mode returns: both return normally, and the events
    streamed are the session's creation, its claims, for each verification
    of the session the quotes of its assessments and its risk update, and
    its settlement (or, with no claim, its action). *)
Theorem streaming_tells_the_batch_session
    (prompt response domain : string) (w w' : World) :
  ALL_AGENTS <> [] ->
  NoDup (map Claim.id (extract_claims response domain)) ->
  exists session calls calls',
    run_verification config extract_claims ALL_AGENTS settle new_session_id
      prompt response domain w
    = (Returned session, extend w calls [])
    /\ run_verification_streaming config extract_claims ALL_AGENTS settle
         new_session_id prompt response domain w'
       = (Returned tt, extend w' calls' (Modes.events_of_session session)).
Proof.
  intros Hne Hdup.
  remember (run_verification config extract_claims ALL_AGENTS settle
              new_session_id prompt response domain w) as batch eqn:Hb.
  remember (run_verification_streaming config extract_claims ALL_AGENTS
              settle new_session_id prompt response domain w')
    as stream eqn:Hs.
  unfold run_verification, bind at 1 in Hb.
  rewrite await_extract_claims_run in Hb.
  unfold run_verification_streaming, bind at 1 2 in Hs.
  rewrite yield_extend, await_extract_claims_run, extend_extend in Hs.
  unfold bind at 1 in Hs. rewrite yield_extend, extend_extend in Hs.
  destruct (extract_claims response domain) as [| c cs].
  - unfold ret in Hb. unfold bind, ret in Hs.
    rewrite yield_extend, extend_extend in Hs. subst batch stream.
    eexists _, _, _. split; reflexivity.
  - cbv beta iota in Hb, Hs.
    remember (c :: cs) as claims eqn:Hclaims in *. clear Hclaims.
    destruct (verify_each_score config ALL_AGENTS claims domain claims
                [] ∅ (extend w [CallExtract response domain] []))
      as [calls Hbatch].
    destruct (stream_each_score claims domain claims [] ∅
                (extend w' ([] ++ [CallExtract response domain] ++ [])
                   (([WSEvent.mk SESSION_CREATED
                        (SessionCreatedData new_session_id prompt)] ++ [])
                    ++ [claims_extracted claims])) Hne Hdup)
      as [calls' Hstream].
    { apply List.Forall_forall. intros x _. apply lookup_empty. }
    unfold bind at 1 in Hb. rewrite Hbatch in Hb. unfold bind, ret in Hb.
    rewrite await_settle_run, !extend_extend in Hb.
    unfold bind at 1 in Hs. cbn [app] in Hs, Hstream. rewrite Hstream in Hs.
    unfold bind, ret in Hs.
    rewrite await_settle_run, yield_extend, !extend_extend in Hs.
    subst batch stream. eexists _, _, _. split; [reflexivity |].
    unfold Modes.events_of_session. cbn. rewrite <- ?app_assoc.
    reflexivity.
Qed.

End modes.

(** ** The registered agents *)

Lemma reliable_answers (agent : BaseAgent) :
  Modes.reliable agent -> Modes.answers agent.
Proof.
  intros Hagent claim context.
  destruct (Hagent claim context) as [a [Ha _]]. exists a. exact Ha.
Qed.

Section demo_agents.

Variable T : PyText.
Variable numeric_numbers : string -> list (Q * string).
Variable decimal_numbers : string -> list Q.
Variable consistency_numbers : string -> list (Q * string).
Variable capitalised_words : string -> list string.
Variables numeric_latency retriever_latency consistency_latency : Q.

Lemma demo_agents_reliable :
  Forall Modes.reliable
    (DEMO_AGENTS T numeric_numbers decimal_numbers consistency_numbers
       capitalised_words numeric_latency retriever_latency
       consistency_latency).
Proof.
  unfold DEMO_AGENTS.
  repeat apply List.Forall_cons; [| | | apply List.Forall_nil];
    intros claim context.
  - destruct (numeric_assessment_valid T numeric_numbers None
                numeric_latency claim context) as [Hwf [Hname [Hid _]]].
    eexists. split; [apply validated_wf; exact Hwf |].
    split; [exact Hwf |]. split; [exact Hid | exact Hname].
  - destruct (mock_assessment_valid T decimal_numbers retriever_latency
                claim context) as [Hwf [Hname [Hid _]]].
    eexists. split; [apply validated_wf; exact Hwf |].
    split; [exact Hwf |]. split; [exact Hid | exact Hname].
  - destruct (consistency_assessment_valid T consistency_numbers
                capitalised_words consistency_latency claim context)
      as [Hwf [Hname [Hid _]]].
    eexists. split; [apply validated_wf; exact Hwf |].
    split; [exact Hwf |]. split; [exact Hid | exact Hname].
Qed.

Lemma demo_agents_answer :
  Forall Modes.answers
    (DEMO_AGENTS T numeric_numbers decimal_numbers consistency_numbers
       capitalised_words numeric_latency retriever_latency
       consistency_latency).
Proof.
  eapply Forall_impl; [apply demo_agents_reliable |].
  apply reliable_answers.
Qed.

Lemma demo_agents_blind :
  Forall Modes.own_entry_blind
    (DEMO_AGENTS T numeric_numbers decimal_numbers consistency_numbers
       capitalised_words numeric_latency retriever_latency
       consistency_latency).
Proof.
  unfold DEMO_AGENTS.
  repeat apply List.Forall_cons; [| | | apply List.Forall_nil];
    intros claim other_claims domain m l.
  - reflexivity.
  - reflexivity.
  - cbn [BaseAgent.verify ConsistencyBot].
    unfold ConsistencyBot_verify, consistency_assessment.
    rewrite (consistency_findings_ext T consistency_numbers capitalised_words
               claim
               (Context.mk other_claims (<[Claim.id claim := l]> m) domain)
               (Context.mk other_claims m domain));
      [reflexivity | reflexivity |].
    intros oc _ Hid. cbn [Context.other_assessments].
    apply lookup_insert_ne. congruence.
Qed.

End demo_agents.

(** ** Batch mode with reliable agents *)

Lemma aggregate_risk_score_range (config : Config) (claim : Claim)
    (assessments : list AgentAssessment) :
  Forall wf_assessment assessments ->
  0 <= ClaimVerification.risk_score (aggregate_risk config claim assessments)
  /\ ClaimVerification.risk_score (aggregate_risk config claim assessments)
     <= 1.
Proof.
  intros Hwf. destruct (decide (assessments = [])) as [-> | Hne].
  - cbn. split; lra.
  - rewrite (aggregate_risk_nonempty config claim assessments Hne).
    cbn [ClaimVerification.risk_score].
    apply round_bounds. apply final_risk_score_bounds; assumption.
Qed.

Lemma reliable_results (agents : list BaseAgent) (claim : Claim)
    (context : Context) :
  Forall Modes.reliable agents ->
  let results :=
    filter_valid
      (map (fun agent => BaseAgent.verify agent claim context) agents) in
  map AgentAssessment.agent_name results = map BaseAgent.name agents
  /\ Forall (fun a => wf_assessment a
                      /\ AgentAssessment.claim_id a = Claim.id claim)
       results.
Proof.
  intros Hagents results. subst results.
  induction Hagents as [| agent agents Hagent _ [IHnames IHvalid]].
  - split; constructor.
  - destruct (Hagent claim context) as [a [Ha [Hwf [Hid Hname]]]].
    cbn [map]. rewrite Ha. cbn [filter_valid map].
    split; [rewrite Hname, IHnames; reflexivity |].
    constructor; [split; assumption | exact IHvalid].
Qed.

Lemma score_each_well_scored (config : Config) (agents : list BaseAgent)
    (claims : list Claim) (domain : string) (todo : list Claim)
    (m : gmap string (list AgentAssessment)) :
  Forall Modes.reliable agents ->
  Forall2 (Modes.well_scored agents) todo
    (fst (Modes.score_each config agents claims domain todo [] m)).
Proof.
  intros Hagents. revert m.
  induction todo as [| claim todo IH]; intros m; [constructor |].
  cbn [Modes.score_each]. rewrite score_each_app. cbn [fst app].
  constructor; [| apply IH].
  destruct (reliable_results agents claim
              (Context.mk (other_claims_of claims claim) m domain) Hagents)
    as [Hnames Hvalid].
  unfold Modes.well_scored.
  destruct (aggregate_risk_fields config claim
              (filter_valid
                 (map (fun agent =>
                         BaseAgent.verify agent claim
                           (Context.mk (other_claims_of claims claim) m
                              domain)) agents))) as [-> ->].
  split; [reflexivity |]. split; [exact Hnames |]. split; [exact Hvalid |].
  apply aggregate_risk_score_range.
  eapply Forall_impl; [exact Hvalid |]. intros a [Hwf _]. exact Hwf.
Qed.

(** X15: with agents that always answer with a valid assessment, made out
    in their own name for the claim they were asked about, the batch mode
    returns a session in which every extracted claim has its verification,
    in order; each verification holds exactly one assessment per agent, in
    the order of the agents, all valid and all for this claim, and its risk
    score lies in [0,1].  The session has an overall action, and a
    settlement exactly when there is a claim. *)
Theorem batch_session_well_formed
    (config : Config) (extract_claims : string -> string -> list Claim)
    (ALL_AGENTS : list BaseAgent)
    (settle : string -> list ClaimVerification -> RiskAction -> Settlement)
    (new_session_id prompt response domain : string) (w : World) :
  Forall Modes.reliable ALL_AGENTS ->
  exists session calls,
    run_verification config extract_claims ALL_AGENTS settle new_session_id
      prompt response domain w
    = (Returned session, extend w calls [])
    /\ VerificationSession.claims session = extract_claims response domain
    /\ Forall2 (Modes.well_scored ALL_AGENTS)
         (VerificationSession.claims session)
         (VerificationSession.verifications session)
    /\ is_Some (VerificationSession.overall_action session)
    /\ (is_Some (VerificationSession.settlement session)
        <-> extract_claims response domain <> []).
Proof.
  intros Hagents.
  remember (run_verification config extract_claims ALL_AGENTS settle
              new_session_id prompt response domain w) as batch eqn:Hb.
  unfold run_verification, bind at 1 in Hb.
  rewrite await_extract_claims_run in Hb.
  destruct (extract_claims response domain) as [| c cs].
  - unfold ret in Hb. subst batch. eexists _, _. split; [reflexivity |].
    cbn. split; [reflexivity |]. split; [constructor |].
    split; [eauto |]. split; [intros [x Hx]; discriminate | congruence].
  - cbv beta iota in Hb.
    remember (c :: cs) as claims eqn:Hclaims in *.
    destruct (verify_each_score config ALL_AGENTS claims domain claims
                [] ∅ (extend w [CallExtract response domain] []))
      as [calls Hbatch].
    unfold bind at 1 in Hb. rewrite Hbatch in Hb. unfold bind, ret in Hb.
    rewrite await_settle_run, !extend_extend in Hb.
    subst batch. eexists _, _. split; [reflexivity |].
    cbn. split; [reflexivity |].
    split; [apply score_each_well_scored; exact Hagents |].
    split; [eauto |].
    split; [intros _; subst claims; discriminate | eauto].
Qed.

(** ** From the scores to the settlement *)

Lemma aggregate_allow_iff_true (config : Config) (claim : Claim)
    (assessments : list AgentAssessment) :
  ClaimVerification.action (aggregate_risk config claim assessments) = ALLOW
  <-> ClaimVerification.verdict (aggregate_risk config claim assessments)
      = TRUE.
Proof.
  destruct (decide (assessments = [])) as [-> | Hne].
  - cbn. split; discriminate.
  - rewrite (aggregate_risk_nonempty config claim assessments Hne).
    cbn [ClaimVerification.verdict ClaimVerification.action].
    destruct (decide_action_cases config (Claim.severity claim)
                (final_risk_score assessments))
      as [[_ ->] | [[_ [_ ->]] | [_ [_ ->]]]]; cbn [fst snd];
      split; congruence.
Qed.

(** X16: for verifications that the aggregator built, the local settlement
    reports the confidence 0.97 exactly when the overall action of the
    session is ALLOW, and it then recommends allowing the output. *)
Theorem allowed_iff_full_confidence (config : Config) (session_id : string)
    (verifications : list ClaimVerification) :
  Forall (fun v => exists claim assessments,
                     v = aggregate_risk config claim assessments)
    verifications ->
  let overall_action := determine_overall_action verifications in
  let st := _settle_local session_id verifications overall_action in
  (overall_action = ALLOW <-> Settlement.confidence st == 0.97)
  /\ (overall_action = ALLOW ->
      Settlement.recommendation st
      = "Allow output. All claims passed verification. No modifications needed."%string).
Proof.
  intros Hbuilt overall_action st. subst st.
  assert (Hsame :
    Forall (fun v => ClaimVerification.action v = ALLOW) verifications
    <-> Forall (fun v => has_verdict TRUE v = true) verifications).
  { split; intros Hall; apply List.Forall_forall; intros v Hin;
      destruct (proj1 (List.Forall_forall _ _) Hbuilt v Hin)
        as [claim [assessments ->]];
      pose proof (proj1 (List.Forall_forall _ _) Hall _ Hin) as Hv;
      cbv beta in Hv.
    - apply has_verdict_true, aggregate_allow_iff_true. exact Hv.
    - apply aggregate_allow_iff_true, has_verdict_true. exact Hv. }
  pose proof (settle_local_confidence_cases session_id verifications
                overall_action) as Hc. cbv zeta in Hc.
  split.
  - subst overall_action. rewrite overall_allow_iff, Hsame. split.
    + intros [Hne Hall]. rewrite Hc.
      assert (Hlen : length (List.filter (has_verdict TRUE) verifications)
                     = length verifications)
        by (apply filter_keeps_all; exact Hall).
      assert (Hfalse : nonempty (List.filter (has_verdict FALSE)
                                   verifications) = false).
      { apply not_true_is_false. intros Hf.
        apply nonempty_filter in Hf. destruct Hf as [v [Hin Hv]].
        pose proof (proj1 (List.Forall_forall _ _) Hall v Hin) as Ht.
        cbv beta in Ht. apply has_verdict_true in Hv, Ht. congruence. }
      assert (Htrue : nonempty (List.filter (has_verdict TRUE)
                                  verifications) = true).
      { destruct verifications as [| v vs]; [congruence |].
        destruct (List.filter (has_verdict TRUE) (v :: vs));
          [discriminate Hlen | reflexivity]. }
      rewrite Hfalse, Htrue, Hlen, Nat.eqb_refl. cbn. reflexivity.
    + intros Hconf. rewrite Hc in Hconf.
      destruct (nonempty (List.filter (has_verdict FALSE) verifications)).
      { destruct (negb _); cbn in Hconf; lra. }
      cbn [andb] in Hconf.
      destruct (nonempty (List.filter (has_verdict TRUE) verifications))
        eqn:Htrue; [| cbn in Hconf; lra].
      destruct (length (List.filter (has_verdict TRUE) verifications)
                =? length verifications)%nat eqn:Hlen;
        [| cbn in Hconf; lra].
      apply Nat.eqb_eq in Hlen. split.
      * intros ->. discriminate Htrue.
      * apply filter_keeps_all. exact Hlen.
  - intros Hallow. unfold _settle_local.
    destruct (tally_evidence verifications) as [[s c] n].
    rewrite Hallow. destruct (_ && _); [reflexivity |].
    destruct (nonempty _); [reflexivity |].
    destruct (_ && _); reflexivity.
Qed.


Lemma streaming_tells_the_batch_session_witness :
  Forall Modes.answers DemoText.agents
  /\ Forall Modes.own_entry_blind DemoText.agents
  /\ DemoText.agents <> []
  /\ NoDup (map Claim.id (DemoText.two_claims "response" "legal"))
  /\ exists session calls calls',
       run_verification default_config DemoText.two_claims DemoText.agents
         Demo.settle_stub "SES-1" "prompt" "response" "legal" empty_world
       = (Returned session, extend empty_world calls [])
       /\ run_verification_streaming default_config DemoText.two_claims
            DemoText.agents Demo.settle_stub "SES-1" "prompt" "response"
            "legal" empty_world
          = (Returned tt,
             extend empty_world calls' (Modes.events_of_session session)).
Proof.
  assert (Hanswer : Forall Modes.answers DemoText.agents)
    by apply demo_agents_answer.
  assert (Hblind : Forall Modes.own_entry_blind DemoText.agents)
    by apply demo_agents_blind.
  assert (Hne : DemoText.agents <> []) by discriminate.
  assert (Hdup : NoDup (map Claim.id (DemoText.two_claims "response" "legal"))).
  { apply (bool_decide_unpack _). vm_compute. exact I. }
  split; [exact Hanswer |]. split; [exact Hblind |]. split; [exact Hne |].
  split; [exact Hdup |].
  exact (streaming_tells_the_batch_session default_config DemoText.two_claims
           DemoText.agents Demo.settle_stub "SES-1" Hanswer Hblind
           "prompt" "response" "legal" empty_world empty_world Hne Hdup).
Defined.

Lemma batch_session_well_formed_witness :
  Forall Modes.reliable DemoText.agents
  /\ exists session calls,
       run_verification default_config DemoText.two_claims DemoText.agents
         Demo.settle_stub "SES-1" "prompt" "response" "legal" empty_world
       = (Returned session, extend empty_world calls [])
       /\ VerificationSession.claims session
          = DemoText.two_claims "response" "legal"
       /\ Forall2 (Modes.well_scored DemoText.agents)
            (VerificationSession.claims session)
            (VerificationSession.verifications session)
       /\ is_Some (VerificationSession.overall_action session)
       /\ (is_Some (VerificationSession.settlement session)
           <-> DemoText.two_claims "response" "legal" <> []).
Proof.
  assert (Hreliable : Forall Modes.reliable DemoText.agents)
    by apply demo_agents_reliable.
  split; [exact Hreliable |].
  exact (batch_session_well_formed default_config DemoText.two_claims
           DemoText.agents Demo.settle_stub "SES-1" "prompt" "response"
           "legal" empty_world Hreliable).
Defined.

Lemma allowed_iff_full_confidence_witness :
  let verifications :=
    [aggregate_risk default_config (Demo.claim_of "CLM-1" MED)
       Demo.unanimous_high_evidence] in
  let overall_action := determine_overall_action verifications in
  let st := _settle_local "SES-1" verifications overall_action in
  Forall (fun v => exists claim assessments,
                     v = aggregate_risk default_config claim assessments)
    verifications
  /\ (overall_action = ALLOW <-> Settlement.confidence st == 0.97)
  /\ (overall_action = ALLOW ->
      Settlement.recommendation st
      = "Allow output. All claims passed verification. No modifications needed."%string).
Proof.
  intros verifications overall_action st.
  assert (Hbuilt :
    Forall (fun v => exists claim assessments,
                       v = aggregate_risk default_config claim assessments)
      verifications).
  { repeat constructor. eexists _, _. reflexivity. }
  split; [exact Hbuilt |].
  exact (allowed_iff_full_confidence default_config "SES-1" verifications
           Hbuilt).
Defined.

(** ** Claim extraction *)

Lemma pretty_N_char_nonzero (d : N) :
  (0 < d < 10)%N -> pretty_N_char d <> digit_zero.
Proof.
  intros Hd.
  assert (Hcases : d = 1%N \/ d = 2%N \/ d = 3%N \/ d = 4%N \/ d = 5%N
                   \/ d = 6%N \/ d = 7%N \/ d = 8%N \/ d = 9%N) by lia.
  unfold digit_zero.
  repeat destruct Hcases as [-> | Hcases]; try subst d; discriminate.
Qed.

Lemma pretty_N_go_head (x : N) (s : string) :
  (0 < x)%N ->
  exists c rest, pretty_N_go x s = String c rest /\ c <> digit_zero.
Proof.
  revert s. induction (N.lt_wf_0 x) as [x _ IH]. intros s Hx.
  rewrite pretty_N_go_step by exact Hx.
  destruct (decide (x `div` 10 = 0)%N) as [Hdiv | Hdiv].
  - rewrite Hdiv, pretty_N_go_0. eexists _, _. split; [reflexivity |].
    apply pretty_N_char_nonzero.
    apply N.div_small_iff in Hdiv; [| lia].
    rewrite N.mod_small by exact Hdiv. lia.
  - apply IH; [apply N.div_lt; lia | apply N.neq_0_lt_0; exact Hdiv].
Qed.

Lemma pretty_nat_head (n : nat) :
  n <> 0%nat ->
  exists c rest, pretty n = String c rest /\ c <> digit_zero.
Proof.
  intros Hn. unfold pretty, pretty_nat, pretty, pretty_N.
  destruct (decide (N.of_nat n = 0%N)) as [Hz | Hz]; [lia |].
  apply pretty_N_go_head. lia.
Qed.

Lemma zeros_head_inj (k k' : nat) (c c' : Ascii.ascii) (r r' : string) :
  c <> digit_zero -> c' <> digit_zero ->
  (zeros k +:+ String c r)%string = (zeros k' +:+ String c' r')%string ->
  String c r = String c' r'.
Proof.
  unfold digit_zero. intros Hc Hc'. revert k'.
  induction k as [| k IH]; intros [| k'] Heq; cbn in Heq.
  - exact Heq.
  - injection Heq as Hhead _. congruence.
  - injection Heq as Hhead _. congruence.
  - injection Heq as Heq. apply (IH k'). exact Heq.
Qed.

Lemma claim_id_of_inj (n n' : nat) :
  n <> 0%nat -> n' <> 0%nat -> claim_id_of n = claim_id_of n' -> n = n'.
Proof.
  intros Hn Hn' Heq. unfold claim_id_of, format_0d in Heq.
  apply String.app_inj in Heq.
  destruct (pretty_nat_head n Hn) as [c [r [Hp Hc]]].
  destruct (pretty_nat_head n' Hn') as [c' [r' [Hp' Hc']]].
  rewrite Hp, Hp' in Heq. apply zeros_head_inj in Heq; [| assumption ..].
  rewrite <- Hp, <- Hp' in Heq. apply (inj pretty). exact Heq.
Qed.

Lemma claim_ids_distinct (n : nat) : NoDup (map claim_id_of (seq 1 n)).
Proof.
  apply NoDup_fmap_2_strong; [| apply NoDup_seq].
  intros x y Hx Hy. apply list_elem_of_In, in_seq in Hx, Hy.
  apply claim_id_of_inj; lia.
Qed.

Lemma numbered_snoc (claims : list Claim) (c : Claim) :
  map Claim.id claims = map claim_id_of (seq 1 (length claims)) ->
  Claim.id c = claim_id_of (length claims + 1) ->
  map Claim.id (claims ++ [c])
  = map claim_id_of (seq 1 (length (claims ++ [c]))).
Proof.
  intros Hclaims Hc. rewrite length_app. cbn [length].
  rewrite Nat.add_1_r, seq_S, !map_app, Hclaims. cbn [map].
  rewrite Hc, Nat.add_1_r. reflexivity.
Qed.

Section claim_extractor_properties.

Variable T : PyText.
Variable sentences : string -> list string.
Variable case_law_match : string -> bool.
Variable numeric_match : string -> bool.
Variable pct_match : string -> option Q.
Variable dollar_match : string -> bool.
Variable entity_match : string -> bool.
Variable ClaimData : Type.
Variable llm_reply : string -> string -> option (Outcome (list ClaimData)).
Variable claim_fields :
  ClaimData -> Outcome (string * ClaimType * Severity * string).
Variable DEMO_MODE : bool.

Lemma rules_loop_numbered (todo : list string) (claim_idx : nat)
    (claims : list Claim) :
  claim_idx = length claims ->
  map Claim.id claims = map claim_id_of (seq 1 (length claims)) ->
  map Claim.id
    (rules_loop T case_law_match numeric_match pct_match dollar_match
       entity_match todo claim_idx claims)
  = map claim_id_of
      (seq 1
         (length
            (rules_loop T case_law_match numeric_match pct_match dollar_match
               entity_match todo claim_idx claims))).
Proof.
  revert claim_idx claims.
  induction todo as [| sent todo IH]; intros claim_idx claims Hidx Hclaims;
    [exact Hclaims |].
  cbn [rules_loop]. cbv zeta.
  destruct (String.length (str_strip T sent) <? 15)%nat;
    [apply IH; assumption |].
  destruct (classify T case_law_match numeric_match pct_match dollar_match
              entity_match (str_strip T sent)) as [[claim_type severity] |];
    [| apply IH; assumption].
  apply IH.
  - rewrite length_app, Hidx. reflexivity.
  - apply numbered_snoc; [exact Hclaims |]. rewrite Hidx. reflexivity.
Qed.

Lemma llm_loop_numbered (claims_data : list ClaimData) (i : nat)
    (claims result : list Claim) :
  i = length claims ->
  map Claim.id claims = map claim_id_of (seq 1 (length claims)) ->
  llm_loop ClaimData claim_fields claims_data i claims = Returned result ->
  map Claim.id result = map claim_id_of (seq 1 (length result)).
Proof.
  revert i claims. induction claims_data as [| cd claims_data IH];
    intros i claims Hi Hclaims Hrun; cbn [llm_loop] in Hrun.
  - injection Hrun as <-. exact Hclaims.
  - destruct (claim_fields cd) as [[[[text type] severity] source_text] | e];
      [| discriminate].
    apply (IH (S i) (claims ++ [Claim.mk (claim_id_of (i + 1)) text type
                                  severity source_text])).
    + rewrite length_app, Hi. cbn [length]. lia.
    + apply numbered_snoc; [exact Hclaims |]. rewrite Hi. reflexivity.
    + exact Hrun.
Qed.

(** X17: whatever the language model replies, and in demo mode as well, the
    extracted claims are numbered in order from CLM-001 on, so that no two
    of them share an identifier. *)
Theorem extract_claims_numbered (response_text domain : string) :
  let claims :=
    extract_claims T sentences case_law_match numeric_match pct_match
      dollar_match entity_match ClaimData llm_reply claim_fields DEMO_MODE
      response_text domain in
  map Claim.id claims = map claim_id_of (seq 1 (length claims))
  /\ NoDup (map Claim.id claims).
Proof.
  intros claims.
  assert (Hnumbered :
    map Claim.id claims = map claim_id_of (seq 1 (length claims))).
  { subst claims. unfold extract_claims, extract_claims_llm.
    pose proof (rules_loop_numbered (sentences response_text) 0 [] eq_refl
                  eq_refl) as Hrules.
    destruct DEMO_MODE; [exact Hrules |].
    destruct (llm_reply response_text domain) as [[claims_data | e] |];
      [| exact Hrules | exact Hrules].
    destruct (llm_loop ClaimData claim_fields claims_data 0 [])
      as [result | e] eqn:Hrun;
      [| exact Hrules].
    apply (llm_loop_numbered claims_data 0 [] result eq_refl eq_refl Hrun). }
  split; [exact Hnumbered |].
  rewrite Hnumbered. apply claim_ids_distinct.
Qed.

Lemma classify_rule_pair (sent : string) (claim_type : ClaimType)
    (severity : Severity) (id : string) :
  classify T case_law_match numeric_match pct_match dollar_match entity_match
    sent = Some (claim_type, severity) ->
  rule_pair (Claim.mk id sent claim_type severity sent).
Proof.
  unfold classify, rule_pair. cbn [Claim.type Claim.severity].
  destruct (case_law_match sent);
    [intros [= <- <-]; left; split; reflexivity |].
  destruct (numeric_match sent).
  { intros [= <- <-]. right. left. split; [reflexivity |].
    destruct (dollar_match sent); [left; reflexivity |].
    destruct (pct_match sent) as [pct |]; [| right; reflexivity].
    destruct (gt_ pct 20); [left | right]; reflexivity. }
  destruct (contains_any EVENT_KEYWORDS (str_lower T sent));
    [intros [= <- <-]; right; right; left; split; reflexivity |].
  destruct (entity_match sent); [| discriminate].
  intros [= <- <-]. right. right. right. split; reflexivity.
Qed.

Lemma rules_loop_claims (todo : list string) (claim_idx : nat)
    (claims : list Claim) :
  exists more,
    rules_loop T case_law_match numeric_match pct_match dollar_match
      entity_match todo claim_idx claims = claims ++ more
    /\ sublist (map Claim.text more) (map (str_strip T) todo)
    /\ Forall (fun c => Claim.source_text c = Claim.text c
                        /\ (15 <= String.length (Claim.text c))%nat
                        /\ rule_pair c) more.
Proof.
  revert claim_idx claims.
  induction todo as [| sent todo IH]; intros claim_idx claims.
  - exists []. cbn. rewrite app_nil_r. repeat split; constructor.
  - cbn [rules_loop map]. cbv zeta.
    destruct (String.length (str_strip T sent) <? 15)%nat eqn:Hlen.
    { destruct (IH claim_idx claims) as [more [Hrun [Hsub Hall]]].
      exists more. split; [exact Hrun |].
      split; [apply sublist_cons; exact Hsub | exact Hall]. }
    destruct (classify T case_law_match numeric_match pct_match dollar_match
                entity_match (str_strip T sent))
      as [[claim_type severity] |] eqn:Hclass.
    + destruct (IH (claim_idx + 1)%nat
                  (claims ++ [Claim.mk (claim_id_of (claim_idx + 1))
                                (str_strip T sent) claim_type severity
                                (str_strip T sent)]))
        as [more [Hrun [Hsub Hall]]].
      eexists (_ :: more). rewrite Hrun, <- app_assoc.
      split; [reflexivity |]. cbn [map Claim.text].
      split; [apply sublist_skip; exact Hsub |].
      constructor; [| exact Hall]. cbn [Claim.source_text Claim.text].
      split; [reflexivity |]. apply Nat.ltb_ge in Hlen.
      split; [exact Hlen |].
      apply classify_rule_pair. exact Hclass.
    + destruct (IH claim_idx claims) as [more [Hrun [Hsub Hall]]].
      exists more. split; [exact Hrun |].
      split; [apply sublist_cons; exact Hsub | exact Hall].
Qed.

(** X18: the claims that the rules extract are sentences of the response,
    stripped, in their order and each at most once per occurrence; every one
    is at least 15 characters long and is its own source text, and its type
    fixes its severity: CRITICAL for case law, HIGH or MED for a numeric
    claim, HIGH for an event and LOW for an entity.  The rules never produce
    a claim of another type. *)
Theorem extract_claims_rules_table (response_text domain : string) :
  let claims :=
    extract_claims_rules T sentences case_law_match numeric_match pct_match
      dollar_match entity_match response_text domain in
  sublist (map Claim.text claims)
    (map (str_strip T) (sentences response_text))
  /\ Forall (fun c => Claim.source_text c = Claim.text c
                      /\ (15 <= String.length (Claim.text c))%nat
                      /\ rule_pair c) claims.
Proof.
  intros claims. subst claims. unfold extract_claims_rules.
  destruct (rules_loop_claims (sentences response_text) 0 [])
    as [more [-> Hmore]].
  exact Hmore.
Qed.

End claim_extractor_properties.
